(** * The Kremblin BBB score ([kremblin_model.py]), embedded in Rocq

    The definitions come first.

    - [Py], [PyNum], [PyText]: the fragment of the Python runtime that the
      program relies on: exception classes and [except] matching,
      binary64 floats (Rocq's primitive floats), the conversions between
      [int] and [float], [float.__pow__], the [".6f"] format.
    - [Scorer]: [calculate_bbb_score], block by block.
    - [Pipeline]: [csv.DictReader] / [csv.DictWriter] over a small file
      system, and [process_csv].
    - [Sample], [Formulas], [Tables], [Binary64]: a sample platform, the
      formulas as the spec writes them, and the rows and constants the
      statements use.

    The properties follow: [FloatFacts] and [Rounding] about binary64,
    [ScorerFacts] and [ScorerMore] about the scorer, [RowFacts],
    [LoopFacts] and [RunFacts] about the rows, the loop and a run of
    [process_csv], [PipelineFacts] and [PipelineMore] about the batch,
    [MainFacts] about the [__main__] block.

    What the C library, the interpreter and the terminal decide (the value
    of [pow] on ordinary arguments, the grammar of [float(str)], [repr] of a
    string, which texts stdout takes) is
    gathered in the class [Platform]. *)

From Stdlib Require Import ZArith Bool List String Ascii Floats Lia DecimalString.
Import ListNotations.

Set Warnings "-inexact-float".

Module Py.

(** ** Exceptions *)

Inductive exn_class :=
| BaseException | Exception | KeyboardInterrupt
| ArithmeticError | ZeroDivisionError | OverflowError
| LookupError | KeyError
| TypeError
| ValueError | UnicodeError | UnicodeDecodeError | UnicodeEncodeError
| OSError | FileNotFoundError | PermissionError
| CsvError.

Scheme Equality for exn_class.

(** The direct base class, as in the built-in hierarchy. *)
Definition base (c : exn_class) : option exn_class :=
  match c with
  | BaseException => None
  | Exception | KeyboardInterrupt => Some BaseException
  | ArithmeticError | LookupError | TypeError | ValueError | OSError
  | CsvError => Some Exception
  | ZeroDivisionError | OverflowError => Some ArithmeticError
  | KeyError => Some LookupError
  | UnicodeError => Some ValueError
  | UnicodeDecodeError | UnicodeEncodeError => Some UnicodeError
  | FileNotFoundError | PermissionError => Some OSError
  end.

Fixpoint derives (fuel : nat) (c target : exn_class) : bool :=
  exn_class_beq c target ||
  match fuel, base c with
  | S n, Some b => derives n b target
  | _, _ => false
  end.

(** [issubclass c target]; the hierarchy above is five classes deep. *)
Definition issubclass (c target : exn_class) : bool := derives 5 c target.

Record exn := mkExn { cls : exn_class; msg : string }.

(** Does [except targets:] catch [e]? *)
Definition caught_by (targets : list exn_class) (e : exn) : bool :=
  existsb (issubclass (cls e)) targets.

(** ** Results: a value or a raised exception *)

Inductive result (A : Type) :=
| Ok (a : A)
| Raise (e : exn).
Arguments Ok {A} a.
Arguments Raise {A} e.

Definition bind {A B} (r : result A) (k : A -> result B) : result B :=
  match r with
  | Ok a => k a
  | Raise e => Raise e
  end.

Definition raise {A} (c : exn_class) (m : string) : result A :=
  Raise (mkExn c m).

End Py.

Export Py.

(** ** The platform *)

Class Platform := {
  (** C's [pow(x, y)] for finite [x > 0] and finite [y <> 0]. *)
  libm_pow : float -> float -> float;
  (** [float(s)] for a string [s]; [None] when it raises [ValueError]. *)
  str_to_float : string -> option float;
  (** [repr(s)] for a string [s]. *)
  str_repr : string -> string;
  (** What [print(text)] raises on this stdout once the lines [printed] have
      been written ([UnicodeEncodeError] for a text its encoding lacks,
      [ValueError] or [OSError] on a closed or broken stream); [None] when
      the text is written. *)
  stdout_error : list string -> string -> option exn
}.


Declare Scope py_scope.
Delimit Scope py_scope with py.
Notation "x <- r ;; k" := (bind r (fun x => k))
  (at level 61, r at next level, right associativity) : py_scope.

(** ** Numbers *)

Module PyNum.

Local Open Scope Z_scope.

(** The values an arithmetic expression of the program can take: an
    [int], a [float], or the [complex] that a negative base raised to a
    fractional power yields.  The program never looks inside a complex
    number (its first use is an ordering comparison, which raises), so its
    components are not recorded. *)
Inductive num :=
| NInt (z : Z)
| NFloat (f : float)
| NComplex.

(** The double nearest to an integer, ties to even (infinite when out of
    range). *)
Definition Z2F (z : Z) : float := SF2Prim (binary_normalize prec emax z 0 false).

(** [PyLong_AsDouble]: the implicit conversion of an [int] operand. *)
Definition float_of_int (z : Z) : result float :=
  match binary_normalize prec emax z 0 false with
  | S754_infinity _ => raise OverflowError "int too large to convert to float"
  | sf => Ok (SF2Prim sf)
  end.

(** [int(x)] for a float [x]: truncation towards zero. *)
Definition int_of_float (f : float) : result Z :=
  match Prim2SF f with
  | S754_nan => raise ValueError "cannot convert float NaN to integer"
  | S754_infinity _ => raise OverflowError "cannot convert float infinity to integer"
  | S754_zero _ => Ok 0
  | S754_finite s m e =>
      let a := Z.shiftl (Zpos m) e in
      Ok (if s then - a else a)
  end.

(** [x == floor(x)] for a float [x]. *)
Definition is_integral (f : float) : bool :=
  match Prim2SF f with
  | S754_nan => false
  | S754_infinity _ | S754_zero _ => true
  | S754_finite _ m e => (0 <=? e) || (Z.land (Zpos m) (Z.ones (- e)) =? 0)
  end.

(** [DOUBLE_IS_ODD_INTEGER(x)]: [fmod(fabs(x), 2.0) == 1.0]. *)
Definition is_odd_integer (f : float) : bool :=
  match Prim2SF f with
  | S754_finite _ m e =>
      (e <=? 0) && (Z.land (Zpos m) (Z.ones (- e)) =? 0) && Z.testbit (Zpos m) (- e)
  | _ => false
  end.

Section Pow.
Context {P : Platform}.
Local Open Scope float_scope.
Local Open Scope py_scope.

(** [complex.__pow__] at a negative real base and a fractional real
    exponent: modulus [pow(|v|, w)], argument [pi * w]; [OverflowError]
    when a component is infinite. *)
Definition complex_pow (iv iw : float) : result num :=
  if is_infinity (libm_pow (abs iv) iw)
  then raise OverflowError "complex exponentiation"
  else Ok NComplex.

(** [float_pow] of CPython's [floatobject.c], case by case.  The last case
    hands over to the C library; its range error is taken to be an infinite
    result. *)
Definition float_pow (iv iw : float) : result num :=
  if iw =? 0 then Ok (NFloat 1)
  else if is_nan iv then Ok (NFloat iv)
  else if is_nan iw then Ok (NFloat (if iv =? 1 then 1 else iw))
  else if is_infinity iw then
    let av := abs iv in
    if av =? 1 then Ok (NFloat 1)
    else if Bool.eqb (0 <? iw) (1 <? av) then Ok (NFloat (abs iw))
    else Ok (NFloat 0)
  else if is_infinity iv then
    let odd := is_odd_integer iw in
    if 0 <? iw then Ok (NFloat (if odd then iv else abs iv))
    else Ok (NFloat (if odd then (if iv <? 0 then -0 else 0) else 0))
  else if iv =? 0 then
    if iw <? 0
    then raise ZeroDivisionError "0.0 cannot be raised to a negative power"
    else Ok (NFloat (if is_odd_integer iw then iv else 0))
  else if (iv <? 0) && negb (is_integral iw) then complex_pow iv iw
  else
    let negate_result := (iv <? 0) && is_odd_integer iw in
    let av := if iv <? 0 then - iv else iv in
    if av =? 1 then Ok (NFloat (if negate_result then -1 else 1))
    else
      let ix := libm_pow av iw in
      if is_infinity ix
      then raise OverflowError "(34, 'Numerical result out of range')"
      else Ok (NFloat (if negate_result then - ix else ix)).

End Pow.

(** *** Arithmetic on [num]

    An [int] meeting a [float] is converted first; a complex operand
    makes the result complex. *)

Local Open Scope py_scope.

Definition arith (fz : Z -> Z -> Z) (ff : float -> float -> float)
    (a b : num) : result num :=
  match a, b with
  | NInt x, NInt y => Ok (NInt (fz x y))
  | NInt x, NFloat y => x' <- float_of_int x ;; Ok (NFloat (ff x' y))
  | NFloat x, NInt y => y' <- float_of_int y ;; Ok (NFloat (ff x y'))
  | NFloat x, NFloat y => Ok (NFloat (ff x y))
  | NComplex, NInt y => _ <- float_of_int y ;; Ok NComplex
  | NInt x, NComplex => _ <- float_of_int x ;; Ok NComplex
  | NComplex, _ | _, NComplex => Ok NComplex
  end.

Definition num_add := arith Z.add PrimFloat.add.
Definition num_sub := arith Z.sub PrimFloat.sub.
Definition num_mul := arith Z.mul PrimFloat.mul.

(** [a ** n] for a literal exponent [n]: a float base goes through
    [float_pow] with the exponent converted. *)
Definition num_pow {P : Platform} (a : num) (n : Z) : result num :=
  match a with
  | NInt x => if 0 <=? n then Ok (NInt (x ^ n))
              else (fx <- float_of_int x ;; fn <- float_of_int n ;; float_pow fx fn)
  | NFloat f => fn <- float_of_int n ;; float_pow f fn
  | NComplex => Ok NComplex   (* not reached: a complex B8 fails the gate before *)
  end.

(** Ordering against a float constant; complex numbers are unordered. *)
Definition unorderable (op : string) : exn :=
  mkExn TypeError
    ("'" ++ op ++ "' not supported between instances of 'complex' and 'float'").

(** The exact comparison of an integer with a float. *)
Definition cmp_int_float (z : Z) (c : float) : option comparison :=
  match Prim2SF c with
  | S754_nan => None
  | S754_infinity s => Some (if s then Gt else Lt)
  | S754_zero _ => Some (z ?= 0)
  | S754_finite s m e =>
      let v := if s then Zneg m else Zpos m in
      Some (if 0 <=? e then z ?= Z.shiftl v e else Z.shiftl z (- e) ?= v)
  end.

Definition num_le (a : num) (c : float) : result bool :=
  match a with
  | NInt z => Ok (match cmp_int_float z c with Some (Lt | Eq) => true | _ => false end)
  | NFloat f => Ok (f <=? c)%float
  | NComplex => Raise (unorderable "<=")
  end.

Definition num_gt (a : num) (c : float) : result bool :=
  match a with
  | NInt z => Ok (match cmp_int_float z c with Some Gt => true | _ => false end)
  | NFloat f => Ok (c <? f)%float
  | NComplex => Raise (unorderable ">")
  end.

(** The numeric value of a real [num] as a double. *)
Definition fl (n : num) : float :=
  match n with
  | NInt z => Z2F z
  | NFloat f => f
  | NComplex => nan
  end.

(** Expressions: operands are evaluated left to right, then combined. *)
Definition lift2 (op : num -> num -> result num) (ra rb : result num) : result num :=
  a <- ra ;; b <- rb ;; op a b.

Definition i (z : Z) : result num := Ok (NInt z).
Definition f (x : float) : result num := Ok (NFloat x).
Arguments i z%_Z.
Arguments f x%_float.

End PyNum.

Export PyNum.

Declare Scope pyexpr_scope.
Delimit Scope pyexpr_scope with pyexpr.
Notation "a + b" := (lift2 num_add a b) : pyexpr_scope.
Notation "a - b" := (lift2 num_sub a b) : pyexpr_scope.
Notation "a * b" := (lift2 num_mul a b) : pyexpr_scope.
Notation "a ** n" := (bind a (fun v => num_pow v n%Z))
  (at level 30, right associativity) : pyexpr_scope.

(** ** The scorer *)

Module Scorer.

Section WithPlatform.
Context {P : Platform}.
Local Open Scope Z_scope.
Local Open Scope py_scope.
Local Open Scope pyexpr_scope.

(** The arguments have the types [process_csv] passes: [int] for the four
    counts, [float] for weight, TPSA and pKa.  Each block of the function
    body is a definition of its own, named after the variable it assigns.
    [1/k] for a float literal [k] is written as the float division it is. *)

(** [# C3: Aromatic Rings score] *)
Definition c3_aromatic_rings (aro_r : Z) : num :=
  if aro_r =? 0 then NFloat 0.336376
  else if aro_r =? 1 then NFloat 0.816016
  else if aro_r =? 2 then NInt 1
  else if aro_r =? 3 then NFloat 0.691115
  else if aro_r =? 4 then NFloat 0.199399
  else NInt 0.

(** [# C4: Heavy Atoms score] *)
Definition c4_heavy_atoms (ha : Z) : result num :=
  if (ha <=? 5) || (ha >? 45) then i 0
  else f (1 / 0.624231) *
       (f 0.0000443 * i ha ** 3 - f 0.004556 * i ha ** 2 + f 0.12775 * i ha - f 0.463).

(** [# B8: MWHBN calculation] *)
Definition b8_mwhbn (mw : float) (hba hbd : Z) : result num :=
  float_pow mw (-0.5) * i (hba + hbd).

(** [# C8: MWHBN score]; [or] evaluates its right operand only when the
    left one is false. *)
Definition c8_mwhbn (b8 : num) : result num :=
  low <- num_le b8 0.05 ;;
  out <- (if low : bool then Ok true else num_gt b8 0.45) ;;
  if out : bool then i 0
  else f (1 / 0.72258) *
       (f 26.733 * Ok b8 ** 3 - f 31.495 * Ok b8 ** 2 + f 9.5202 * Ok b8 - f 0.1358).

(** [# C9: TPSA score] *)
Definition c9_tpsa (tpsa : float) : result num :=
  if (tpsa =? 0)%float || (120 <? tpsa)%float then i 0
  else f (1 / 0.9598) * (f (-0.0067) * f tpsa + f 0.9598).

(** [# C10: pKa score] *)
Definition c10_pka (pka : float) : result num :=
  if (pka <=? 3)%float || (11 <? pka)%float then i 0
  else f (1 / 0.597488) *
       (f 0.00045068 * f pka ** 4 - f 0.016331 * f pka ** 3 +
        f 0.18618 * f pka ** 2 - f 0.71043 * f pka + f 0.8579).

(** [# C11: BBB SCORE] *)
Definition bbb_sum (c3 c4 c8 c9 c10 : num) : result num :=
  Ok c3 + Ok c4 + Ok c8 * f 1.5 + Ok c9 * i 2 + Ok c10 * f 0.5.

Definition calculate_bbb_score (aro_r ha : Z) (mw : float) (hba hbd : Z)
    (tpsa pka : float) : result num :=
  let c3 := c3_aromatic_rings aro_r in
  c4 <- c4_heavy_atoms ha ;;
  b8 <- b8_mwhbn mw hba hbd ;;
  c8 <- c8_mwhbn b8 ;;
  c9 <- c9_tpsa tpsa ;;
  c10 <- c10_pka pka ;;
  bbb_sum c3 c4 c8 c9 c10.

End WithPlatform.

End Scorer.

Export Scorer.

(** ** Text *)

Module PyText.

Local Open Scope Z_scope.
Local Open Scope string_scope.

(** [str(n)] for an [int]. *)
Definition str_int (z : Z) : string := NilZero.string_of_int (Z.to_int z).

Definition newline : string := String (ascii_of_nat 10) "".

(** [n / d] rounded to the nearest integer, ties to even ([0 <= n], [0 < d]). *)
Definition div_half_even (n d : Z) : Z :=
  let q := n / d in
  match 2 * (n mod d) ?= d with
  | Lt => q
  | Gt => q + 1
  | Eq => if Z.even q then q else q + 1
  end.

Definition six_digits (d : Z) : string :=
  match str_int (1000000 + d) with
  | String _ rest => rest
  | EmptyString => ""
  end.

(** [format(x, ".6f")] for a float: the exact binary value rounded to six
    decimals, ties to even; the sign of a negative zero is kept. *)
Definition fixed6 (x : float) : string :=
  match Prim2SF x with
  | S754_nan => "nan"
  | S754_infinity s => if s then "-inf" else "inf"
  | S754_zero s => (if s then "-" else "") ++ "0.000000"
  | S754_finite s m e =>
      let q := if (0 <=? e)%Z then Zpos m * 2 ^ e * 1000000
               else div_half_even (Zpos m * 1000000) (2 ^ (- e)) in
      (if s then "-" else "") ++ str_int (q / 1000000) ++ "." ++ six_digits (q mod 1000000)
  end.

(** [f"{score:.6f}"].  [calculate_bbb_score] only ever returns a float
    (lemma [calculate_returns_float] below); an [int] would be converted,
    and the branch for a complex number is never taken. *)
Definition format_6f (score : num) : string := fixed6 (fl score).

End PyText.

Export PyText.

(** ** The batch pipeline *)

Module Pipeline.

Local Open Scope string_scope.

(** *** Files

    A CSV file is kept as the records [csv.reader] yields from it (a blank
    line is the empty record), followed, when reading breaks off, by the
    exception raised at that point (undecodable bytes, [csv.Error]).  Quoting
    and line endings are the [csv] module's business and are not
    modelled. *)
Definition record := list string.

Inductive file :=
| NoSuchFile                       (** absent; opening for writing creates it *)
| Unopenable (e : exn)             (** [open] raises [e] *)
| Csv (records : list record) (broken : option exn).

Record world := mkWorld { fs : string -> file; stdout : list string }.

(** A line has been written to stdout. *)
Definition writeln (w : world) (line : string) : world :=
  mkWorld (fs w) (stdout w ++ [line])%list.

Definition store (w : world) (path : string) (c : file) : world :=
  mkWorld (fun p => if String.eqb p path then c else fs w p) (stdout w).

Section WithPlatform.
Context {P : Platform}.
Local Open Scope py_scope.

(** [print(line)]: stdout takes the line, or raises and nothing is
    written. *)
Definition print (w : world) (line : string) : result unit * world :=
  match stdout_error (stdout w) line with
  | Some e => (Raise e, w)
  | None => (Ok tt, writeln w line)
  end.

(** A stdout that takes every line. *)
Definition stdout_takes_all : Prop :=
  forall printed line, stdout_error printed line = None.

Definition open_read (w : world) (path : string) : result (list record * option exn) :=
  match fs w path with
  | NoSuchFile =>
      raise FileNotFoundError ("[Errno 2] No such file or directory: " ++ str_repr path)
  | Unopenable e => Raise e
  | Csv records broken => Ok (records, broken)
  end.

Definition open_write (w : world) (path : string) : result unit :=
  match fs w path with
  | Unopenable e => Raise e
  | _ => Ok tt
  end.

(** *** Row dictionaries

    The keys of a [DictReader] row are the header names, plus [None] (the
    default [restkey]) for surplus fields; a value is a field, [None] (the
    default [restval]) for a missing field, or the list of surplus fields.
    A [dict] keeps insertion order and assignment to a present key replaces
    its value in place. *)
Definition key := option string.

Inductive value :=
| VStr (s : string)
| VNone
| VList (l : list string).

Definition dict := list (key * value).

Definition key_eqb (a b : key) : bool :=
  match a, b with
  | Some x, Some y => String.eqb x y
  | None, None => true
  | _, _ => false
  end.

Fixpoint dict_get (d : dict) (k : key) : option value :=
  match d with
  | [] => None
  | (k', v) :: rest => if key_eqb k' k then Some v else dict_get rest k
  end.

Fixpoint dict_set (d : dict) (k : key) (v : value) : dict :=
  match d with
  | [] => [(k, v)]
  | (k', v') :: rest =>
      if key_eqb k' k then (k', v) :: rest else (k', v') :: dict_set rest k v
  end.

Definition dict_keys (d : dict) : list key := map fst d.

(** [dict(zip(fieldnames, row))] *)
Definition dict_zip (fieldnames : list string) (row : record) : dict :=
  fold_left (fun d kv => dict_set d (Some (fst kv)) (VStr (snd kv)))
            (combine fieldnames row) [].

(** The body of [DictReader.__next__] once a non-blank record is read. *)
Definition DictReader_row (fieldnames : list string) (row : record) : dict :=
  let d := dict_zip fieldnames row in
  let lf := List.length fieldnames in
  let lr := List.length row in
  if (lf <? lr)%nat then dict_set d None (VList (skipn lf row))
  else if (lr <? lf)%nat
       then fold_left (fun d k => dict_set d (Some k) VNone) (skipn lr fieldnames) d
       else d.

(** [row[k]] *)
Definition getitem (row : dict) (k : string) : result value :=
  match dict_get row (Some k) with
  | Some v => Ok v
  | None => raise KeyError (str_repr k)
  end.

(** [float(v)] *)
Definition py_float (v : value) : result float :=
  match v with
  | VStr s =>
      match str_to_float s with
      | Some x => Ok x
      | None => raise ValueError ("could not convert string to float: " ++ str_repr s)
      end
  | VNone =>
      raise TypeError "float() argument must be a string or a real number, not 'NoneType'"
  | VList _ =>
      raise TypeError "float() argument must be a string or a real number, not 'list'"
  end.

(** [float(row[k])] and [int(float(row[k]))] *)
Definition float_field (row : dict) (k : string) : result float :=
  v <- getitem row k ;; py_float v.

Definition int_field (row : dict) (k : string) : result Z :=
  x <- float_field row k ;; int_of_float x.

(** The statements of the inner [try] up to the call of the scorer. *)
Definition score_row (row : dict) : result num :=
  aro_r <- int_field row "aro_r" ;;
  ha <- int_field row "ha" ;;
  mw <- float_field row "mw" ;;
  hba <- int_field row "hba" ;;
  hbd <- int_field row "hbd" ;;
  tpsa <- float_field row "tpsa" ;;
  pka <- float_field row "pka" ;;
  calculate_bbb_score aro_r ha mw hba hbd tpsa pka.

(** The inner [try] block for one row: the coercions and the call, then
    the assignment, the [append] and the [print].  It gives how the block
    ended, with the rows collected and the world at that point: a [print]
    that raises leaves the row appended. *)
Definition try_row (row : dict) (row_num : Z) (rows_with_scores : list dict)
    (w : world) : result unit * (list dict * world) :=
  match score_row row with
  | Ok score =>
      let row := dict_set row (Some "bbb_score") (VStr (format_6f score)) in
      let '(printed, w1) :=
        print w ("Row " ++ str_int row_num ++ ": BBB Score = " ++ format_6f score) in
      (printed, ((rows_with_scores ++ [row])%list, w1))
  | Raise e => (Raise e, (rows_with_scores, w))
  end.

(** One turn of the loop: the inner [try] with its
    [except (ValueError, KeyError)]; what the [print] of the handler raises
    leaves the loop. *)
Definition process_row (row : dict) (row_num : Z) (rows_with_scores : list dict)
    (w : world) : result (list dict) * world :=
  match try_row row row_num rows_with_scores w with
  | (Ok _, (rows, w1)) => (Ok rows, w1)
  | (Raise e, (rows, w1)) =>
      if caught_by [ValueError; KeyError] e
      then match print w1 ("Warning: Skipping row " ++ str_int row_num
                           ++ " due to error: " ++ msg e) with
           | (Ok _, w2) => (Ok rows, w2)
           | (Raise e', w2) => (Raise e', w2)
           end
      else (Raise e, w1)
  end.

(** The [for] loop over the reader: [row_num] counts the rows the
    [DictReader] yields, blank records are not among them. *)
Fixpoint process_rows (fieldnames : list string) (records : list record)
    (broken : option exn) (row_num : Z) (rows_with_scores : list dict)
    (w : world) : result (list dict) * world :=
  match records with
  | [] =>
      match broken with
      | Some e => (Raise e, w)
      | None => (Ok rows_with_scores, w)
      end
  | [] :: rest => process_rows fieldnames rest broken row_num rows_with_scores w
  | r :: rest =>
      match process_row (DictReader_row fieldnames r) row_num rows_with_scores w with
      | (Ok rows, w1) => process_rows fieldnames rest broken (row_num + 1) rows w1
      | (Raise e, w1) => (Raise e, w1)
      end
  end.

(** *** Writing *)

Definition key_repr (k : key) : string :=
  match k with
  | Some s => str_repr s
  | None => "None"
  end.

(** What [csv.writer] writes for a value: a string as it is, [None] as the
    empty field, anything else through [str]. *)
Definition field_text (v : value) : string :=
  match v with
  | VStr s => s
  | VNone => ""
  | VList l => "[" ++ String.concat ", " (map str_repr l) ++ "]"
  end.

(** [DictWriter._dict_to_list] with the default [extrasaction="raise"] and
    [restval=""]. *)
Definition dict_to_list (fieldnames : list string) (rowdict : dict) : result record :=
  let wrong_fields :=
    filter (fun k => negb (existsb (fun n => key_eqb k (Some n)) fieldnames))
           (dict_keys rowdict) in
  match wrong_fields with
  | [] =>
      Ok (map (fun n => match dict_get rowdict (Some n) with
                        | Some v => field_text v
                        | None => ""
                        end) fieldnames)
  | _ =>
      raise ValueError ("dict contains fields not in fieldnames: "
                        ++ String.concat ", " (map key_repr wrong_fields))
  end.

(** [writer.writerows]: the rows before a failing one have been written. *)
Fixpoint writerows (fieldnames : list string) (rowdicts : list dict)
    : list record * option exn :=
  match rowdicts with
  | [] => ([], None)
  | d :: rest =>
      match dict_to_list fieldnames d with
      | Raise e => ([], Some e)
      | Ok r => let '(written, err) := writerows fieldnames rest in (r :: written, err)
      end
  end.

(** *** [process_csv] *)

(** The block that writes the output file, and the two lines printed
    after it: the file is opened (and so emptied), the header and the rows
    are written up to a row the writer refuses. *)
Definition write_results (output_file : string) (output_fieldnames : list string)
    (rows_with_scores : list dict) (w : world) : result unit * world :=
  match open_write w output_file with
  | Raise e => (Raise e, w)
  | Ok _ =>
      let '(written, err) := writerows output_fieldnames rows_with_scores in
      let w1 := store w output_file (Csv (output_fieldnames :: written) None) in
      match err with
      | Some e => (Raise e, w1)
      | None =>
          match print w1 (newline ++ "Successfully processed "
                          ++ str_int (Z.of_nat (List.length rows_with_scores))
                          ++ " rows") with
          | (Raise e, w2) => (Raise e, w2)
          | (Ok _, w2) => print w2 ("Results saved to: " ++ output_file)
          end
      end
  end.

(** The body of the outer [try].  [Ok] is reached at the end of the block
    and at the early [return]. *)
Definition process_csv_try (input_file output_file : string) (w : world)
    : result unit * world :=
  match open_read w input_file with
  | Raise e => (Raise e, w)
  | Ok ([], Some e) => (Raise e, w)
  | Ok ([], None) => print w "Error: CSV file appears to be empty or malformed"
  | Ok (fieldnames :: records, broken) =>
      let output_fieldnames := (fieldnames ++ ["bbb_score"])%list in
      match process_rows fieldnames records broken 2 [] w with
      | (Raise e, w1) => (Raise e, w1)
      | (Ok rows_with_scores, w1) =>
          write_results output_file output_fieldnames rows_with_scores w1
      end
  end.

(** The line an outer [except] clause prints for [e]. *)
Definition diagnostic (input_file : string) (e : exn) : string :=
  if caught_by [FileNotFoundError] e
  then "Error: Input file '" ++ input_file ++ "' not found"
  else "Error processing CSV: " ++ msg e.

(** The two [except] clauses, tried in order; an exception neither catches
    leaves the function, and so does what the [print] of a clause raises. *)
Definition process_csv (input_file output_file : string) (w : world)
    : result unit * world :=
  match process_csv_try input_file output_file w with
  | (Ok tt, w1) => (Ok tt, w1)
  | (Raise e, w1) =>
      if caught_by [FileNotFoundError] e
      then print w1 ("Error: Input file '" ++ input_file ++ "' not found")
      else if caught_by [Exception] e
      then print w1 ("Error processing CSV: " ++ msg e)
      else (Raise e, w1)
  end.

End WithPlatform.

End Pipeline.

Export Pipeline.

(** ** A sample platform

    [pow] by square root and repeated multiplication, a reader of plain
    decimals ([-12.5], [inf], [nan]) that is correctly rounded for up to
    fifteen digits, and a stdout that takes every text; a second platform
    has a stdout in the [ascii] encoding. *)

Module Sample.

Local Open Scope Z_scope.

Definition digit_of (c : ascii) : option Z :=
  let n := Z.of_nat (nat_of_ascii c) in
  if (48 <=? n) && (n <=? 57) then Some (n - 48) else None.

(** The digits of [s] appended to [acc]; the count of digits read. *)
Fixpoint digits (s : string) (acc : Z) (count : Z) : option (Z * Z) :=
  match s with
  | EmptyString => Some (acc, count)
  | String c rest =>
      match digit_of c with
      | Some d => digits rest (10 * acc + d) (count + 1)
      | None => None
      end
  end.

Fixpoint split_dot (s : string) : string * option string :=
  match s with
  | EmptyString => (EmptyString, None)
  | String c rest =>
      if Ascii.eqb c "."%char then (EmptyString, Some rest)
      else let '(a, b) := split_dot rest in (String c a, b)
  end.

Definition unsigned_decimal (s : string) : option float :=
  if String.eqb s "inf" then Some infinity
  else if String.eqb s "nan" then Some nan
  else
    let '(whole, frac) := split_dot s in
    match digits whole 0 0 with
    | Some (n, c) =>
        match frac with
        | None => if 0 <? c then Some (Z2F n) else None
        | Some fr =>
            match digits fr n 0 with
            | Some (m, k) =>
                if 0 <? c + k then Some (Z2F m / Z2F (10 ^ k))%float else None
            | None => None
            end
        end
    | None => None
    end.

Definition decimal (s : string) : option float :=
  match s with
  | String "-"%char rest => option_map PrimFloat.opp (unsigned_decimal rest)
  | _ => unsigned_decimal s
  end.

Definition pow (x y : float) : float :=
  if (y =? -0.5)%float then (1 / PrimFloat.sqrt x)%float
  else if (y =? 2)%float then (x * x)%float
  else if (y =? 3)%float then (x * x * x)%float
  else if (y =? 4)%float then (x * x * (x * x))%float
  else nan.

Definition quote (s : string) : string := ("'" ++ s ++ "'")%string.

(** A stdout that takes every text. *)
Definition terminal (printed : list string) (line : string) : option exn := None.

Definition platform : Platform :=
  {| libm_pow := pow; str_to_float := decimal; str_repr := quote;
     stdout_error := terminal |}.

(** A stdout in the [ascii] encoding: a text with a character above 127
    raises [UnicodeEncodeError]. *)
Fixpoint is_ascii (s : string) : bool :=
  match s with
  | EmptyString => true
  | String c rest => (nat_of_ascii c <? 128)%nat && is_ascii rest
  end.

Definition ascii_stdout (printed : list string) (line : string) : option exn :=
  if is_ascii line then None
  else Some (mkExn UnicodeEncodeError
               "'ascii' codec can't encode character: ordinal not in range(128)").

Definition ascii_platform : Platform :=
  {| libm_pow := pow; str_to_float := decimal; str_repr := quote;
     stdout_error := ascii_stdout |}.

End Sample.

(** ** The spec's formulas

    The formulas as the spec writes them, to be compared with the blocks of
    [calculate_bbb_score]. *)

Module Formulas.

Local Open Scope float_scope.

(** The lookup of the aromatic-ring score, as the spec lists it. *)
Definition spec_c3_table : list (Z * float) :=
  [(0%Z, 0.336376); (1%Z, 0.816016); (2%Z, 1.0); (3%Z, 0.691115); (4%Z, 0.199399)].

Definition spec_c3 (rings : Z) : float :=
  match find (fun entry => Z.eqb (fst entry) rings) spec_c3_table with
  | Some entry => snd entry
  | None => 0
  end.

(** The spec's cubic in the heavy-atom count; the powers of an integer are
    integers. *)
Definition spec_c4_cubic (h : Z) : float :=
  (1 / 0.624231) *
  (0.0000443 * Z2F (h ^ 3) - 0.004556 * Z2F (h ^ 2) + 0.12775 * Z2F h - 0.463).

(** The spec's cubic in B8, given the values of [b8^3] and [b8^2]. *)
Definition spec_c8_cubic (b8 cube square : float) : float :=
  (1 / 0.72258) * (26.733 * cube - 31.495 * square + 9.5202 * b8 - 0.1358).

(** The spec's linear TPSA formula. *)
Definition spec_c9_linear (tpsa : float) : float :=
  (1 / 0.9598) * (-0.0067 * tpsa + 0.9598).

(** The spec's quartic in pKa, given the values of the three powers. *)
Definition spec_c10_quartic (pka fourth cube square : float) : float :=
  (1 / 0.597488) *
  (0.00045068 * fourth - 0.016331 * cube + 0.18618 * square - 0.71043 * pka + 0.8579).

(** The spec's composite score. *)
Definition spec_composite (c3 c4 c8 c9 c10 : float) : float :=
  c3 + c4 + 1.5 * c8 + 2.0 * c9 + 0.5 * c10.

(** A sub-score is the [int] 0 or 1, or a float. *)
Definition plain (n : num) : Prop :=
  n = NInt 0 \/ n = NInt 1 \/ exists x, n = NFloat x.

Section WithPlatform.
Context {P : Platform}.

(** The C library's power under CPython's range check. *)
Definition checked_pow (x y : float) : result num :=
  if is_infinity (libm_pow x y)
  then raise OverflowError "(34, 'Numerical result out of range')"
  else Ok (NFloat (libm_pow x y)).

End WithPlatform.

End Formulas.

Export Formulas.

(** ** Rows and batches used below *)

Module Tables.

Local Open Scope string_scope.
Local Open Scope list_scope.

(** The row with values [vs] under the distinct names [ks]. *)
Definition row_with (ks : list string) (vs : list value) : dict :=
  combine (map Some ks) vs.

(** The values of a record under a header at least as long: the fields,
    then [None] for each name left over. *)
Definition values (fieldnames : list string) (r : record) : list value :=
  map VStr r ++ repeat VNone (List.length fieldnames - List.length r).

Section WithPlatform.
Context {P : Platform}.

(** What the loop keeps of a record, and what the writer makes of it. *)
Definition kept (fieldnames : list string) (r : record) : list dict :=
  match score_row (DictReader_row fieldnames r) with
  | Ok score =>
      [dict_set (DictReader_row fieldnames r) (Some "bbb_score")
         (VStr (format_6f score))]
  | Raise _ => []
  end.

(** A record as the writer completes it: the fields a short record lacks
    are written empty. *)
Definition pad (fieldnames : list string) (r : record) : record :=
  r ++ repeat "" (List.length fieldnames - List.length r).

Definition scored (fieldnames : list string) (r : record) : list record :=
  match score_row (DictReader_row fieldnames r) with
  | Ok score => [pad fieldnames r ++ [format_6f score]]
  | Raise _ => []
  end.

End WithPlatform.

Definition no_files : string -> file := fun _ => NoSuchFile.

Definition descriptor_header : record :=
  ["aro_r"; "ha"; "mw"; "hba"; "hbd"; "tpsa"; "pka"].

(** A batch of two rows: the first is well formed, the second has a
    molecular weight of 0. *)
Definition zero_weight_batch : file :=
  Csv [descriptor_header;
       ["2"; "20"; "1"; "0"; "0"; "60"; "0"];
       ["2"; "20"; "0"; "0"; "0"; "60"; "0"]] None.

Definition one_input (content : file) : world :=
  mkWorld (fun p => if String.eqb p "acd.csv" then content else NoSuchFile) [].

(** A batch of a good row and a row with a non-numeric weight. *)
Definition mixed_batch : list record :=
  [["2"; "20"; "1"; "0"; "0"; "60"; "0"];
   ["2"; "20"; "n/a"; "0"; "0"; "60"; "0"]].

End Tables.

Export Tables.

(** ** Binary64 constants

    The least exponent of binary64 and the mantissas of the constants of
    the TPSA block: [-0.0067 = -m_slope * 2^-60],
    [0.9598 = m_intercept * 2^-53], [1/0.9598 = m_scale * 2^-52] and
    [120 = m_120 * 2^-46]; and the test [n == 0] on a number. *)

Module Binary64.

Definition emin64 : Z := -1074.
Definition m_slope : positive := 7724574080865875.
Definition m_intercept : positive := 8645109844700404.
Definition m_scale : positive := 4692227159169094.
Definition m_120 : positive := 8444249301319680.

(** Python's [n == 0]. *)
Definition num_is_zero (n : num) : bool :=
  match n with
  | NInt z => Z.eqb z 0
  | NFloat x => PrimFloat.eqb x 0
  | NComplex => false
  end.

End Binary64.

Export Binary64.

(** ** The script entry point *)

Module Main.

Local Open Scope string_scope.

(** ["=" * 50] and the like. *)
Fixpoint str_times (s : string) (n : nat) : string :=
  match n with
  | O => ""
  | S k => s ++ str_times s k
  end.

(** The two path literals of the [__main__] block; ["\\"] in the source is
    one backslash. *)
Definition input_csv : string := "\folder_names\acd.csv".
Definition output_csv : string := "\folder_names\acd_with_kremblin_bbb_scores.csv".

(** The body of [if __name__ == "__main__":]. *)
Definition main {P : Platform} (w : world) : result unit * world :=
  match print w "BBB Score Calculator - CSV Processor" with
  | (Raise e, w1) => (Raise e, w1)
  | (Ok _, w1) =>
      match print w1 (str_times "=" 50) with
      | (Raise e, w2) => (Raise e, w2)
      | (Ok _, w2) => process_csv input_csv output_csv w2
      end
  end.

(** A record the [DictReader] yields (a blank one is passed over). *)
Definition nonblank (r : record) : bool :=
  match r with
  | [] => false
  | _ => true
  end.

(** The seven columns the loop reads, in the order it reads them. *)
Definition descriptor_columns : list string :=
  ["aro_r"; "ha"; "mw"; "hba"; "hbd"; "tpsa"; "pka"]%list.

(** The classes of the exceptions the inner [except] catches. *)
Definition row_handler : list exn_class := [ValueError; KeyError]%list.

(** A key of a row that is one of the names [fieldnames]. *)
Definition header_key (fieldnames : list string) (k : key) : Prop :=
  exists n, k = Some n /\ In n fieldnames.

End Main.

Export Main.

(** * Properties *)

(** ** Facts about binary64 comparisons *)

Module FloatFacts.

Local Open Scope float_scope.

Lemma mul_comm (x y : float) : x * y = y * x.
Proof.
  apply Prim2SF_inj. rewrite !mul_spec.
  destruct (Prim2SF x) as [sx|sx| |sx mx ex], (Prim2SF y) as [sy|sy| |sy my ey];
    cbn; rewrite ?(xorb_comm sx sy); try reflexivity.
  unfold SF64mul, SFmul. now rewrite (Pos.mul_comm mx my), (Z.add_comm ex ey).
Qed.

Lemma is_nan_spec (x : float) :
  is_nan x = match Prim2SF x with S754_nan => true | _ => false end.
Proof.
  unfold is_nan. rewrite eqb_spec.
  destruct (Prim2SF x) as [s|s| |s m e]; try destruct s; cbn; try reflexivity;
    unfold SFeqb; cbn; rewrite Z.compare_refl, Pos.compare_cont_refl; reflexivity.
Qed.

Lemma is_infinity_spec (x : float) :
  is_infinity x = match Prim2SF x with S754_infinity _ => true | _ => false end.
Proof.
  unfold is_infinity. rewrite eqb_spec, abs_spec.
  destruct (Prim2SF x) as [s|s| |s m e]; reflexivity.
Qed.

Lemma eqb_0_spec (x : float) :
  (x =? 0) = match Prim2SF x with S754_zero _ => true | _ => false end.
Proof.
  rewrite eqb_spec. destruct (Prim2SF x) as [s|s| |s m e]; try destruct s; reflexivity.
Qed.

Lemma ltb_0_spec (x : float) :
  (x <? 0) = match Prim2SF x with
             | S754_infinity true | S754_finite true _ _ => true
             | _ => false
             end.
Proof.
  rewrite ltb_spec. destruct (Prim2SF x) as [s|s| |s m e]; try destruct s; reflexivity.
Qed.

Lemma leb_0_spec (x : float) :
  (x <=? 0) = match Prim2SF x with
              | S754_zero _ | S754_infinity true | S754_finite true _ _ => true
              | _ => false
              end.
Proof.
  rewrite leb_spec. destruct (Prim2SF x) as [s|s| |s m e]; try destruct s; reflexivity.
Qed.

Lemma gtb_0_spec (x : float) :
  (0 <? x) = match Prim2SF x with
             | S754_infinity false | S754_finite false _ _ => true
             | _ => false
             end.
Proof.
  rewrite ltb_spec. destruct (Prim2SF x) as [s|s| |s m e]; try destruct s; reflexivity.
Qed.

Lemma SFcompare_antisym (x y : spec_float) :
  SFcompare y x = option_map CompOpp (SFcompare x y).
Proof.
  destruct x as [s|s| |s m e], y as [s'|s'| |s' m' e'];
    try destruct s; try destruct s'; try reflexivity; cbn;
    rewrite (Z.compare_antisym e e'); destruct (e ?= e')%Z; cbn; try reflexivity;
    change (PosDef.Pos.compare_cont Eq m' m) with (Pos.compare_cont (CompOpp Eq) m' m);
    rewrite <- (Pos.compare_cont_antisym m m' Eq);
    destruct (Pos.compare_cont Eq m m'); reflexivity.
Qed.

Lemma ltb_leb_false (x y : float) : (x <? y) = true -> (y <=? x) = false.
Proof.
  rewrite ltb_spec, leb_spec. unfold SFltb, SFleb.
  rewrite (SFcompare_antisym (Prim2SF x) (Prim2SF y)).
  destruct (SFcompare (Prim2SF x) (Prim2SF y)) as [[ | | ]|]; cbn; congruence.
Qed.

Lemma leb_ltb_false (x y : float) : (x <=? y) = true -> (y <? x) = false.
Proof.
  rewrite ltb_spec, leb_spec. unfold SFltb, SFleb.
  rewrite (SFcompare_antisym (Prim2SF x) (Prim2SF y)).
  destruct (SFcompare (Prim2SF x) (Prim2SF y)) as [[ | | ]|]; cbn; congruence.
Qed.

Lemma SFltb_finite_exp (m1 m2 : positive) (e1 e2 : Z) :
  SFltb (S754_finite false m1 e1) (S754_finite false m2 e2) = true -> (e1 <= e2)%Z.
Proof.
  unfold SFltb, SFcompare.
  destruct (Z.compare_spec e1 e2); intros Hc; try lia; discriminate Hc.
Qed.

Lemma SFleb_finite_exp (m1 m2 : positive) (e1 e2 : Z) :
  SFleb (S754_finite false m1 e1) (S754_finite false m2 e2) = true -> (e1 <= e2)%Z.
Proof.
  unfold SFleb, SFcompare.
  destruct (Z.compare_spec e1 e2); intros Hc; try lia; discriminate Hc.
Qed.

Lemma SFeqb_finite_exp (m1 m2 : positive) (e1 e2 : Z) :
  SFeqb (S754_finite false m1 e1) (S754_finite false m2 e2) = true -> e1 = e2.
Proof.
  unfold SFeqb, SFcompare.
  destruct (Z.compare_spec e1 e2); intros Hc; try lia; discriminate Hc.
Qed.

(** A float above a positive finite float and at most another one, whose
    exponents leave out that of 1.0, is positive, finite and not 1.0. *)
Lemma ordinary_between (lo hi x : float) (mlo mhi : positive) (elo ehi : Z) :
  Prim2SF lo = S754_finite false mlo elo ->
  Prim2SF hi = S754_finite false mhi ehi ->
  (ehi < -52 \/ -52 < elo)%Z ->
  (lo <? x) = true -> (x <=? hi) = true ->
  is_nan x = false /\ is_infinity x = false /\ (x =? 0) = false /\
  (x <? 0) = false /\ (x =? 1) = false.
Proof.
  intros Hlo Hhi Hexp.
  rewrite ltb_spec, leb_spec, is_nan_spec, is_infinity_spec, eqb_0_spec, ltb_0_spec,
    eqb_spec, Hlo, Hhi.
  replace (Prim2SF 1) with (S754_finite false 4503599627370496 (-52))
    by (vm_compute; reflexivity).
  destruct (Prim2SF x) as [s|s| |s m e]; try destruct s;
    intros Hl Hh; try discriminate Hl; try discriminate Hh.
  repeat split.
  apply SFltb_finite_exp in Hl. apply SFleb_finite_exp in Hh.
  destruct (SFeqb (S754_finite false m e) (S754_finite false 4503599627370496 (-52)))
    eqn:E; [|reflexivity].
  apply SFeqb_finite_exp in E. lia.
Qed.

End FloatFacts.

(** ** Rounding to binary64

    What the TPSA formula needs of [SpecFloat]'s rounding: a product or sum
    that is large enough never rounds to zero, and a rounded product stays
    below a bound its exact value clears by a margin. *)

Module Rounding.

Local Open Scope Z_scope.

Lemma digits2_pos_bounds (p : positive) :
  2 ^ (Zpos (digits2_pos p) - 1) <= Zpos p < 2 ^ Zpos (digits2_pos p).
Proof.
  induction p as [p IH|p IH|]; cbn [digits2_pos].
  - rewrite Pos2Z.inj_succ. replace (Z.succ (Zpos (digits2_pos p)) - 1) with (Z.succ (Zpos (digits2_pos p) - 1)) by lia.
    rewrite !Z.pow_succ_r by lia. lia.
  - rewrite Pos2Z.inj_succ. replace (Z.succ (Zpos (digits2_pos p)) - 1) with (Z.succ (Zpos (digits2_pos p) - 1)) by lia.
    rewrite !Z.pow_succ_r by lia. lia.
  - cbn. lia.
Qed.

Lemma shr_1_m (mrs : shr_record) :
  0 <= shr_m mrs -> shr_m (shr_1 mrs) = shr_m mrs / 2.
Proof.
  destruct mrs as [m r s]. cbn [shr_m]. intros Hm.
  destruct m as [|[p|p|]|p]; cbn [shr_1 shr_m]; try lia.
  - reflexivity.
  - rewrite Pos2Z.inj_xI. apply Z.div_unique with 1; lia.
  - rewrite Pos2Z.inj_xO. apply Z.div_unique with 0; lia.
  - reflexivity.
Qed.

Lemma iter_shr_m (n : positive) :
  forall mrs, 0 <= shr_m mrs ->
  shr_m (iter_pos shr_1 n mrs) = shr_m mrs / 2 ^ Zpos n.
Proof.
  induction n as [n IH|n IH|]; intros mrs Hm; cbn [iter_pos].
  - assert (H1 : 0 <= shr_m (shr_1 mrs)) by (rewrite shr_1_m by lia; apply Z.div_pos; lia).
    assert (H2 : 0 <= shr_m (iter_pos shr_1 n (shr_1 mrs)))
      by (rewrite IH by lia; apply Z.div_pos; [lia | apply Z.pow_pos_nonneg; lia]).
    rewrite IH, IH, shr_1_m by lia.
    rewrite !Z.div_div by (try apply Z.pow_pos_nonneg; lia).
    replace (Z.pos n~1) with (1 + Zpos n + Zpos n) by lia.
    rewrite !Z.pow_add_r by lia. f_equal. change (2 ^ 1) with 2. lia.
  - assert (H2 : 0 <= shr_m (iter_pos shr_1 n mrs))
      by (rewrite IH by lia; apply Z.div_pos; [lia | apply Z.pow_pos_nonneg; lia]).
    rewrite IH, IH by lia.
    rewrite !Z.div_div by (try apply Z.pow_pos_nonneg; lia).
    replace (Z.pos n~0) with (Zpos n + Zpos n) by lia.
    rewrite !Z.pow_add_r by lia. reflexivity.
  - rewrite shr_1_m by lia. reflexivity.
Qed.

Lemma shr_record_of_loc_m (m : Z) (l : location) : shr_m (shr_record_of_loc m l) = m.
Proof. destruct l as [|[ | | ]]; reflexivity. Qed.

Lemma shr_fexp_spec (m e : Z) (l : location) :
  0 <= m ->
  let n := Z.max 0 (fexp prec emax (Zdigits2 m + e) - e) in
  shr_m (fst (shr_fexp prec emax m e l)) = m / 2 ^ n /\
  snd (shr_fexp prec emax m e l) = e + n.
Proof.
  intros Hm n. unfold shr_fexp, shr. subst n.
  destruct (fexp prec emax (Zdigits2 m + e) - e) as [|p|p]; cbn [fst snd].
  - rewrite shr_record_of_loc_m. cbn. rewrite Z.div_1_r. lia.
  - rewrite iter_shr_m by (rewrite shr_record_of_loc_m; lia).
    rewrite shr_record_of_loc_m. replace (Z.max 0 (Zpos p)) with (Zpos p) by lia. lia.
  - rewrite shr_record_of_loc_m. cbn. rewrite Z.div_1_r. lia.
Qed.

Lemma round_nearest_even_bounds (m : Z) (l : location) :
  m <= round_nearest_even m l <= m + 1.
Proof.
  unfold round_nearest_even. destruct l as [|[ | | ]]; try lia.
  destruct (Z.even m); lia.
Qed.

Lemma shifted_positive (q : positive) (n : Z) :
  0 <= n < Zpos (digits2_pos q) -> 0 < Zpos q / 2 ^ n.
Proof.
  intros Hn. apply Z.div_str_pos. split; [apply Z.pow_pos_nonneg; lia|].
  pose proof (digits2_pos_bounds q) as [Hlo _].
  apply Z.le_trans with (2 ^ (Zpos (digits2_pos q) - 1)); [|exact Hlo].
  apply Z.pow_le_mono_r; lia.
Qed.

Lemma fexp_unfold (x : Z) : fexp prec emax x = Z.max (x - 53) emin64.
Proof. reflexivity. Qed.

Lemma binary_round_aux_nonzero (s s' : bool) (p : positive) (e : Z) :
  emin64 - e < Zpos (digits2_pos p) ->
  binary_round_aux prec emax s (Zpos p) e loc_Exact <> S754_zero s'.
Proof.
  intros He. unfold binary_round_aux.
  pose proof (shr_fexp_spec (Zpos p) e loc_Exact ltac:(lia)) as [Hm1 He1].
  destruct (shr_fexp prec emax (Zpos p) e loc_Exact) as [mrs1 e1].
  cbn [fst snd] in Hm1, He1. cbn [Zdigits2] in Hm1, He1.
  rewrite fexp_unfold in Hm1, He1.
  set (n1 := Z.max 0 (Z.max (Zpos (digits2_pos p) + e - 53) emin64 - e)) in *.
  assert (Hn1 : 0 <= n1 < Zpos (digits2_pos p)) by (unfold emin64 in *; lia).
  pose proof (shifted_positive p n1 Hn1) as Hpos1.
  pose proof (round_nearest_even_bounds (shr_m mrs1) (loc_of_shr_record mrs1)) as Hr.
  destruct (round_nearest_even (shr_m mrs1) (loc_of_shr_record mrs1)) as [|q|q] eqn:Eq;
    try lia.
  pose proof (shr_fexp_spec (Zpos q) e1 loc_Exact ltac:(lia)) as [Hm2 He2].
  destruct (shr_fexp prec emax (Zpos q) e1 loc_Exact) as [mrs2 e2].
  cbn [fst snd Zdigits2] in Hm2, He2. rewrite fexp_unfold in Hm2, He2.
  set (n2 := Z.max 0 (Z.max (Zpos (digits2_pos q) + e1 - 53) emin64 - e1)) in *.
  assert (Hn2 : 0 <= n2 < Zpos (digits2_pos q)) by (unfold emin64 in *; lia).
  pose proof (shifted_positive q n2 Hn2) as Hpos2.
  rewrite Hm2. destruct (Zpos q / 2 ^ n2) as [|r|r]; try lia.
  destruct (e2 <=? emax - prec); discriminate.
Qed.

Lemma iter_xO (m : positive) (d : positive) :
  Zpos (Pos.iter xO m d) = Zpos m * 2 ^ Zpos d.
Proof.
  induction d as [|d IH] using Pos.peano_ind.
  - cbn. lia.
  - rewrite Pos.iter_succ, Pos2Z.inj_xO, IH, Pos2Z.inj_succ, Z.pow_succ_r by lia. lia.
Qed.

Lemma shl_align_spec (m : positive) (e e' : Z) :
  e' <= e ->
  Zpos (fst (shl_align m e e')) = Zpos m * 2 ^ (e - e') /\ snd (shl_align m e e') = e'.
Proof.
  intros Hle. unfold shl_align.
  destruct (e' - e) as [|d|d] eqn:Hd; cbn [fst snd]; try lia.
  - replace (e - e') with 0 by lia. cbn. lia.
  - rewrite iter_xO. replace (e - e') with (Zpos d) by lia. lia.
Qed.

Lemma shl_align_exp_ge (m : positive) (e e' : Z) :
  emin64 <= e -> emin64 <= e' -> emin64 <= snd (shl_align m e e').
Proof.
  intros He He'. unfold shl_align. destruct (e' - e); cbn [snd]; lia.
Qed.

Lemma binary_round_nonzero (s s' : bool) (p : positive) (e : Z) :
  emin64 <= e -> binary_round prec emax s p e <> S754_zero s'.
Proof.
  intros He. unfold binary_round.
  pose proof (shl_align_exp_ge p e (fexp prec emax (Zpos (digits2_pos p) + e)) He) as Hexp.
  destruct (shl_align p e (fexp prec emax (Zpos (digits2_pos p) + e))) as [mz ez].
  cbn [snd] in Hexp.
  apply binary_round_aux_nonzero.
  assert (emin64 <= ez) by (apply Hexp; rewrite fexp_unfold; lia). lia.
Qed.

Lemma SFadd_finite_nonzero (sx sy s' : bool) (mx my : positive) (ex ey : Z) :
  emin64 <= ex -> emin64 <= ey ->
  cond_Zopp sx (Zpos mx * 2 ^ (ex - Z.min ex ey))
  + cond_Zopp sy (Zpos my * 2 ^ (ey - Z.min ex ey)) <> 0 ->
  SFadd prec emax (S754_finite sx mx ex) (S754_finite sy my ey) <> S754_zero s'.
Proof.
  intros Hex Hey Hsum. unfold SFadd.
  destruct (shl_align_spec mx ex (Z.min ex ey) ltac:(lia)) as [-> _].
  destruct (shl_align_spec my ey (Z.min ex ey) ltac:(lia)) as [-> _].
  unfold binary_normalize.
  destruct (cond_Zopp sx (Zpos mx * 2 ^ (ex - Z.min ex ey))
            + cond_Zopp sy (Zpos my * 2 ^ (ey - Z.min ex ey))) as [|q|q];
    [contradiction | apply binary_round_nonzero; lia | apply binary_round_nonzero; lia].
Qed.

(** A valid finite float has at most 53 digits, exactly 53 above the
    least exponent, and an exponent of at least [emin64]. *)
Lemma valid_finite (s : bool) (m : positive) (e : Z) :
  valid_binary (S754_finite s m e) = true ->
  emin64 <= e /\ Zpos m < 2 ^ 53 /\ (emin64 < e -> 2 ^ 52 <= Zpos m).
Proof.
  unfold valid_binary, SpecFloat.valid_binary, bounded, canonical_mantissa.
  intros H. apply andb_true_iff in H as [Hc _]. apply Z.eqb_eq in Hc.
  rewrite fexp_unfold in Hc.
  pose proof (digits2_pos_bounds m) as [Hlo Hhi].
  assert (Hd : Zpos (digits2_pos m) <= 53) by lia.
  split; [lia|]. split.
  - apply Z.lt_le_trans with (2 ^ Zpos (digits2_pos m)); [exact Hhi|].
    apply Z.pow_le_mono_r; lia.
  - intros Hne. assert (Zpos (digits2_pos m) = 53) as Hd53 by lia.
    rewrite Hd53 in Hlo. exact Hlo.
Qed.

Lemma product_rounds_below (m mz : positive) (e ez : Z) (sz : bool) :
  emin64 <= e -> Zpos m < 2 ^ 53 ->
  (e < -46 \/ (e = -46 /\ Zpos m <= Zpos m_120)) ->
  binary_round_aux prec emax true (Zpos (m_slope * m)) (-60 + e) loc_Exact
  = S754_finite sz mz ez ->
  (emin64 < ez -> 2 ^ 52 <= Zpos mz) ->
  ez < -53 \/ (ez = -53 /\ Zpos mz < Zpos m_intercept).
Proof.
  intros He Hm Hle Hround Hcanon.
  unfold binary_round_aux in Hround.
  pose proof (shr_fexp_spec (Zpos (m_slope * m)) (-60 + e) loc_Exact ltac:(lia)) as [Hm1 He1].
  destruct (shr_fexp prec emax (Zpos (m_slope * m)) (-60 + e) loc_Exact) as [mrs1 e1].
  cbn [fst snd Zdigits2] in Hm1, He1. rewrite fexp_unfold in Hm1, He1.
  set (d := Zpos (digits2_pos (m_slope * m))) in *.
  set (n1 := Z.max 0 (Z.max (d + (-60 + e) - 53) emin64 - (-60 + e))) in *.
  pose proof (round_nearest_even_bounds (shr_m mrs1) (loc_of_shr_record mrs1)) as Hr.
  destruct (round_nearest_even (shr_m mrs1) (loc_of_shr_record mrs1)) as [|q|q] eqn:Eq.
  - (* the rounded mantissa is 0: the result is a zero *)
    pose proof (shr_fexp_spec 0 e1 loc_Exact ltac:(lia)) as [Hm2 _].
    destruct (shr_fexp prec emax 0 e1 loc_Exact) as [mrs2 e2].
    cbn [fst] in Hm2. rewrite Z.div_0_l in Hm2 by (apply Z.pow_nonzero; lia).
    rewrite Hm2 in Hround. discriminate Hround.
  - pose proof (shr_fexp_spec (Zpos q) e1 loc_Exact ltac:(lia)) as [Hm2 He2].
    destruct (shr_fexp prec emax (Zpos q) e1 loc_Exact) as [mrs2 e2].
    cbn [fst snd Zdigits2] in Hm2, He2. rewrite fexp_unfold in Hm2, He2.
    set (n2 := Z.max 0 (Z.max (Zpos (digits2_pos q) + e1 - 53) emin64 - e1)) in *.
    rewrite Hm2 in Hround.
    destruct (Zpos q / 2 ^ n2) as [|r|r] eqn:Er; try discriminate Hround.
    destruct (e2 <=? emax - prec); try discriminate Hround.
    injection Hround as _ Hr' He'. subst mz ez. rewrite He2 in *. clear He2.
    (* the exponents *)
    set (k := -46 - e).
    assert (Hk : 0 <= k) by lia.
    assert (HP : Zpos (m_slope * m) = Zpos m_slope * Zpos m) by apply Pos2Z.inj_mul.
    pose proof (digits2_pos_bounds (m_slope * m)) as [Hdlo _]. fold d in Hdlo.
    assert (Hma : Zpos m_slope < 2 ^ 53) by (vm_compute; reflexivity).
    assert (HPlt : Zpos (m_slope * m) < 2 ^ (106 + k)).
    { rewrite HP. apply Z.lt_le_trans with (2 ^ 53 * 2 ^ 53).
      - apply Z.mul_lt_mono_nonneg; lia.
      - rewrite <- Z.pow_add_r by lia. apply Z.pow_le_mono_r; lia. }
    assert (Hd : d <= 106 + k).
    { assert (d - 1 < 106 + k); [|lia].
      apply (Z.pow_lt_mono_r_iff 2); lia. }
    assert (Hn1 : 0 <= n1 <= 53 + k) by (unfold n1, emin64, k in *; lia).
    assert (Hn2 : 0 <= n2) by (unfold n2; lia).
    (* the mantissas *)
    assert (Hpow1 : 0 < 2 ^ n1) by (apply Z.pow_pos_nonneg; lia).
    assert (Hpow2 : 0 < 2 ^ n2) by (apply Z.pow_pos_nonneg; lia).
    assert (Hq : 2 ^ n2 * Zpos r <= Zpos q)
      by (rewrite <- Er; apply Z.mul_div_le; lia).
    assert (Hs : 2 ^ n1 * shr_m mrs1 <= Zpos (m_slope * m))
      by (rewrite Hm1; apply Z.mul_div_le; lia).
    assert (Hval : Zpos r * 2 ^ (n1 + n2) <= Zpos (m_slope * m) + 2 ^ n1).
    { rewrite Z.pow_add_r by lia.
      apply Z.le_trans with (2 ^ n1 * Zpos q).
      - replace (Zpos r * (2 ^ n1 * 2 ^ n2)) with (2 ^ n1 * (2 ^ n2 * Zpos r)) by ring.
        apply Z.mul_le_mono_nonneg_l; lia.
      - apply Z.le_trans with (2 ^ n1 * (shr_m mrs1 + 1)).
        + apply Z.mul_le_mono_nonneg_l; lia.
        + lia. }
    assert (HT : 0 < 2 ^ k) by (apply Z.pow_pos_nonneg; lia).
    assert (HPk : Zpos (m_slope * m) <= Zpos m_slope * Zpos m_120 * 2 ^ k).
    { rewrite HP, <- Z.mul_assoc. apply Z.mul_le_mono_nonneg_l; [lia|].
      destruct Hle as [Hlt | [Heq Hm120]].
      - assert (1 <= k) by lia.
        apply Z.le_trans with (Zpos m_120 * 2 ^ 1).
        + change (2 ^ 1) with 2. unfold m_120. change (2 ^ 53) with 9007199254740992 in Hm. lia.
        + apply Z.mul_le_mono_nonneg_l; [lia|]. apply Z.pow_le_mono_r; lia.
      - replace k with 0 by (unfold k; lia). change (2 ^ 0) with 1. lia. }
    assert (Hn1k : 2 ^ n1 <= 2 ^ 53 * 2 ^ k).
    { rewrite <- Z.pow_add_r by lia. apply Z.pow_le_mono_r; lia. }
    assert (Hbound : Zpos r * 2 ^ (n1 + n2) <= (Zpos m_slope * Zpos m_120 + 2 ^ 53) * 2 ^ k) by lia.
    assert (Hsum : n1 + n2 = e1 + n2 + 106 + k) by (unfold k; lia).
    destruct (Z_lt_le_dec (e1 + n2) (-53)) as [Hlow|Hhigh]; [left; exact Hlow|].
    right.
    assert (Hsplit : 2 ^ (n1 + n2) = 2 ^ (e1 + n2 + 53) * 2 ^ 53 * 2 ^ k).
    { rewrite Hsum, <- !Z.pow_add_r by lia. f_equal. lia. }
    rewrite Hsplit in Hbound.
    assert (Hcancel : Zpos r * (2 ^ (e1 + n2 + 53) * 2 ^ 53) <= Zpos m_slope * Zpos m_120 + 2 ^ 53).
    { apply (Z.mul_le_mono_pos_r _ _ (2 ^ k) HT). lia. }
    destruct (Z.eq_dec (e1 + n2) (-53)) as [Heq|Hne].
    + split; [exact Heq|].
      rewrite Heq in Hcancel. change (2 ^ (-53 + 53)) with 1 in Hcancel.
      change (2 ^ 53) with 9007199254740992 in Hcancel. unfold m_slope, m_120, m_intercept in *. lia.
    + exfalso.
      assert (H52 : 2 ^ 52 <= Zpos r) by (apply Hcanon; unfold emin64; lia).
      assert (H2 : 2 ^ 1 <= 2 ^ (e1 + n2 + 53)) by (apply Z.pow_le_mono_r; lia).
      change (2 ^ 1) with 2 in H2. change (2 ^ 52) with 4503599627370496 in H52.
      change (2 ^ 53) with 9007199254740992 in Hcancel.
      assert (4503599627370496 * (2 * 9007199254740992)
              <= Zpos r * (2 ^ (e1 + n2 + 53) * 9007199254740992)).
      { apply Z.mul_le_mono_nonneg; try lia;
          apply Z.mul_le_mono_nonneg; lia. }
      unfold m_slope, m_120 in Hcancel. lia.
  - assert (0 <= shr_m mrs1); [|lia].
    rewrite Hm1. apply Z.div_pos; [lia|]. apply Z.pow_pos_nonneg; unfold n1; lia.
Qed.

Lemma binary_round_aux_sign (sx sz : bool) (mx : Z) (ex : Z) (mz : positive) (ez : Z) :
  binary_round_aux prec emax sx mx ex loc_Exact = S754_finite sz mz ez -> sz = sx.
Proof.
  unfold binary_round_aux.
  destruct (shr_fexp prec emax mx ex loc_Exact) as [mrs1 e1].
  destruct (shr_fexp prec emax _ e1 loc_Exact) as [mrs2 e2].
  destruct (shr_m mrs2); try discriminate.
  destruct (e2 <=? emax - prec); [|discriminate]. now intros [= <- _ _].
Qed.

Lemma at_most_120 (m : positive) (e : Z) :
  SFltb (S754_finite false m_120 (-46)) (S754_finite false m e) = false ->
  e < -46 \/ (e = -46 /\ Zpos m <= Zpos m_120).
Proof.
  unfold SFltb, SFcompare.
  destruct (Z.compare_spec (-46) e) as [<-|Hlt|Hgt]; intros H; try discriminate H.
  - right. split; [reflexivity|].
    change (Pos.compare_cont Eq m_120 m) with (Pos.compare m_120 m) in H.
    destruct (Pos.compare m_120 m) eqn:E; [| discriminate H |].
    + apply Pos.compare_eq in E. rewrite <- E. apply Z.le_refl.
    + apply Pos.compare_gt_iff in E. apply Pos2Z.pos_le_pos, Pos.lt_le_incl, E.
  - left. lia.
Qed.

Lemma scaled_nonzero (y : spec_float) :
  valid_binary y = true -> (forall s', y <> S754_zero s') ->
  match SFmul prec emax (S754_finite false m_scale (-52)) y with
  | S754_zero _ => true
  | _ => false
  end = false.
Proof.
  intros Vy Hy. destruct y as [sy|sy| |sy my ey]; try reflexivity.
  - exfalso. exact (Hy sy eq_refl).
  - destruct (valid_finite sy my ey Vy) as (Hey & _ & _).
    cbn [SFmul].
    destruct (binary_round_aux prec emax (xorb false sy) (Zpos (m_scale * my)) (-52 + ey) loc_Exact)
      as [sr|sr| |sr mr er] eqn:Er; try reflexivity.
    exfalso. revert Er. apply binary_round_aux_nonzero.
    pose proof (digits2_pos_bounds (m_scale * my)) as [_ Hhi].
    assert (2 ^ 52 <= Zpos (m_scale * my)).
    { rewrite Pos2Z.inj_mul. apply Z.le_trans with (Zpos m_scale * 1); [vm_compute; discriminate|].
      apply Z.mul_le_mono_nonneg_l; lia. }
    assert (52 < Zpos (digits2_pos (m_scale * my))) by (apply (Z.pow_lt_mono_r_iff 2); lia).
    unfold emin64 in *. lia.
Qed.

Lemma shifted_nonzero (z : spec_float) (s' : bool) :
  valid_binary z = true ->
  (forall mz ez, z = S754_finite true mz ez ->
                 ez < -53 \/ (ez = -53 /\ Zpos mz < Zpos m_intercept)) ->
  SFadd prec emax z (S754_finite false m_intercept (-53)) <> S754_zero s'.
Proof.
  intros Vz Hz.
  destruct z as [sz|sz| |sz mz ez]; try discriminate; try (destruct sz; discriminate).
  - destruct (valid_finite sz mz ez Vz) as (Hez & Hmz & _).
    apply SFadd_finite_nonzero; [exact Hez | unfold emin64; lia |].
    assert (Hp1 : 0 < 2 ^ (ez - Z.min ez (-53))) by (apply Z.pow_pos_nonneg; lia).
    assert (Hp2 : 0 < 2 ^ (-53 - Z.min ez (-53))) by (apply Z.pow_pos_nonneg; lia).
    destruct sz; cbn [cond_Zopp].
    + destruct (Hz mz ez eq_refl) as [Hlt | [-> Hlt]].
      * replace (Z.min ez (-53)) with ez by lia.
        replace (ez - ez) with 0 by lia. change (2 ^ 0) with 1.
        assert (2 ^ 1 <= 2 ^ (-53 - ez)) by (apply Z.pow_le_mono_r; lia).
        change (2 ^ 1) with 2 in *. change (2 ^ 53) with 9007199254740992 in Hmz.
        assert (Zpos m_intercept * 2 <= Zpos m_intercept * 2 ^ (-53 - ez))
          by (apply Z.mul_le_mono_nonneg_l; lia).
        unfold m_intercept in *. lia.
      * change (Z.min (-53) (-53)) with (-53). change (2 ^ (-53 - -53)) with 1. lia.
    + assert (0 < Zpos mz * 2 ^ (ez - Z.min ez (-53))) by (apply Z.mul_pos_pos; lia).
      assert (0 < Zpos m_intercept * 2 ^ (-53 - Z.min ez (-53))) by (apply Z.mul_pos_pos; lia).
      lia.
Qed.

(** *** Integers that convert to a float *)

Lemma digits_le (p : positive) (k : Z) :
  0 <= k -> Zpos p <= 2 ^ k -> Zpos (digits2_pos p) <= k + 1.
Proof.
  intros Hk Hp. pose proof (digits2_pos_bounds p) as [Hlo _].
  destruct (Z_le_gt_dec (Zpos (digits2_pos p)) (k + 1)) as [H|H]; [exact H|].
  exfalso.
  assert (2 ^ (k + 1) <= 2 ^ (Zpos (digits2_pos p) - 1)) by (apply Z.pow_le_mono_r; lia).
  assert (2 ^ k < 2 ^ (k + 1)) by (apply Z.pow_lt_mono_r; lia).
  lia.
Qed.

Lemma digits_lt (p : positive) (k : Z) :
  0 <= k -> Zpos p < 2 ^ k -> Zpos (digits2_pos p) <= k.
Proof.
  intros Hk Hp. pose proof (digits2_pos_bounds p) as [Hlo _].
  destruct (Z_le_gt_dec (Zpos (digits2_pos p)) k) as [H|H]; [exact H|].
  exfalso.
  assert (2 ^ k <= 2 ^ (Zpos (digits2_pos p) - 1)) by (apply Z.pow_le_mono_r; lia).
  lia.
Qed.

Lemma quotient_below (p : positive) (n : Z) :
  0 <= n -> Zpos p / 2 ^ n + 1 <= 2 ^ Z.max (Zpos (digits2_pos p) - n) 0.
Proof.
  intros Hn. pose proof (digits2_pos_bounds p) as [_ Hhi].
  set (d := Zpos (digits2_pos p)) in *.
  assert (H2n : 0 < 2 ^ n) by (apply Z.pow_pos_nonneg; lia).
  destruct (Z_le_gt_dec n d) as [Hle|Hgt].
  - replace (Z.max (d - n) 0) with (d - n) by lia.
    assert (Zpos p / 2 ^ n < 2 ^ (d - n)); [|lia].
    apply Z.div_lt_upper_bound; [exact H2n|].
    rewrite <- Z.pow_add_r by lia. now replace (n + (d - n)) with d by lia.
  - replace (Z.max (d - n) 0) with 0 by lia.
    assert (Zpos p / 2 ^ n = 0); [|change (2 ^ 0) with 1; lia].
    apply Z.div_small. split; [lia|].
    apply Z.lt_le_trans with (2 ^ d); [exact Hhi|]. apply Z.pow_le_mono_r; lia.
Qed.

Lemma binary_round_aux_finite (s s' : bool) (p : positive) (e : Z) :
  e <= 971 -> Zpos (digits2_pos p) + e <= 1023 ->
  binary_round_aux prec emax s (Zpos p) e loc_Exact <> S754_infinity s'.
Proof.
  intros He Hd. unfold binary_round_aux.
  pose proof (shr_fexp_spec (Zpos p) e loc_Exact ltac:(lia)) as [Hm1 He1].
  destruct (shr_fexp prec emax (Zpos p) e loc_Exact) as [mrs1 e1].
  cbn [fst snd] in Hm1, He1. cbn [Zdigits2] in Hm1, He1.
  rewrite fexp_unfold in Hm1, He1.
  set (n1 := Z.max 0 (Z.max (Zpos (digits2_pos p) + e - 53) emin64 - e)) in *.
  assert (Hn1 : 0 <= n1) by lia.
  pose proof (quotient_below p n1 Hn1) as Hq.
  assert (Hq0 : 0 <= Zpos p / 2 ^ n1)
    by (apply Z.div_pos; [lia | apply Z.pow_pos_nonneg; lia]).
  pose proof (round_nearest_even_bounds (shr_m mrs1) (loc_of_shr_record mrs1)) as Hr.
  destruct (round_nearest_even (shr_m mrs1) (loc_of_shr_record mrs1)) as [|q|q] eqn:Eq.
  - pose proof (shr_fexp_spec 0 e1 loc_Exact ltac:(lia)) as [Hm2 _].
    destruct (shr_fexp prec emax 0 e1 loc_Exact) as [mrs2 e2].
    cbn [fst] in Hm2. rewrite Hm2, Z.div_0_l by (apply Z.pow_nonzero; lia).
    discriminate.
  - pose proof (shr_fexp_spec (Zpos q) e1 loc_Exact ltac:(lia)) as [Hm2 He2].
    destruct (shr_fexp prec emax (Zpos q) e1 loc_Exact) as [mrs2 e2].
    cbn [fst snd Zdigits2] in Hm2, He2. rewrite fexp_unfold in Hm2, He2.
    assert (Hdq : Zpos (digits2_pos q) <= Z.max (Zpos (digits2_pos p) - n1) 0 + 1)
      by (apply digits_le; lia).
    assert (He2' : e2 <= 971) by (unfold emin64 in *; lia).
    destruct (shr_m mrs2); try discriminate.
    change (emax - prec) with 971.
    rewrite (proj2 (Z.leb_le e2 971) He2'). discriminate.
  - lia.
Qed.

Lemma binary_round_finite (s s' : bool) (p : positive) :
  Zpos p < 2 ^ 1023 -> binary_round prec emax s p 0 <> S754_infinity s'.
Proof.
  intros Hp. unfold binary_round.
  pose proof (digits_lt p 1023 ltac:(lia) Hp) as Hd.
  rewrite fexp_unfold, Z.add_0_r.
  set (d := Zpos (digits2_pos p)) in *.
  destruct (Z_le_gt_dec (Z.max (d - 53) emin64) 0) as [Hle|Hgt].
  - destruct (shl_align_spec p 0 (Z.max (d - 53) emin64) Hle) as [Hm He].
    destruct (shl_align p 0 (Z.max (d - 53) emin64)) as [mz ez].
    cbn [fst snd] in Hm, He. subst ez.
    destruct mz as [mz|mz|]; try (apply binary_round_aux_finite; [lia|]).
    + apply Z.le_trans with (d - Z.max (d - 53) emin64 + Z.max (d - 53) emin64); [|lia].
      apply Z.add_le_mono_r. apply digits_lt; [unfold emin64; lia|].
      rewrite Hm.
      replace (d - Z.max (d - 53) emin64) with (d + (0 - Z.max (d - 53) emin64)) by lia.
      rewrite Z.pow_add_r by (unfold emin64; lia).
      apply Z.mul_lt_mono_pos_r; [apply Z.pow_pos_nonneg; unfold emin64; lia|].
      apply (digits2_pos_bounds p).
    + apply Z.le_trans with (d - Z.max (d - 53) emin64 + Z.max (d - 53) emin64); [|lia].
      apply Z.add_le_mono_r. apply digits_lt; [unfold emin64; lia|].
      rewrite Hm.
      replace (d - Z.max (d - 53) emin64) with (d + (0 - Z.max (d - 53) emin64)) by lia.
      rewrite Z.pow_add_r by (unfold emin64; lia).
      apply Z.mul_lt_mono_pos_r; [apply Z.pow_pos_nonneg; unfold emin64; lia|].
      apply (digits2_pos_bounds p).
    + cbn [digits2_pos]. unfold emin64. lia.
  - unfold shl_align.
    destruct (Z.max (d - 53) emin64 - 0) as [|k|k] eqn:Hk; try lia.
    apply binary_round_aux_finite; fold d; lia.
Qed.

(** An [int] below [2^1023] in absolute value converts to a float. *)
Lemma float_of_int_converts (z : Z) :
  Z.abs z < 2 ^ 1023 -> float_of_int z = Ok (Z2F z).
Proof.
  intros Hz. unfold float_of_int, Z2F, binary_normalize.
  destruct z as [|p|p]; [reflexivity| |].
  - pose proof (binary_round_finite false) as H.
    destruct (binary_round prec emax false p 0) as [| s' | |] eqn:E; try reflexivity.
    exfalso. apply (H s' p); [exact Hz | exact E].
  - pose proof (binary_round_finite true) as H.
    destruct (binary_round prec emax true p 0) as [| s' | |] eqn:E; try reflexivity.
    exfalso. apply (H s' p); [exact Hz | exact E].
Qed.

Local Open Scope float_scope.

(** The linear TPSA formula has no zero outside the gate. *)
Lemma c9_linear_nonzero (t : float) :
  (t =? 0) = false -> (120 <? t) = false -> (spec_c9_linear t =? 0) = false.
Proof.
  intros H0 H120. unfold spec_c9_linear.
  pose proof (Prim2SF_valid t) as Vt.
  pose proof (Prim2SF_valid (-0.0067 * t)) as Vz.
  pose proof (Prim2SF_valid (-0.0067 * t + 0.9598)) as Vy.
  rewrite FloatFacts.eqb_0_spec in H0. rewrite ltb_spec in H120.
  rewrite FloatFacts.eqb_0_spec, mul_spec, add_spec, mul_spec.
  rewrite add_spec, mul_spec in Vy. rewrite mul_spec in Vz.
  replace (Prim2SF (-0.0067)) with (S754_finite true m_slope (-60)) in * by (vm_compute; reflexivity).
  replace (Prim2SF 0.9598) with (S754_finite false m_intercept (-53)) in * by (vm_compute; reflexivity).
  replace (Prim2SF (1 / 0.9598)) with (S754_finite false m_scale (-52)) by (vm_compute; reflexivity).
  replace (Prim2SF 120) with (S754_finite false m_120 (-46)) in H120 by (vm_compute; reflexivity).
  unfold SF64mul, SF64add in *.
  apply scaled_nonzero; [exact Vy|].
  intros s'. apply shifted_nonzero; [exact Vz|].
  intros mz ez Ez.
  destruct (Prim2SF t) as [s|s| |s m e]; try discriminate Ez.
  destruct (valid_finite s m e Vt) as (He & Hm & _).
  cbn [SFmul] in Ez, Vz.
  pose proof (binary_round_aux_sign _ _ _ _ _ _ Ez) as Hs.
  destruct s; [discriminate Hs|]. cbn [xorb] in Ez, Vz.
  rewrite Ez in Vz. destruct (valid_finite true mz ez Vz) as (_ & _ & Hcanon).
  exact (product_rounds_below m mz e ez true He Hm (at_most_120 m e H120) Ez Hcanon).
Qed.

End Rounding.

(** ** The scorer *)

Module ScorerFacts.

Local Open Scope float_scope.

Section WithPlatform.
Context {P : Platform}.

Lemma c3_plain (aro_r : Z) : plain (c3_aromatic_rings aro_r).
Proof.
  unfold c3_aromatic_rings, plain.
  repeat match goal with |- context [if ?b then _ else _] => destruct b end;
    eauto.
Qed.

Lemma c3_outside (aro_r : Z) :
  (aro_r < 0 \/ 4 < aro_r)%Z -> c3_aromatic_rings aro_r = NInt 0 /\ spec_c3 aro_r = 0.
Proof.
  intros H. unfold c3_aromatic_rings, spec_c3, spec_c3_table. cbn [find fst snd].
  rewrite !(Z.eqb_sym _ aro_r).
  repeat match goal with
         | |- context [(aro_r =? ?k)%Z] =>
             replace (aro_r =? k)%Z with false by (symmetry; apply Z.eqb_neq; lia)
         end.
  split; reflexivity.
Qed.

(** C5.  The aromatic-ring score is the table 0.336376, 0.816016, 1.0,
    0.691115, 0.199399 for 0 to 4 rings and 0 for every other integer; with
    the other descriptors chosen so that the remaining sub-scores vanish,
    [calculate_bbb_score] returns exactly the table's value. *)
Theorem aromatic_ring_lookup (aro_r : Z) :
  fl (c3_aromatic_rings aro_r) = spec_c3 aro_r /\
  ((aro_r < 0 \/ 4 < aro_r)%Z -> c3_aromatic_rings aro_r = NInt 0) /\
  calculate_bbb_score aro_r 0 1 0 0 0 0 = Ok (NFloat (spec_c3 aro_r)).
Proof.
  assert (aro_r = 0 \/ aro_r = 1 \/ aro_r = 2 \/ aro_r = 3 \/ aro_r = 4 \/
          (aro_r < 0 \/ 4 < aro_r))%Z as Hcases by lia.
  split; [|split].
  - destruct Hcases as [-> | [-> | [-> | [-> | [-> | Hout]]]]];
      [vm_compute; reflexivity ..|].
    destruct (c3_outside aro_r Hout) as [-> ->]. reflexivity.
  - intros Hout. apply (c3_outside aro_r Hout).
  - destruct Hcases as [-> | [-> | [-> | [-> | [-> | Hout]]]]];
      [vm_compute; reflexivity ..|].
    destruct (c3_outside aro_r Hout) as [Hc Hs].
    unfold calculate_bbb_score. rewrite Hc, Hs. vm_compute. reflexivity.
Qed.

Lemma c4_gated (ha : Z) : (ha <= 5 \/ 45 < ha)%Z -> c4_heavy_atoms ha = Ok (NInt 0).
Proof.
  intros H. unfold c4_heavy_atoms.
  replace ((ha <=? 5)%Z || (ha >? 45)%Z) with true; [reflexivity|].
  symmetry. apply orb_true_iff. rewrite Z.leb_le, Z.gtb_lt. lia.
Qed.

Lemma c4_fitted (ha : Z) :
  (5 < ha <= 45)%Z -> c4_heavy_atoms ha = Ok (NFloat (spec_c4_cubic ha)).
Proof.
  intros H.
  assert (exists k : nat, (k < 40)%nat /\ ha = (6 + Z.of_nat k)%Z) as (k & Hk & ->).
  { exists (Z.to_nat (ha - 6)). lia. }
  clear H.
  do 40 (destruct k as [|k]; [vm_compute; reflexivity|]).
  lia.
Qed.

(** C6.  The heavy-atom score is 0 for [heavy_atoms <= 5] and for
    [heavy_atoms > 45]; for [5 < h <= 45] it is the spec's cubic
    [(1/0.624231) * (0.0000443*h^3 - 0.004556*h^2 + 0.12775*h - 0.463)]. *)
Theorem heavy_atom_score (ha : Z) :
  ((ha <= 5 \/ 45 < ha)%Z -> c4_heavy_atoms ha = Ok (NInt 0)) /\
  ((5 < ha <= 45)%Z -> c4_heavy_atoms ha = Ok (NFloat (spec_c4_cubic ha))).
Proof. split; [apply c4_gated | apply c4_fitted]. Qed.

Lemma c4_plain (ha : Z) : exists n, c4_heavy_atoms ha = Ok n /\ plain n.
Proof.
  destruct (Z_le_gt_dec ha 5) as [Hle|Hgt].
  - exists (NInt 0). split; [apply c4_gated; lia | left; reflexivity].
  - destruct (Z_le_gt_dec ha 45) as [Hle|Hgt'].
    + eexists. split; [apply c4_fitted; lia | right; right; eauto].
    + exists (NInt 0). split; [apply c4_gated; lia | left; reflexivity].
Qed.

(** *** Powers *)

Lemma float_pow_neg_half (mw : float) :
  float_pow mw (-0.5) =
  if is_nan mw then Ok (NFloat mw)
  else if is_infinity mw then Ok (NFloat 0)
  else if mw =? 0
  then raise ZeroDivisionError "0.0 cannot be raised to a negative power"
  else if mw <? 0 then complex_pow mw (-0.5)
  else if mw =? 1 then Ok (NFloat 1)
  else if is_infinity (libm_pow mw (-0.5))
       then raise OverflowError "(34, 'Numerical result out of range')"
       else Ok (NFloat (libm_pow mw (-0.5))).
Proof.
  unfold float_pow.
  change (-0.5 =? 0) with false. change (is_nan (-0.5)) with false.
  change (is_infinity (-0.5)) with false. change (0 <? -0.5) with false.
  change (-0.5 <? 0) with true. change (is_odd_integer (-0.5)) with false.
  change (is_integral (-0.5)) with false.
  cbn [negb andb].
  destruct (is_nan mw); [reflexivity|].
  destruct (is_infinity mw); [reflexivity|].
  destruct (mw =? 0); [reflexivity|].
  destruct (mw <? 0); [reflexivity|].
  cbn [andb]. reflexivity.
Qed.

(** An integral exponent keeps a float power real. *)
Lemma float_pow_integral (iv iw : float) :
  is_integral iw = true ->
  (exists x, float_pow iv iw = Ok (NFloat x)) \/ (exists e, float_pow iv iw = Raise e).
Proof.
  intros Hint. unfold float_pow. rewrite Hint. cbn [negb]. rewrite andb_false_r.
  repeat match goal with
         | |- context [if ?b then _ else _] => destruct b
         end; eauto; right; eexists; reflexivity.
Qed.

(** On a positive finite base other than 1.0 and a finite non-zero
    exponent, [float_pow] is the C library's power. *)
Lemma float_pow_ordinary (iv iw : float) :
  is_nan iv = false /\ is_infinity iv = false /\ (iv =? 0) = false /\
  (iv <? 0) = false /\ (iv =? 1) = false ->
  (iw =? 0) = false -> is_nan iw = false -> is_infinity iw = false ->
  float_pow iv iw = checked_pow iv iw.
Proof.
  intros (Hn & Hi & Hz & Hneg & H1) Hw0 Hwn Hwi.
  unfold float_pow, checked_pow. rewrite Hw0, Hn, Hwn, Hwi, Hi, Hz, Hneg.
  cbn [andb]. rewrite H1. reflexivity.
Qed.

Lemma num_pow_float (b : float) (n : Z) (x : float) :
  float_of_int n = Ok x -> num_pow (NFloat b) n = float_pow b x.
Proof. intros H. unfold num_pow. rewrite H. reflexivity. Qed.

Lemma float_of_int_2 : float_of_int 2 = Ok 2.
Proof. vm_compute. reflexivity. Qed.
Lemma float_of_int_3 : float_of_int 3 = Ok 3.
Proof. vm_compute. reflexivity. Qed.
Lemma float_of_int_4 : float_of_int 4 = Ok 4.
Proof. vm_compute. reflexivity. Qed.

Lemma pow2 (b : float) : num_pow (NFloat b) 2 = float_pow b 2.
Proof. apply num_pow_float, float_of_int_2. Qed.
Lemma pow3 (b : float) : num_pow (NFloat b) 3 = float_pow b 3.
Proof. apply num_pow_float, float_of_int_3. Qed.
Lemma pow4 (b : float) : num_pow (NFloat b) 4 = float_pow b 4.
Proof. apply num_pow_float, float_of_int_4. Qed.

(** *** TPSA *)

Lemma c9_gated (tpsa : float) :
  (tpsa =? 0) = true \/ (120 <? tpsa) = true -> c9_tpsa tpsa = Ok (NInt 0).
Proof.
  intros H. unfold c9_tpsa.
  replace ((tpsa =? 0) || (120 <? tpsa)) with true; [reflexivity|].
  symmetry. apply orb_true_iff. exact H.
Qed.

Lemma c9_fitted (tpsa : float) :
  (tpsa =? 0) = false -> (120 <? tpsa) = false ->
  c9_tpsa tpsa = Ok (NFloat (spec_c9_linear tpsa)).
Proof. intros H0 H120. unfold c9_tpsa. rewrite H0, H120. reflexivity. Qed.

Lemma negative_not_gated (tpsa : float) :
  (tpsa <? 0) = true -> (tpsa =? 0) = false /\ (120 <? tpsa) = false.
Proof.
  rewrite FloatFacts.ltb_0_spec, FloatFacts.eqb_0_spec, ltb_spec.
  destruct (Prim2SF tpsa) as [s|s| |s m e]; try destruct s;
    intros H; try discriminate H; split; reflexivity.
Qed.

(** C4.  The TPSA score is 0 exactly when [tpsa == 0] or [tpsa > 120]:
    the gate returns 0 and the linear formula never does.  For every other
    value the score is [(1/0.9598) * (-0.0067*tpsa + 0.9598)].  The zero
    gate is the equality test, so every negative TPSA takes the linear
    formula. *)
Theorem tpsa_score (tpsa : float) :
  (forall n, c9_tpsa tpsa = Ok n ->
     (num_is_zero n = true <-> (tpsa =? 0) = true \/ (120 <? tpsa) = true)) /\
  ((tpsa =? 0) = true \/ (120 <? tpsa) = true -> c9_tpsa tpsa = Ok (NInt 0)) /\
  ((tpsa =? 0) = false -> (120 <? tpsa) = false ->
   c9_tpsa tpsa = Ok (NFloat (spec_c9_linear tpsa))) /\
  ((tpsa <? 0) = true -> c9_tpsa tpsa = Ok (NFloat (spec_c9_linear tpsa))).
Proof.
  split; [|split; [apply c9_gated | split; [apply c9_fitted |]]].
  - intros n Hn.
    destruct (tpsa =? 0) eqn:H0.
    { rewrite c9_gated in Hn by (rewrite H0; auto). injection Hn as <-.
      split; auto. }
    destruct (120 <? tpsa) eqn:H120.
    { rewrite c9_gated in Hn by (rewrite H120; auto). injection Hn as <-.
      split; auto. }
    rewrite (c9_fitted tpsa H0 H120) in Hn. injection Hn as <-.
    cbn [num_is_zero]. rewrite (Rounding.c9_linear_nonzero tpsa H0 H120).
    split; [discriminate | intros [H | H]; discriminate H].
  - intros Hneg. destruct (negative_not_gated tpsa Hneg). now apply c9_fitted.
Qed.

Lemma c9_plain (tpsa : float) : exists n, c9_tpsa tpsa = Ok n /\ plain n.
Proof.
  unfold c9_tpsa. destruct ((tpsa =? 0) || (120 <? tpsa)).
  - exists (NInt 0). split; [reflexivity | left; reflexivity].
  - eexists. split; [reflexivity | right; right; eauto].
Qed.

(** *** pKa *)

Lemma c10_gated (pka : float) :
  (pka <=? 3) = true \/ (11 <? pka) = true -> c10_pka pka = Ok (NInt 0).
Proof.
  intros H. unfold c10_pka.
  replace ((pka <=? 3) || (11 <? pka)) with true; [reflexivity|].
  symmetry. apply orb_true_iff. exact H.
Qed.

Lemma c10_unfold (pka : float) :
  (pka <=? 3) = false -> (11 <? pka) = false ->
  c10_pka pka =
  (p4 <- float_pow pka 4 ;;
   t4 <- num_mul (NFloat 0.00045068) p4 ;;
   p3 <- float_pow pka 3 ;;
   t3 <- num_mul (NFloat 0.016331) p3 ;;
   d1 <- num_sub t4 t3 ;;
   p2 <- float_pow pka 2 ;;
   t2 <- num_mul (NFloat 0.18618) p2 ;;
   d2 <- num_add d1 t2 ;;
   d3 <- num_sub d2 (NFloat (0.71043 * pka)) ;;
   d4 <- num_add d3 (NFloat 0.8579) ;;
   num_mul (NFloat (1 / 0.597488)) d4)%py.
Proof.
  intros H3 H11. unfold c10_pka. rewrite H3, H11. cbn [orb].
  unfold lift2, f. cbn [bind]. rewrite pow4, pow3, pow2.
  destruct (float_pow pka 4) as [p4|]; [cbn [bind]|reflexivity].
  destruct (num_mul (NFloat 0.00045068) p4) as [t4|]; [cbn [bind]|reflexivity].
  destruct (float_pow pka 3) as [p3|]; [cbn [bind]|reflexivity].
  destruct (num_mul (NFloat 0.016331) p3) as [t3|]; [cbn [bind]|reflexivity].
  destruct (num_sub t4 t3) as [d1|]; [cbn [bind]|reflexivity].
  destruct (float_pow pka 2) as [p2|]; [cbn [bind]|reflexivity].
  destruct (num_mul (NFloat 0.18618) p2) as [t2|]; [cbn [bind]|reflexivity].
  destruct (num_add d1 t2) as [d2|]; [cbn [bind]|reflexivity].
  change (num_mul (NFloat 0.71043) (NFloat pka)) with (Ok (NFloat (0.71043 * pka))).
  cbn [bind].
  destruct (num_sub d2 (NFloat (0.71043 * pka))) as [d3|]; [cbn [bind]|reflexivity].
  destruct (num_add d3 (NFloat 0.8579)) as [d4|]; reflexivity.
Qed.

Lemma c10_fitted (pka p4 p3 p2 : float) :
  (pka <=? 3) = false -> (11 <? pka) = false ->
  float_pow pka 4 = Ok (NFloat p4) ->
  float_pow pka 3 = Ok (NFloat p3) ->
  float_pow pka 2 = Ok (NFloat p2) ->
  c10_pka pka = Ok (NFloat (spec_c10_quartic pka p4 p3 p2)).
Proof.
  intros H3 H11 E4 E3 E2. rewrite (c10_unfold pka H3 H11), E4, E3, E2. reflexivity.
Qed.

(** C8.  The pKa score is 0 for [pka <= 3] and for [pka > 11]; for
    [3 < pka <= 11] it is the spec's quartic
    [(1/0.597488) * (0.00045068*pka^4 - 0.016331*pka^3 + 0.18618*pka^2
    - 0.71043*pka + 0.8579)], the powers being Python's [pka**4], [pka**3]
    and [pka**2], which in that range are the C library's. *)
Theorem pka_score (pka : float) :
  ((pka <=? 3) = true \/ (11 <? pka) = true -> c10_pka pka = Ok (NInt 0)) /\
  (forall p4 p3 p2,
     (3 <? pka) = true -> (pka <=? 11) = true ->
     float_pow pka 4 = Ok (NFloat p4) ->
     float_pow pka 3 = Ok (NFloat p3) ->
     float_pow pka 2 = Ok (NFloat p2) ->
     c10_pka pka = Ok (NFloat (spec_c10_quartic pka p4 p3 p2))) /\
  ((3 <? pka) = true -> (pka <=? 11) = true ->
   float_pow pka 4 = checked_pow pka 4 /\
   float_pow pka 3 = checked_pow pka 3 /\
   float_pow pka 2 = checked_pow pka 2).
Proof.
  split; [apply c10_gated|split].
  - intros p4 p3 p2 Hlo Hhi. apply c10_fitted.
    + now apply FloatFacts.ltb_leb_false.
    + now apply FloatFacts.leb_ltb_false.
  - intros Hlo Hhi.
    assert (Hord := FloatFacts.ordinary_between 3 11 pka _ _ _ _
                      eq_refl eq_refl (or_intror eq_refl) Hlo Hhi).
    repeat split; apply float_pow_ordinary; auto.
Qed.

Lemma integral_exponents : is_integral 2 = true /\ is_integral 3 = true /\ is_integral 4 = true.
Proof. repeat split; vm_compute; reflexivity. Qed.

Lemma c10_plain (pka : float) (n : num) : c10_pka pka = Ok n -> plain n.
Proof.
  destruct (pka <=? 3) eqn:H3; [rewrite c10_gated by auto; intros [= <-]; left; reflexivity|].
  destruct (11 <? pka) eqn:H11; [rewrite c10_gated by auto; intros [= <-]; left; reflexivity|].
  rewrite (c10_unfold pka H3 H11).
  destruct integral_exponents as (I2 & I3 & I4).
  destruct (float_pow_integral pka 4 I4) as [[p4 ->]|[e ->]]; [|discriminate].
  destruct (float_pow_integral pka 3 I3) as [[p3 ->]|[e ->]]; [|discriminate].
  destruct (float_pow_integral pka 2 I2) as [[p2 ->]|[e ->]]; [|discriminate].
  intros [= <-]. right; right; eauto.
Qed.

(** *** MWHBN *)

Lemma b8_unfold (mw : float) (hba hbd : Z) :
  b8_mwhbn mw hba hbd =
  (p <- float_pow mw (-0.5) ;; num_mul p (NInt (hba + hbd)))%py.
Proof.
  unfold b8_mwhbn, lift2, i. destruct (float_pow mw (-0.5)); reflexivity.
Qed.

Lemma b8_value (mw : float) (hba hbd : Z) (p s : float) :
  float_pow mw (-0.5) = Ok (NFloat p) ->
  float_of_int (hba + hbd) = Ok s ->
  b8_mwhbn mw hba hbd = Ok (NFloat (p * s)).
Proof.
  intros Hp Hs. rewrite b8_unfold, Hp. cbn [bind num_mul arith].
  rewrite Hs. reflexivity.
Qed.

Lemma float_pow_neg_half_pos (mw : float) :
  (0 <? mw) = true ->
  float_pow mw (-0.5) =
  if is_infinity mw then Ok (NFloat 0)
  else if mw =? 1 then Ok (NFloat 1)
  else if is_infinity (libm_pow mw (-0.5))
       then raise OverflowError "(34, 'Numerical result out of range')"
       else Ok (NFloat (libm_pow mw (-0.5))).
Proof.
  intros Hpos. rewrite float_pow_neg_half.
  rewrite FloatFacts.gtb_0_spec in Hpos.
  rewrite FloatFacts.is_nan_spec, FloatFacts.eqb_0_spec, FloatFacts.ltb_0_spec.
  destruct (is_infinity mw); destruct (Prim2SF mw) as [s|s| |s m e];
    try destruct s; try discriminate Hpos; reflexivity.
Qed.

(** B8 is a float or a complex number, never an [int]. *)
Lemma b8_shape (mw : float) (hba hbd : Z) (b : num) :
  b8_mwhbn mw hba hbd = Ok b -> b = NComplex \/ exists x, b = NFloat x.
Proof.
  rewrite b8_unfold, float_pow_neg_half. unfold complex_pow, raise.
  repeat match goal with
         | |- context [if ?c then _ else _] => destruct c
         end; cbn [bind num_mul arith];
    try discriminate;
    destruct (float_of_int (hba + hbd)); cbn [bind]; intros [= <-]; eauto.
Qed.

Lemma c8_complex_raises : c8_mwhbn NComplex = Raise (unorderable "<=").
Proof. reflexivity. Qed.

Lemma c8_gated (b : float) :
  (b <=? 0.05) = true \/ (0.45 <? b) = true -> c8_mwhbn (NFloat b) = Ok (NInt 0).
Proof.
  intros H. unfold c8_mwhbn. cbn [num_le num_gt bind].
  destruct (b <=? 0.05); [reflexivity|]. destruct H as [H|H]; [discriminate|].
  cbn [bind]. rewrite H. reflexivity.
Qed.

Lemma c8_unfold (b : float) :
  (b <=? 0.05) = false -> (0.45 <? b) = false ->
  c8_mwhbn (NFloat b) =
  (p3 <- float_pow b 3 ;;
   t3 <- num_mul (NFloat 26.733) p3 ;;
   p2 <- float_pow b 2 ;;
   t2 <- num_mul (NFloat 31.495) p2 ;;
   d1 <- num_sub t3 t2 ;;
   d2 <- num_add d1 (NFloat (9.5202 * b)) ;;
   d3 <- num_sub d2 (NFloat 0.1358) ;;
   num_mul (NFloat (1 / 0.72258)) d3)%py.
Proof.
  intros Hlo Hhi. unfold c8_mwhbn. cbn [num_le num_gt bind].
  rewrite Hlo. cbn [bind]. rewrite Hhi.
  unfold lift2, f. cbn [bind]. rewrite pow3, pow2.
  destruct (float_pow b 3) as [p3|]; [cbn [bind]|reflexivity].
  destruct (num_mul (NFloat 26.733) p3) as [t3|]; [cbn [bind]|reflexivity].
  destruct (float_pow b 2) as [p2|]; [cbn [bind]|reflexivity].
  destruct (num_mul (NFloat 31.495) p2) as [t2|]; [cbn [bind]|reflexivity].
  destruct (num_sub t3 t2) as [d1|]; [cbn [bind]|reflexivity].
  change (num_mul (NFloat 9.5202) (NFloat b)) with (Ok (NFloat (9.5202 * b))).
  cbn [bind].
  destruct (num_add d1 (NFloat (9.5202 * b))) as [d2|]; [cbn [bind]|reflexivity].
  destruct (num_sub d2 (NFloat 0.1358)) as [d3|]; reflexivity.
Qed.

Lemma c8_fitted (b p3 p2 : float) :
  (b <=? 0.05) = false -> (0.45 <? b) = false ->
  float_pow b 3 = Ok (NFloat p3) ->
  float_pow b 2 = Ok (NFloat p2) ->
  c8_mwhbn (NFloat b) = Ok (NFloat (spec_c8_cubic b p3 p2)).
Proof.
  intros Hlo Hhi E3 E2. rewrite (c8_unfold b Hlo Hhi), E3, E2. reflexivity.
Qed.

Lemma c8_plain (b : float) (n : num) : c8_mwhbn (NFloat b) = Ok n -> plain n.
Proof.
  destruct (b <=? 0.05) eqn:Hlo; [rewrite c8_gated by auto; intros [= <-]; left; reflexivity|].
  destruct (0.45 <? b) eqn:Hhi; [rewrite c8_gated by auto; intros [= <-]; left; reflexivity|].
  rewrite (c8_unfold b Hlo Hhi).
  destruct integral_exponents as (I2 & I3 & I4).
  destruct (float_pow_integral b 3 I3) as [[p3 ->]|[e ->]]; [|discriminate].
  destruct (float_pow_integral b 2 I2) as [[p2 ->]|[e ->]]; [|discriminate].
  intros [= <-]. right; right; eauto.
Qed.

Lemma float_of_int_cases (z : Z) :
  float_of_int z = Ok (Z2F z) \/
  float_of_int z = raise OverflowError "int too large to convert to float".
Proof.
  unfold float_of_int, Z2F.
  destruct (binary_normalize prec emax z 0 false); auto.
Qed.

Lemma b8_positive (mw : float) (hba hbd : Z) (p : float) :
  float_pow mw (-0.5) = Ok (NFloat p) ->
  b8_mwhbn mw hba hbd = (s <- float_of_int (hba + hbd) ;; Ok (NFloat (p * s)))%py.
Proof. intros Hp. rewrite b8_unfold, Hp. reflexivity. Qed.

(** C7, as the code has it.  For a positive molecular weight,
    [mw ** (-0.5)] is a float [p], or the [OverflowError] of an infinite
    power; B8 is then [p] times the sum [hba + hbd] converted to a float,
    which every sum below [2^1023] in absolute value is, and the
    [OverflowError] of that conversion when the sum is not a float.  B8 is
    a float whenever it is computed, and for every float B8 the MWHBN
    score is 0 when [B8 <= 0.05] or [B8 > 0.45] and the spec's cubic
    [(1/0.72258) * (26.733*B8^3 - 31.495*B8^2 + 9.5202*B8 - 0.1358)]
    otherwise, with Python's [B8**3] and [B8**2], which between the two
    bounds are the C library's powers. *)
Theorem mwhbn_score (mw : float) (hba hbd : Z) :
  (0 <? mw) = true ->
  ((exists p, float_pow mw (-0.5) = Ok (NFloat p)) \/
   (exists e, float_pow mw (-0.5) = Raise e /\ cls e = OverflowError)) /\
  (forall p, float_pow mw (-0.5) = Ok (NFloat p) ->
     b8_mwhbn mw hba hbd =
     (s <- float_of_int (hba + hbd) ;; Ok (NFloat (p * s)))%py) /\
  (float_of_int (hba + hbd) = Ok (Z2F (hba + hbd)) \/
   float_of_int (hba + hbd) = raise OverflowError "int too large to convert to float") /\
  ((Z.abs (hba + hbd) < 2 ^ 1023)%Z ->
   float_of_int (hba + hbd) = Ok (Z2F (hba + hbd))) /\
  (forall e, b8_mwhbn mw hba hbd = Raise e -> cls e = OverflowError) /\
  (forall b8, b8_mwhbn mw hba hbd = Ok b8 -> exists b, b8 = NFloat b) /\
  (forall b,
     ((b <=? 0.05) = true \/ (0.45 <? b) = true -> c8_mwhbn (NFloat b) = Ok (NInt 0)) /\
     (forall p3 p2,
        (b <=? 0.05) = false -> (0.45 <? b) = false ->
        float_pow b 3 = Ok (NFloat p3) -> float_pow b 2 = Ok (NFloat p2) ->
        c8_mwhbn (NFloat b) = Ok (NFloat (spec_c8_cubic b p3 p2))) /\
     ((0.05 <? b) = true -> (b <=? 0.45) = true ->
      float_pow b 3 = checked_pow b 3 /\ float_pow b 2 = checked_pow b 2)).
Proof.
  intros Hpos.
  assert (Hpow : (exists p, float_pow mw (-0.5) = Ok (NFloat p)) \/
                 (exists e, float_pow mw (-0.5) = Raise e /\ cls e = OverflowError)).
  { rewrite (float_pow_neg_half_pos mw Hpos).
    repeat match goal with
           | |- context [if ?c then _ else _] => destruct c
           end; eauto.
    right. eexists. split; reflexivity. }
  split; [exact Hpow|].
  split; [intros p; apply b8_positive|].
  split; [apply float_of_int_cases|].
  split; [apply Rounding.float_of_int_converts|].
  split; [|split].
  - intros e. destruct Hpow as [[p Hp] | (e0 & He0 & Hc)].
    + rewrite (b8_positive mw hba hbd p Hp).
      destruct (float_of_int_cases (hba + hbd)) as [-> | ->]; [discriminate|].
      intros [= <-]. reflexivity.
    + rewrite b8_unfold, He0. intros [= <-]. exact Hc.
  - intros b8. destruct Hpow as [[p Hp] | (e0 & He0 & Hc)].
    + rewrite (b8_positive mw hba hbd p Hp).
      destruct (float_of_int_cases (hba + hbd)) as [-> | ->]; [|discriminate].
      intros [= <-]. eauto.
    + rewrite b8_unfold, He0. discriminate.
  - intros b. split; [apply c8_gated | split; [intros p3 p2; apply c8_fitted|]].
    intros Hlo Hhi.
    assert (Hord := FloatFacts.ordinary_between 0.05 0.45 b _ _ _ _
                      eq_refl eq_refl (or_introl eq_refl) Hlo Hhi).
    split; apply float_pow_ordinary; auto.
Qed.

(** *** The composite score *)

Lemma bbb_sum_value (c3 c4 c8 c9 c10 : num) :
  plain c3 -> plain c4 -> plain c8 -> plain c9 -> plain c10 ->
  bbb_sum c3 c4 c8 c9 c10 =
  Ok (NFloat (fl c3 + fl c4 + fl c8 * 1.5 + fl c9 * 2 + fl c10 * 0.5)).
Proof.
  intros [-> | [-> | [x3 ->]]] [-> | [-> | [x4 ->]]] [-> | [-> | [x8 ->]]]
         [-> | [-> | [x9 ->]]] [-> | [-> | [x10 ->]]];
    vm_compute; reflexivity.
Qed.

Lemma spec_composite_eq (c3 c4 c8 c9 c10 : float) :
  c3 + c4 + c8 * 1.5 + c9 * 2 + c10 * 0.5 = spec_composite c3 c4 c8 c9 c10.
Proof.
  unfold spec_composite.
  now rewrite (FloatFacts.mul_comm c8 1.5), (FloatFacts.mul_comm c9 2),
    (FloatFacts.mul_comm c10 0.5).
Qed.

Lemma weighted_sum (aro_r ha : Z) (mw : float) (hba hbd : Z) (tpsa pka : float)
    (c4 b8 c8 c9 c10 : num) :
  c4_heavy_atoms ha = Ok c4 ->
  b8_mwhbn mw hba hbd = Ok b8 ->
  c8_mwhbn b8 = Ok c8 ->
  c9_tpsa tpsa = Ok c9 ->
  c10_pka pka = Ok c10 ->
  calculate_bbb_score aro_r ha mw hba hbd tpsa pka =
  Ok (NFloat (fl (c3_aromatic_rings aro_r) + fl c4 + fl c8 * 1.5 + fl c9 * 2
              + fl c10 * 0.5)).
Proof.
  intros H4 Hb H8 H9 H10.
  unfold calculate_bbb_score. rewrite H4, Hb. cbn [bind]. rewrite H8, H9, H10. cbn [bind].
  apply bbb_sum_value.
  - apply c3_plain.
  - destruct (c4_plain ha) as (n & Hn & Hp). congruence.
  - destruct (b8_shape mw hba hbd b8 Hb) as [-> | [b ->]].
    + rewrite c8_complex_raises in H8. discriminate.
    + exact (c8_plain b c8 H8).
  - destruct (c9_plain tpsa) as (n & Hn & Hp). congruence.
  - exact (c10_plain pka c10 H10).
Qed.

(** C3.  Whenever the five sub-scores are defined, [calculate_bbb_score]
    returns exactly [C3 + C4 + 1.5*C8 + 2.0*C9 + 0.5*C10], the weights being
    the literals of the function body. *)
Theorem composite_score (aro_r ha : Z) (mw : float) (hba hbd : Z) (tpsa pka : float)
    (c4 b8 c8 c9 c10 : num) :
  c4_heavy_atoms ha = Ok c4 ->
  b8_mwhbn mw hba hbd = Ok b8 ->
  c8_mwhbn b8 = Ok c8 ->
  c9_tpsa tpsa = Ok c9 ->
  c10_pka pka = Ok c10 ->
  calculate_bbb_score aro_r ha mw hba hbd tpsa pka =
  Ok (NFloat (spec_composite (fl (c3_aromatic_rings aro_r)) (fl c4) (fl c8) (fl c9) (fl c10))).
Proof.
  intros H4 Hb H8 H9 H10.
  rewrite (weighted_sum aro_r ha mw hba hbd tpsa pka c4 b8 c8 c9 c10) by assumption.
  now rewrite spec_composite_eq.
Qed.

Lemma bind_ok {A B} (r : result A) (k : A -> result B) (b : B) :
  bind r k = Ok b -> exists a, r = Ok a /\ k a = Ok b.
Proof. destruct r as [a|e]; cbn; [eauto | discriminate]. Qed.

(** A returned score is always a float. *)
Lemma calculate_returns_float (aro_r ha : Z) (mw : float) (hba hbd : Z)
    (tpsa pka : float) (score : num) :
  calculate_bbb_score aro_r ha mw hba hbd tpsa pka = Ok score ->
  exists x, score = NFloat x.
Proof.
  intros H. pose proof H as H'. unfold calculate_bbb_score in H'.
  apply bind_ok in H' as (c4 & H4 & H').
  apply bind_ok in H' as (b8 & Hb & H').
  apply bind_ok in H' as (c8 & H8 & H').
  apply bind_ok in H' as (c9 & H9 & H').
  apply bind_ok in H' as (c10 & H10 & _).
  rewrite (weighted_sum aro_r ha mw hba hbd tpsa pka c4 b8 c8 c9 c10) in H by assumption.
  injection H as <-. eauto.
Qed.

(** *** Molecular weight at or below zero *)

(** C1, as the code has it.  A finite molecular weight at or below zero
    makes [calculate_bbb_score] raise, so that no score is returned:
    [ZeroDivisionError] for a zero, and for a negative weight the
    [TypeError] of comparing the complex B8 (or the [OverflowError] of a
    conversion on the way).  The exception classes are Python's own; the
    function has no check and no error type of its own. *)
Theorem nonpositive_weight_raises (aro_r ha : Z) (mw : float) (hba hbd : Z)
    (tpsa pka : float) :
  (mw <=? 0) = true -> is_infinity mw = false ->
  exists e,
    calculate_bbb_score aro_r ha mw hba hbd tpsa pka = Raise e /\
    (if mw =? 0 then cls e = ZeroDivisionError
     else cls e = TypeError \/ cls e = OverflowError).
Proof.
  intros Hle Hfin. unfold calculate_bbb_score.
  destruct (c4_plain ha) as (c4 & -> & _). cbn [bind].
  rewrite b8_unfold, float_pow_neg_half, Hfin.
  rewrite FloatFacts.leb_0_spec in Hle.
  rewrite FloatFacts.is_infinity_spec in Hfin.
  rewrite FloatFacts.is_nan_spec, FloatFacts.eqb_0_spec, FloatFacts.ltb_0_spec.
  destruct (Prim2SF mw) as [s|s| |s m e]; try destruct s;
    try discriminate Hle; try discriminate Hfin;
    try (eexists; split; reflexivity).
  unfold complex_pow.
  destruct (is_infinity (libm_pow (abs mw) (-0.5)));
    [eexists; split; [reflexivity | right; reflexivity]|].
  cbn [bind num_mul arith].
  unfold float_of_int.
  destruct (binary_normalize prec emax (hba + hbd) 0 false);
    eexists; (split; [reflexivity|]); cbn; auto.
Qed.

End WithPlatform.

Lemma aromatic_ring_lookup_witness :
  ((5 < 0 \/ 4 < 5)%Z /\ c3_aromatic_rings 5 = NInt 0) /\
  ((-1 < 0 \/ 4 < -1)%Z /\ c3_aromatic_rings (-1) = NInt 0) /\
  calculate_bbb_score (P := Sample.platform) 3 0 1 0 0 0 0 = Ok (NFloat 0.691115).
Proof.
  split; [split; [lia|]|split; [split; [lia|]|]].
  - apply (proj1 (proj2 (aromatic_ring_lookup (P := Sample.platform) 5))). lia.
  - apply (proj1 (proj2 (aromatic_ring_lookup (P := Sample.platform) (-1)))). lia.
  - apply (proj2 (proj2 (aromatic_ring_lookup (P := Sample.platform) 3))).
Defined.

Lemma heavy_atom_score_witness :
  ((0 <= 5 \/ 45 < 0)%Z /\ c4_heavy_atoms (P := Sample.platform) 0 = Ok (NInt 0)) /\
  ((5 <= 5 \/ 45 < 5)%Z /\ c4_heavy_atoms (P := Sample.platform) 5 = Ok (NInt 0)) /\
  ((46 <= 5 \/ 45 < 46)%Z /\ c4_heavy_atoms (P := Sample.platform) 46 = Ok (NInt 0)) /\
  ((1000 <= 5 \/ 45 < 1000)%Z /\
   c4_heavy_atoms (P := Sample.platform) 1000 = Ok (NInt 0)) /\
  ((5 < 20 <= 45)%Z /\
   c4_heavy_atoms (P := Sample.platform) 20 = Ok (NFloat (spec_c4_cubic 20))).
Proof.
  split; [split; [lia|] | split; [split; [lia|] | split; [split; [lia|] |
    split; [split; [lia|] | split; [lia|]]]]].
  - apply (proj1 (heavy_atom_score (P := Sample.platform) 0)). lia.
  - apply (proj1 (heavy_atom_score (P := Sample.platform) 5)). lia.
  - apply (proj1 (heavy_atom_score (P := Sample.platform) 46)). lia.
  - apply (proj1 (heavy_atom_score (P := Sample.platform) 1000)). lia.
  - apply (proj2 (heavy_atom_score (P := Sample.platform) 20)). lia.
Defined.

Lemma tpsa_score_witness :
  (c9_tpsa 121 = Ok (NInt 0) /\
   (num_is_zero (NInt 0) = true <-> (121 =? 0) = true \/ (120 <? 121) = true)) /\
  (((0 =? 0) = true \/ (120 <? 0) = true) /\ c9_tpsa 0 = Ok (NInt 0)) /\
  ((60 =? 0) = false /\ (120 <? 60) = false /\
   c9_tpsa 60 = Ok (NFloat (spec_c9_linear 60))) /\
  ((-5 <? 0) = true /\ c9_tpsa (-5) = Ok (NFloat (spec_c9_linear (-5)))).
Proof.
  split; [split; [reflexivity|]|
          split; [split; [left; reflexivity|]|
                  split; [do 2 (split; [reflexivity|])|split; [reflexivity|]]]].
  - exact (proj1 (tpsa_score 121) (NInt 0) eq_refl).
  - apply (proj1 (proj2 (tpsa_score 0))). left; reflexivity.
  - apply (proj1 (proj2 (proj2 (tpsa_score 60)))); reflexivity.
  - apply (proj2 (proj2 (proj2 (tpsa_score (-5))))); reflexivity.
Defined.

Lemma pka_score_witness :
  (((3 <=? 3) = true \/ (11 <? 3) = true) /\
   c10_pka (P := Sample.platform) 3 = Ok (NInt 0)) /\
  (((11.01 <=? 3) = true \/ (11 <? 11.01) = true) /\
   c10_pka (P := Sample.platform) 11.01 = Ok (NInt 0)) /\
  ((3 <? 7) = true /\ (7 <=? 11) = true /\
   c10_pka (P := Sample.platform) 7 =
   Ok (NFloat (spec_c10_quartic 7 (Sample.pow 7 4) (Sample.pow 7 3) (Sample.pow 7 2)))).
Proof.
  split; [split; [left; reflexivity|]|split; [split; [right; reflexivity|]|do 2 (split; [reflexivity|])]].
  - apply (proj1 (pka_score (P := Sample.platform) 3)). left; reflexivity.
  - apply (proj1 (pka_score (P := Sample.platform) 11.01)). right; reflexivity.
  - apply (proj1 (proj2 (pka_score (P := Sample.platform) 7))); reflexivity.
Defined.

Lemma mwhbn_score_witness :
  let p := Sample.pow 300 (-0.5) in
  let b := p * 4 in
  (0 <? 300) = true /\
  (Z.abs (3 + 1) < 2 ^ 1023)%Z /\
  b8_mwhbn (P := Sample.platform) 300 3 1 = Ok (NFloat b) /\
  (b <=? 0.05) = false /\ (0.45 <? b) = false /\
  c8_mwhbn (P := Sample.platform) (NFloat b) =
  Ok (NFloat (spec_c8_cubic b (Sample.pow b 3) (Sample.pow b 2))) /\
  c8_mwhbn (P := Sample.platform) (NFloat (1 * 0)) = Ok (NInt 0).
Proof.
  intros p b.
  assert (Hsmall : (Z.abs (3 + 1) < 2 ^ 1023)%Z)
    by (apply Z.lt_le_trans with (2 ^ 3)%Z; [reflexivity | apply Z.pow_le_mono_r; lia]).
  pose proof (mwhbn_score (P := Sample.platform) 300 3 1 eq_refl)
    as (_ & Hb8 & _ & Hconv & _ & _ & Hc8).
  pose proof (Hb8 p eq_refl) as Hb. rewrite (Hconv Hsmall) in Hb.
  destruct (Hc8 b) as (_ & Hfit & _).
  destruct (Hc8 (1 * 0)) as (Hgate & _ & _).
  split; [reflexivity|]. split; [exact Hsmall|]. split; [exact Hb|].
  do 2 (split; [reflexivity|]).
  split.
  - apply Hfit; reflexivity.
  - apply Hgate. left; reflexivity.
Defined.

Lemma composite_score_witness :
  let b := Sample.pow 300 (-0.5) * 4 in
  let c4 := NFloat (spec_c4_cubic 20) in
  let c8 := NFloat (spec_c8_cubic b (Sample.pow b 3) (Sample.pow b 2)) in
  let c9 := NFloat (spec_c9_linear 60) in
  let c10 := NFloat (spec_c10_quartic 7 (Sample.pow 7 4) (Sample.pow 7 3) (Sample.pow 7 2)) in
  c4_heavy_atoms (P := Sample.platform) 20 = Ok c4 /\
  b8_mwhbn (P := Sample.platform) 300 3 1 = Ok (NFloat b) /\
  c8_mwhbn (P := Sample.platform) (NFloat b) = Ok c8 /\
  c9_tpsa 60 = Ok c9 /\
  c10_pka (P := Sample.platform) 7 = Ok c10 /\
  calculate_bbb_score (P := Sample.platform) 2 20 300 3 1 60 7 =
  Ok (NFloat (spec_composite 1 (fl c4) (fl c8) (fl c9) (fl c10))).
Proof.
  intros b c4 c8 c9 c10.
  do 5 (split; [reflexivity|]).
  exact (composite_score (P := Sample.platform) 2 20 300 3 1 60 7 c4 (NFloat b) c8 c9 c10
           eq_refl eq_refl eq_refl eq_refl eq_refl).
Defined.

Lemma nonpositive_weight_raises_witness :
  ((0 <=? 0) = true /\ is_infinity 0 = false /\
   exists e, calculate_bbb_score (P := Sample.platform) 2 20 0 3 1 60 7 = Raise e /\
             cls e = ZeroDivisionError) /\
  ((-10 <=? 0) = true /\ is_infinity (-10) = false /\
   exists e, calculate_bbb_score (P := Sample.platform) 2 20 (-10) 3 1 60 7 = Raise e /\
             (cls e = TypeError \/ cls e = OverflowError)).
Proof.
  split; (do 2 (split; [reflexivity|])).
  - exact (nonpositive_weight_raises (P := Sample.platform) 2 20 0 3 1 60 7 eq_refl eq_refl).
  - exact (nonpositive_weight_raises (P := Sample.platform) 2 20 (-10) 3 1 60 7
             eq_refl eq_refl).
Defined.

(** C1 as the spec states it fails at [mw = -inf], which [float("-inf")]
    yields: [(-inf) ** (-0.5)] is [0.0], B8 is [0.0], and a score comes
    back.  No call of the C library's [pow] is involved. *)
Lemma negative_infinite_weight_scores :
  (neg_infinity <=? 0) = true /\
  forall P : Platform,
    calculate_bbb_score (P := P) 2 20 neg_infinity 3 1 60 0 =
    Ok (NFloat 3.1619554291598719).
Proof. split; [reflexivity | intros P; vm_compute; reflexivity]. Qed.

(** C7 as the claim states it fails for acceptor and donor counts whose
    sum is not a float: at [mw = 4] and [hba = hbd = 2^1023] (the value of a
    cell [8.98846567431158e307]) the product [4^(-0.5) * (hba + hbd)] is
    [2^1023], a float, but the conversion of the sum raises
    [OverflowError] and no B8 is computed. *)
Lemma large_count_sum_overflows :
  (0 <? 4) = true /\
  float_of_int (2 ^ 1023) = Ok (Z2F (2 ^ 1023)) /\
  is_infinity (Z2F (2 ^ 1023)) = false /\
  Sample.pow 4 (-0.5) = 0.5 /\
  forall P : Platform,
    exists e,
      b8_mwhbn (P := P) 4 (2 ^ 1023) (2 ^ 1023) = Raise e /\
      calculate_bbb_score (P := P) 2 20 4 (2 ^ 1023) (2 ^ 1023) 60 7 = Raise e /\
      cls e = OverflowError.
Proof.
  split; [reflexivity|]. split; [vm_compute; reflexivity|].
  split; [vm_compute; reflexivity|]. split; [vm_compute; reflexivity|].
  intros P.
  assert (Hb : exists e, b8_mwhbn (P := P) 4 (2 ^ 1023) (2 ^ 1023) = Raise e /\
                         cls e = OverflowError).
  { rewrite b8_unfold, (float_pow_neg_half_pos 4 eq_refl).
    change (is_infinity 4) with false. change (4 =? 1) with false. cbv iota.
    destruct (is_infinity (libm_pow 4 (-0.5)));
      [eexists; split; reflexivity|].
    cbn [bind num_mul arith].
    replace (float_of_int (2 ^ 1023 + 2 ^ 1023))
      with (@raise float OverflowError "int too large to convert to float")
      by (vm_compute; reflexivity).
    eexists; split; reflexivity. }
  destruct Hb as (e & Hb & Hc). exists e. split; [exact Hb|]. split; [|exact Hc].
  unfold calculate_bbb_score.
  destruct (c4_plain 20) as (c4 & -> & _). cbn [bind]. now rewrite Hb.
Qed.

End ScorerFacts.

(** ** More about the scorer *)

Module ScorerMore.

Local Open Scope float_scope.

(** *** NaN in floating-point arithmetic *)

Lemma nan_add_l (x y : float) : is_nan x = true -> is_nan (x + y) = true.
Proof.
  rewrite !FloatFacts.is_nan_spec, add_spec.
  destruct (Prim2SF x); try discriminate. reflexivity.
Qed.

Lemma nan_add_r (x y : float) : is_nan y = true -> is_nan (x + y) = true.
Proof.
  rewrite !FloatFacts.is_nan_spec, add_spec.
  destruct (Prim2SF y); try discriminate. destruct (Prim2SF x) as [| [] | |]; reflexivity.
Qed.

Lemma nan_sub_l (x y : float) : is_nan x = true -> is_nan (x - y) = true.
Proof.
  rewrite !FloatFacts.is_nan_spec, sub_spec.
  destruct (Prim2SF x); try discriminate. reflexivity.
Qed.

Lemma nan_sub_r (x y : float) : is_nan y = true -> is_nan (x - y) = true.
Proof.
  rewrite !FloatFacts.is_nan_spec, sub_spec.
  destruct (Prim2SF y); try discriminate. destruct (Prim2SF x) as [| [] | |]; reflexivity.
Qed.

Lemma nan_mul_l (x y : float) : is_nan x = true -> is_nan (x * y) = true.
Proof.
  rewrite !FloatFacts.is_nan_spec, mul_spec.
  destruct (Prim2SF x); try discriminate. reflexivity.
Qed.

Lemma nan_mul_r (x y : float) : is_nan y = true -> is_nan (x * y) = true.
Proof.
  rewrite !FloatFacts.is_nan_spec, mul_spec.
  destruct (Prim2SF y); try discriminate. destruct (Prim2SF x); reflexivity.
Qed.

Lemma nan_unordered (x c : float) :
  is_nan x = true -> (x =? c) = false /\ (x <=? c) = false /\ (c <? x) = false.
Proof.
  rewrite FloatFacts.is_nan_spec, eqb_spec, leb_spec, ltb_spec.
  destruct (Prim2SF x); try discriminate. intros _.
  destruct (Prim2SF c) as [| [] | |[]]; repeat split; reflexivity.
Qed.

Create HintDb nan.
#[local] Hint Resolve nan_add_l nan_add_r nan_sub_l nan_sub_r nan_mul_l nan_mul_r : nan.

(** *** The first two sub-scores *)

Lemma c3_unit (aro_r : Z) :
  (0 <=? fl (c3_aromatic_rings aro_r)) = true /\ (fl (c3_aromatic_rings aro_r) <=? 1) = true.
Proof.
  assert (aro_r = 0 \/ aro_r = 1 \/ aro_r = 2 \/ aro_r = 3 \/ aro_r = 4 \/
          (aro_r < 0 \/ 4 < aro_r))%Z as Hcases by lia.
  destruct Hcases as [-> | [-> | [-> | [-> | [-> | Hout]]]]];
    try (split; vm_compute; reflexivity).
  rewrite (proj1 (ScorerFacts.c3_outside aro_r Hout)). split; vm_compute; reflexivity.
Qed.

Section WithPlatform.
Context {P : Platform}.

Lemma c4_unit (ha : Z) :
  exists n, c4_heavy_atoms ha = Ok n /\
            (0 <=? fl n) = true /\ (fl n <? 1) = true /\
            (0 <? fl n) = ((5 <? ha)%Z && (ha <=? 45)%Z).
Proof.
  destruct (Z_le_gt_dec ha 5) as [Hle|Hgt];
    [exists (NInt 0); split; [apply ScorerFacts.c4_gated; lia|];
     repeat split; try (vm_compute; reflexivity);
     rewrite (proj2 (Z.ltb_ge 5 ha)) by lia; reflexivity|].
  destruct (Z_le_gt_dec ha 45) as [Hle|Hgt'];
    [|exists (NInt 0); split; [apply ScorerFacts.c4_gated; lia|];
      repeat split; try (vm_compute; reflexivity);
      rewrite (proj2 (Z.leb_gt ha 45)) by lia; now rewrite andb_false_r].
  exists (NFloat (spec_c4_cubic ha)). split; [apply ScorerFacts.c4_fitted; lia|].
  assert (exists k : nat, (k < 40)%nat /\ ha = (6 + Z.of_nat k)%Z) as (k & Hk & ->).
  { exists (Z.to_nat (ha - 6)). lia. }
  cbn [fl].
  do 40 (destruct k as [|k]; [repeat split; vm_compute; reflexivity|]).
  lia.
Qed.

(** *** What the scorer can raise *)

Lemma float_pow_raises (iv iw : float) (e : exn) :
  float_pow iv iw = Raise e -> cls e = ZeroDivisionError \/ cls e = OverflowError.
Proof.
  unfold float_pow, complex_pow, raise.
  repeat match goal with
         | |- context [if ?b then _ else _] => destruct b
         end; intros H; try discriminate H; injection H as <-; cbn; auto.
Qed.

Lemma b8_raises (mw : float) (hba hbd : Z) (e : exn) :
  b8_mwhbn mw hba hbd = Raise e -> cls e = ZeroDivisionError \/ cls e = OverflowError.
Proof.
  rewrite ScorerFacts.b8_unfold.
  destruct (float_pow mw (-0.5)) as [p|e0] eqn:Hp; cbn [bind].
  - destruct p as [z|x|]; cbn [num_mul arith bind]; try discriminate;
      unfold float_of_int, raise;
      destruct (binary_normalize prec emax (hba + hbd) 0 false); cbn [bind];
      intros H; try discriminate H; injection H as <-; cbn; auto.
  - intros [= <-]. exact (float_pow_raises _ _ _ Hp).
Qed.

Lemma c8_raises (b : float) (e : exn) :
  c8_mwhbn (NFloat b) = Raise e -> cls e = ZeroDivisionError \/ cls e = OverflowError.
Proof.
  destruct (b <=? 0.05) eqn:Hlo;
    [rewrite ScorerFacts.c8_gated by auto; discriminate|].
  destruct (0.45 <? b) eqn:Hhi;
    [rewrite ScorerFacts.c8_gated by auto; discriminate|].
  rewrite (ScorerFacts.c8_unfold b Hlo Hhi).
  destruct ScorerFacts.integral_exponents as (I2 & I3 & I4).
  destruct (ScorerFacts.float_pow_integral b 3 I3) as [[p3 ->]|[e3 H3]].
  - cbn [bind num_mul arith].
    destruct (ScorerFacts.float_pow_integral b 2 I2) as [[p2 ->]|[e2 H2]].
    + discriminate.
    + rewrite H2. intros [= <-]. exact (float_pow_raises _ _ _ H2).
  - rewrite H3. intros [= <-]. exact (float_pow_raises _ _ _ H3).
Qed.

Lemma c10_raises (pka : float) (e : exn) :
  c10_pka pka = Raise e -> cls e = ZeroDivisionError \/ cls e = OverflowError.
Proof.
  destruct (pka <=? 3) eqn:Hlo;
    [rewrite ScorerFacts.c10_gated by auto; discriminate|].
  destruct (11 <? pka) eqn:Hhi;
    [rewrite ScorerFacts.c10_gated by auto; discriminate|].
  rewrite (ScorerFacts.c10_unfold pka Hlo Hhi).
  destruct ScorerFacts.integral_exponents as (I2 & I3 & I4).
  destruct (ScorerFacts.float_pow_integral pka 4 I4) as [[p4 ->]|[e4 H4]];
    [|rewrite H4; intros [= <-]; exact (float_pow_raises _ _ _ H4)].
  cbn [bind num_mul arith].
  destruct (ScorerFacts.float_pow_integral pka 3 I3) as [[p3 ->]|[e3 H3]];
    [|rewrite H3; intros [= <-]; exact (float_pow_raises _ _ _ H3)].
  cbn [bind num_mul num_sub arith].
  destruct (ScorerFacts.float_pow_integral pka 2 I2) as [[p2 ->]|[e2 H2]];
    [|rewrite H2; intros [= <-]; exact (float_pow_raises _ _ _ H2)].
  discriminate.
Qed.

Lemma scorer_raises (aro_r ha : Z) (mw : float) (hba hbd : Z) (tpsa pka : float)
    (e : exn) :
  calculate_bbb_score aro_r ha mw hba hbd tpsa pka = Raise e ->
  cls e = ZeroDivisionError \/ cls e = TypeError \/ cls e = OverflowError.
Proof.
  unfold calculate_bbb_score.
  destruct (ScorerFacts.c4_plain ha) as (c4 & -> & H4). cbn [bind].
  destruct (b8_mwhbn mw hba hbd) as [b8|eb] eqn:Hb; cbn [bind];
    [|intros [= <-]; destruct (b8_raises _ _ _ _ Hb); auto].
  destruct (ScorerFacts.b8_shape mw hba hbd b8 Hb) as [-> | [b ->]].
  { rewrite ScorerFacts.c8_complex_raises. cbn [bind]. intros [= <-]. cbn. auto. }
  destruct (c8_mwhbn (NFloat b)) as [c8|e8] eqn:H8; cbn [bind];
    [|intros [= <-]; destruct (c8_raises _ _ H8); auto].
  destruct (ScorerFacts.c9_plain tpsa) as (c9 & -> & H9). cbn [bind].
  destruct (c10_pka pka) as [c10|e10] eqn:H10; cbn [bind];
    [|intros [= <-]; destruct (c10_raises _ _ H10); auto].
  rewrite ScorerFacts.bbb_sum_value; [discriminate| | | | |]; auto.
  - apply ScorerFacts.c3_plain.
  - exact (ScorerFacts.c8_plain b c8 H8).
  - exact (ScorerFacts.c10_plain pka c10 H10).
Qed.


(** *** NaN descriptors *)

Lemma float_pow_nan (x w : float) :
  is_nan x = true -> (w =? 0) = false -> float_pow x w = Ok (NFloat x).
Proof. intros Hx Hw. unfold float_pow. now rewrite Hw, Hx. Qed.

Lemma c9_nan (tpsa : float) :
  is_nan tpsa = true -> exists y, c9_tpsa tpsa = Ok (NFloat y) /\ is_nan y = true.
Proof.
  intros Hn. destruct (nan_unordered tpsa 0 Hn) as (H0 & _ & _).
  destruct (nan_unordered tpsa 120 Hn) as (_ & _ & H120).
  rewrite (ScorerFacts.c9_fitted tpsa H0 H120). eexists. split; [reflexivity|].
  unfold spec_c9_linear. auto with nan.
Qed.

Lemma c10_nan (pka : float) :
  is_nan pka = true -> exists y, c10_pka pka = Ok (NFloat y) /\ is_nan y = true.
Proof.
  intros Hn. destruct (nan_unordered pka 3 Hn) as (_ & H3 & _).
  destruct (nan_unordered pka 11 Hn) as (_ & _ & H11).
  rewrite (ScorerFacts.c10_fitted pka pka pka pka H3 H11)
    by (apply float_pow_nan; [exact Hn | reflexivity]).
  eexists. split; [reflexivity|].
  unfold spec_c10_quartic. auto 8 with nan.
Qed.

Lemma c8_nan (b : float) :
  is_nan b = true -> exists y, c8_mwhbn (NFloat b) = Ok (NFloat y) /\ is_nan y = true.
Proof.
  intros Hn. destruct (nan_unordered b 0.05 Hn) as (_ & Hlo & _).
  destruct (nan_unordered b 0.45 Hn) as (_ & _ & Hhi).
  rewrite (ScorerFacts.c8_fitted b b b Hlo Hhi)
    by (apply float_pow_nan; [exact Hn | reflexivity]).
  eexists. split; [reflexivity|].
  unfold spec_c8_cubic. auto 8 with nan.
Qed.

Lemma b8_nan (mw : float) (hba hbd : Z) (b8 : num) :
  is_nan mw = true -> b8_mwhbn mw hba hbd = Ok b8 ->
  exists b, b8 = NFloat b /\ is_nan b = true.
Proof.
  intros Hn. rewrite ScorerFacts.b8_unfold, float_pow_nan by (exact Hn || reflexivity).
  cbn [bind num_mul arith].
  destruct (float_of_int (hba + hbd)) as [s|e]; cbn [bind]; [|discriminate].
  intros [= <-]. eexists. split; [reflexivity|]. auto with nan.
Qed.

Lemma nan_score (aro_r ha : Z) (mw : float) (hba hbd : Z) (tpsa pka : float)
    (score : num) :
  is_nan mw = true \/ is_nan tpsa = true \/ is_nan pka = true ->
  calculate_bbb_score aro_r ha mw hba hbd tpsa pka = Ok score ->
  exists y, score = NFloat y /\ is_nan y = true.
Proof.
  intros Hnan H. pose proof H as H'. unfold calculate_bbb_score in H'.
  apply ScorerFacts.bind_ok in H' as (c4 & H4 & H').
  apply ScorerFacts.bind_ok in H' as (b8 & Hb & H').
  apply ScorerFacts.bind_ok in H' as (c8 & H8 & H').
  apply ScorerFacts.bind_ok in H' as (c9 & H9 & H').
  apply ScorerFacts.bind_ok in H' as (c10 & H10 & _).
  rewrite (ScorerFacts.weighted_sum aro_r ha mw hba hbd tpsa pka c4 b8 c8 c9 c10) in H
    by assumption.
  injection H as <-. eexists. split; [reflexivity|].
  destruct Hnan as [Hn | [Hn | Hn]].
  - destruct (b8_nan mw hba hbd b8 Hn Hb) as (b & -> & Hbn).
    destruct (c8_nan b Hbn) as (y & Hy & Hyn).
    rewrite Hy in H8. injection H8 as <-. cbn [fl]. auto 8 with nan.
  - destruct (c9_nan tpsa Hn) as (y & Hy & Hyn).
    rewrite Hy in H9. injection H9 as <-. cbn [fl]. auto 8 with nan.
  - destruct (c10_nan pka Hn) as (y & Hy & Hyn).
    rewrite Hy in H10. injection H10 as <-. cbn [fl]. auto 8 with nan.
Qed.

Lemma format_nan (y : float) : is_nan y = true -> format_6f (NFloat y) = "nan"%string.
Proof.
  rewrite FloatFacts.is_nan_spec. unfold format_6f, fixed6. cbn [fl].
  destruct (Prim2SF y); try discriminate. reflexivity.
Qed.


(** X1.  A score that [calculate_bbb_score] returns is a [float], whatever
    the arguments: the [int] 0 or 1 of a gated or looked-up sub-score never
    reaches the caller, because the weights 1.5 and 0.5 are floats. *)
Theorem returned_score_is_float (aro_r ha : Z) (mw : float) (hba hbd : Z)
    (tpsa pka : float) (score : num) :
  calculate_bbb_score aro_r ha mw hba hbd tpsa pka = Ok score ->
  exists x, score = NFloat x.
Proof. apply ScorerFacts.calculate_returns_float. Qed.

(** X2.  Whatever [calculate_bbb_score] raises is a [ZeroDivisionError], a
    [TypeError] or an [OverflowError].  Each is an [Exception], and none is
    caught by the [except (ValueError, KeyError)] around the call in
    [process_csv]. *)
Theorem scorer_error_classes (aro_r ha : Z) (mw : float) (hba hbd : Z)
    (tpsa pka : float) (e : exn) :
  calculate_bbb_score aro_r ha mw hba hbd tpsa pka = Raise e ->
  (cls e = ZeroDivisionError \/ cls e = TypeError \/ cls e = OverflowError) /\
  caught_by row_handler e = false /\
  caught_by [Exception]%list e = true.
Proof.
  intros H. pose proof (scorer_raises _ _ _ _ _ _ _ _ H) as Hc.
  split; [exact Hc|].
  unfold caught_by. destruct Hc as [-> | [-> | ->]]; split; reflexivity.
Qed.

(** X3.  A NaN molecular weight, TPSA or pKa passes every gate of the
    scorer: when a score is returned for such a row it is NaN, and it is
    formatted as the text [nan]. *)
Theorem nan_descriptor_gives_nan_score (aro_r ha : Z) (mw : float) (hba hbd : Z)
    (tpsa pka : float) (score : num) :
  is_nan mw = true \/ is_nan tpsa = true \/ is_nan pka = true ->
  calculate_bbb_score aro_r ha mw hba hbd tpsa pka = Ok score ->
  exists y, score = NFloat y /\ is_nan y = true /\ format_6f score = "nan"%string.
Proof.
  intros Hnan H.
  destruct (nan_score _ _ _ _ _ _ _ _ Hnan H) as (y & -> & Hy).
  exists y. repeat split; [exact Hy | exact (format_nan y Hy)].
Qed.

(** X4.  The aromatic-ring score lies in [0, 1] for every integer.  The
    heavy-atom score is always defined and lies in [0, 1); it is positive
    exactly for [5 < ha <= 45], so the cubic is never negative on the
    integers it is applied to. *)
Theorem ring_and_atom_scores_bounded (aro_r ha : Z) :
  ((0 <=? fl (c3_aromatic_rings aro_r)) = true /\
   (fl (c3_aromatic_rings aro_r) <=? 1) = true) /\
  exists c4, c4_heavy_atoms ha = Ok c4 /\
             (0 <=? fl c4) = true /\ (fl c4 <? 1) = true /\
             (0 <? fl c4) = ((5 <? ha)%Z && (ha <=? 45)%Z).
Proof. split; [apply c3_unit | apply c4_unit]. Qed.

End WithPlatform.

Lemma returned_score_is_float_witness :
  calculate_bbb_score (P := Sample.platform) 2 0 1 0 0 0 0 = Ok (NFloat 1) /\
  exists x, NFloat 1 = NFloat x.
Proof.
  split; [vm_compute; reflexivity|].
  apply (returned_score_is_float (P := Sample.platform) 2 0 1 0 0 0 0).
  vm_compute. reflexivity.
Defined.

Lemma scorer_error_classes_witness :
  let e := mkExn ZeroDivisionError "0.0 cannot be raised to a negative power" in
  calculate_bbb_score (P := Sample.platform) 2 20 0 3 1 60 7 = Raise e /\
  (cls e = ZeroDivisionError \/ cls e = TypeError \/ cls e = OverflowError) /\
  caught_by row_handler e = false /\
  caught_by [Exception]%list e = true.
Proof.
  intros e. split; [vm_compute; reflexivity|].
  apply (scorer_error_classes (P := Sample.platform) 2 20 0 3 1 60 7 e).
  vm_compute. reflexivity.
Defined.

Lemma nan_descriptor_gives_nan_score_witness :
  (is_nan 300 = true \/ is_nan nan = true \/ is_nan 7 = true) /\
  exists score,
    calculate_bbb_score (P := Sample.platform) 2 20 300 3 1 nan 7 = Ok score /\
    exists y, score = NFloat y /\ is_nan y = true /\ format_6f score = "nan"%string.
Proof.
  split; [right; left; reflexivity|].
  destruct (calculate_bbb_score (P := Sample.platform) 2 20 300 3 1 nan 7)
    as [score|e] eqn:H; [|vm_compute in H; discriminate H].
  exists score. split; [reflexivity|].
  apply (nan_descriptor_gives_nan_score (P := Sample.platform) 2 20 300 3 1 nan 7 score);
    [right; left; reflexivity | exact H].
Defined.

End ScorerMore.

(** ** Rows and the writer *)

Module RowFacts.

Local Open Scope string_scope.
Local Open Scope list_scope.

(** *** Rows as association lists *)

Lemma key_eqb_eq (a b : key) : key_eqb a b = true <-> a = b.
Proof.
  destruct a as [x|], b as [y|]; cbn; try (split; congruence).
  rewrite String.eqb_eq. split; congruence.
Qed.

Lemma key_eqb_neq (a b : key) : a <> b -> key_eqb a b = false.
Proof.
  intros Hne. destruct (key_eqb a b) eqn:E; [|reflexivity].
  apply key_eqb_eq in E. contradiction.
Qed.

Lemma dict_get_app (d d' : dict) (k : key) :
  dict_get (d ++ d') k =
  match dict_get d k with Some v => Some v | None => dict_get d' k end.
Proof.
  induction d as [|[k' v'] d IH]; cbn; [reflexivity|].
  destruct (key_eqb k' k); [reflexivity | exact IH].
Qed.

Lemma dict_set_fresh (d : dict) (k : key) (v : value) :
  dict_get d k = None -> dict_set d k v = (d ++ [(k, v)]).
Proof.
  induction d as [|[k' v'] d IH]; cbn; [reflexivity|].
  destruct (key_eqb k' k); [discriminate|]. intros H. now rewrite IH.
Qed.

Lemma dict_get_set (d : dict) (k k' : key) (v : value) :
  dict_get (dict_set d k v) k' = if key_eqb k k' then Some v else dict_get d k'.
Proof.
  induction d as [|[k0 v0] d IH]; cbn [dict_set dict_get].
  - reflexivity.
  - destruct (key_eqb k0 k) eqn:E0; cbn [dict_get].
    + apply key_eqb_eq in E0. subst k0.
      destruct (key_eqb k k'); reflexivity.
    + destruct (key_eqb k0 k') eqn:E1.
      * apply key_eqb_eq in E1. subst k0.
        assert (key_eqb k k' = false) as ->; [|reflexivity].
        destruct (key_eqb k k') eqn:E2; [|reflexivity].
        apply key_eqb_eq in E2. subst k.
        rewrite (proj2 (key_eqb_eq k' k') eq_refl) in E0. discriminate E0.
      * exact IH.
Qed.

Lemma dict_keys_set (d : dict) (k : key) (v : value) :
  dict_keys (dict_set d k v) =
  if existsb (key_eqb k) (dict_keys d) then dict_keys d else dict_keys d ++ [k].
Proof.
  unfold dict_keys. induction d as [|[k0 v0] d IH]; cbn [dict_set map existsb fst].
  - reflexivity.
  - destruct (key_eqb k0 k) eqn:E0.
    + apply key_eqb_eq in E0. subst k0.
      rewrite (proj2 (key_eqb_eq k k) eq_refl). reflexivity.
    + assert (key_eqb k k0 = false) as ->.
      { destruct (key_eqb k k0) eqn:E1; [|reflexivity].
        apply key_eqb_eq in E1. subst k0.
        rewrite (proj2 (key_eqb_eq k k) eq_refl) in E0. discriminate E0. }
      cbn [orb map fst]. rewrite IH.
      destruct (existsb (key_eqb k) (map fst d)); reflexivity.
Qed.


Lemma row_with_absent (ks : list string) (vs : list value) (k : string) :
  ~ In k ks -> dict_get (row_with ks vs) (Some k) = None.
Proof.
  revert vs. induction ks as [|k0 ks IH]; intros [|v vs] Hk; try reflexivity.
  cbn. rewrite (proj2 (String.eqb_neq k0 k)) by (intros ->; apply Hk; left; reflexivity).
  apply IH. intros Hin. apply Hk. right; exact Hin.
Qed.

Lemma row_with_app (ks ks' : list string) (vs vs' : list value) :
  List.length vs = List.length ks ->
  row_with ks vs ++ row_with ks' vs' = row_with (ks ++ ks') (vs ++ vs').
Proof.
  revert vs. induction ks as [|k0 ks IH]; intros [|v0 vs] Hlen; try discriminate Hlen.
  - reflexivity.
  - unfold row_with in *. cbn. f_equal. apply IH. now injection Hlen.
Qed.

Lemma row_with_keys (ks : list string) (vs : list value) :
  List.length vs = List.length ks -> dict_keys (row_with ks vs) = map Some ks.
Proof.
  revert vs. induction ks as [|k ks IH]; intros [|v vs] Hlen; try discriminate Hlen.
  - reflexivity.
  - unfold dict_keys, row_with in *. cbn. f_equal. apply IH. now injection Hlen.
Qed.

Lemma row_with_firstn (ks : list string) (vs : list value) :
  row_with ks vs = row_with (firstn (List.length vs) ks) vs.
Proof.
  revert vs. induction ks as [|k ks IH]; intros [|v vs]; try reflexivity.
  unfold row_with in *. cbn. f_equal. apply IH.
Qed.

Lemma dict_zip_from (ks : list string) (vs : record) (acc : dict) :
  NoDup ks -> (forall k, In k ks -> dict_get acc (Some k) = None) ->
  fold_left (fun d kv => dict_set d (Some (fst kv)) (VStr (snd kv))) (combine ks vs) acc
  = acc ++ row_with ks (map VStr vs).
Proof.
  revert vs acc. induction ks as [|k ks IH]; intros [|v vs] acc Hnd Hacc;
    cbn; rewrite ?app_nil_r; try reflexivity.
  inversion Hnd as [|? ? Hk Hnd']; subst.
  rewrite dict_set_fresh by (apply Hacc; left; reflexivity).
  rewrite IH; [unfold row_with; cbn; now rewrite <- app_assoc | exact Hnd' |].
  intros k' Hk'. rewrite dict_get_app, Hacc by (right; exact Hk'). cbn.
  rewrite (proj2 (String.eqb_neq k k')); [reflexivity|]. intros ->. contradiction.
Qed.

Lemma fold_none_from (ks : list string) (acc : dict) :
  NoDup ks -> (forall k, In k ks -> dict_get acc (Some k) = None) ->
  fold_left (fun d k => dict_set d (Some k) VNone) ks acc
  = acc ++ row_with ks (repeat VNone (List.length ks)).
Proof.
  revert acc. induction ks as [|k ks IH]; intros acc Hnd Hacc;
    cbn; rewrite ?app_nil_r; try reflexivity.
  inversion Hnd as [|? ? Hk Hnd']; subst.
  rewrite dict_set_fresh by (apply Hacc; left; reflexivity).
  rewrite IH; [unfold row_with; cbn; now rewrite <- app_assoc | exact Hnd' |].
  intros k' Hk'. rewrite dict_get_app, Hacc by (right; exact Hk'). cbn.
  rewrite (proj2 (String.eqb_neq k k')); [reflexivity|]. intros ->. contradiction.
Qed.

Lemma NoDup_firstn_skipn {A} (n : nat) (l : list A) (x : A) :
  NoDup l -> In x (skipn n l) -> ~ In x (firstn n l).
Proof.
  intros Hnd Hs Hf. rewrite <- (firstn_skipn n l) in Hnd.
  apply NoDup_app_remove_l in Hnd as Hnd2.
  revert Hnd Hf Hs. generalize (firstn n l) (skipn n l). intros l1 l2.
  induction l1 as [|a l1 IH]; cbn; [tauto|].
  intros Hnd [->|Hin] Hs.
  - inversion Hnd as [|? ? Hx _]; subst. apply Hx. apply in_or_app. right; exact Hs.
  - inversion Hnd; subst. now apply IH.
Qed.

Lemma NoDup_skipn {A} (n : nat) (l : list A) : NoDup l -> NoDup (skipn n l).
Proof.
  intros Hnd. rewrite <- (firstn_skipn n l) in Hnd.
  now apply NoDup_app_remove_l in Hnd.
Qed.

(** A record no longer than its header, as the reader yields it. *)
Lemma DictReader_row_values (fieldnames : list string) (r : record) :
  NoDup fieldnames -> (List.length r <= List.length fieldnames)%nat ->
  DictReader_row fieldnames r = row_with fieldnames (values fieldnames r).
Proof.
  intros Hnd Hlen. unfold DictReader_row, dict_zip, values.
  rewrite (proj2 (Nat.ltb_ge _ _)) by exact Hlen.
  rewrite dict_zip_from by (exact Hnd || reflexivity). cbn [app].
  destruct (List.length r <? List.length fieldnames)%nat eqn:Hlt.
  - rewrite fold_none_from.
    + rewrite (row_with_firstn fieldnames (map VStr r)), length_map.
      rewrite length_skipn, row_with_app by (rewrite length_firstn, length_map; lia).
      now rewrite firstn_skipn.
    + now apply NoDup_skipn.
    + intros k Hk. rewrite (row_with_firstn fieldnames (map VStr r)), length_map.
      apply row_with_absent. now apply NoDup_firstn_skipn.
  - apply Nat.ltb_ge in Hlt.
    replace (List.length fieldnames - List.length r)%nat with 0%nat by lia.
    cbn [repeat]. now rewrite app_nil_r.
Qed.

(** *** Columns the header lacks, fields the record lacks *)

Lemma dict_get_key_neq (d : dict) (k k' : key) (v : value) :
  k <> k' -> dict_get (dict_set d k v) k' = dict_get d k'.
Proof.
  intros Hne. rewrite dict_get_set.
  now rewrite (key_eqb_neq k k' Hne).
Qed.

Lemma dict_zip_absent (fieldnames : list string) (r : record) (k : string) :
  ~ In k fieldnames -> dict_get (dict_zip fieldnames r) (Some k) = None.
Proof.
  intros Hk. unfold dict_zip.
  assert (Hgen : forall (l : list (string * string)) acc,
             (forall kv, In kv l -> fst kv <> k) ->
             dict_get acc (Some k) = None ->
             dict_get (fold_left (fun d kv => dict_set d (Some (fst kv)) (VStr (snd kv)))
                         l acc) (Some k) = None).
  { induction l as [|kv l IH]; intros acc Hl Hacc; [exact Hacc|].
    cbn [fold_left]. apply IH; [intros kv' Hin; apply Hl; right; exact Hin|].
    rewrite dict_get_key_neq; [exact Hacc|].
    intros [= Heq]. exact (Hl kv (or_introl eq_refl) Heq). }
  apply Hgen; [|reflexivity].
  intros [a b] Hin Heq. cbn in Heq. subst a.
  apply in_combine_l in Hin. contradiction.
Qed.

Lemma In_skipn {A} (n : nat) (l : list A) (x : A) : In x (skipn n l) -> In x l.
Proof.
  revert l. induction n as [|n IH]; intros [|a l]; cbn; auto.
Qed.

Lemma DictReader_row_absent (fieldnames : list string) (r : record) (k : string) :
  ~ In k fieldnames -> dict_get (DictReader_row fieldnames r) (Some k) = None.
Proof.
  intros Hk. unfold DictReader_row.
  destruct (List.length fieldnames <? List.length r)%nat.
  - rewrite dict_get_key_neq by discriminate. now apply dict_zip_absent.
  - destruct (List.length r <? List.length fieldnames)%nat; [|now apply dict_zip_absent].
    assert (Hgen : forall (l : list string) acc,
               (forall k', In k' l -> k' <> k) ->
               dict_get acc (Some k) = None ->
               dict_get (fold_left (fun d k' => dict_set d (Some k') VNone) l acc)
                 (Some k) = None).
    { induction l as [|k' l IH]; intros acc Hl Hacc; [exact Hacc|].
      cbn [fold_left]. apply IH; [intros k'' Hin; apply Hl; right; exact Hin|].
      rewrite dict_get_key_neq; [exact Hacc|].
      intros [= Heq]. exact (Hl k' (or_introl eq_refl) Heq). }
    apply Hgen; [|now apply dict_zip_absent].
    intros k' Hin ->. apply Hk. exact (In_skipn _ _ _ Hin).
Qed.

Lemma fold_none_get (ks : list string) (k : string) :
  forall d,
  In k ks \/ dict_get d (Some k) = Some VNone ->
  dict_get (fold_left (fun d k' => dict_set d (Some k') VNone) ks d) (Some k) = Some VNone.
Proof.
  induction ks as [|k0 ks IH]; intros d H; cbn [fold_left].
  - destruct H as [[]|H]. exact H.
  - apply IH. rewrite dict_get_set. cbn [key_eqb].
    destruct (String.eqb_spec k0 k) as [->|Hne]; [right; reflexivity|].
    destruct H as [[Heq|Hin]|H]; [contradiction | left; exact Hin | right; exact H].
Qed.

Lemma skipn_nonempty {A} (n : nat) (l : list A) (x : A) :
  In x (skipn n l) -> (n < List.length l)%nat.
Proof.
  revert l. induction n as [|n IH]; intros [|a l]; cbn; try tauto; try lia.
  intros H. specialize (IH l H). lia.
Qed.

Lemma short_row_get (fieldnames : list string) (r : record) (k : string) :
  In k (skipn (List.length r) fieldnames) ->
  dict_get (DictReader_row fieldnames r) (Some k) = Some VNone.
Proof.
  intros Hk. pose proof (skipn_nonempty _ _ _ Hk) as Hlen.
  unfold DictReader_row.
  rewrite (proj2 (Nat.ltb_ge _ _)) by lia.
  rewrite (proj2 (Nat.ltb_lt _ _) Hlen).
  apply fold_none_get. left; exact Hk.
Qed.


(** *** Rows longer than the header *)

Lemma dict_keys_set_in (d : dict) (k : key) (v : value) (Q : key -> Prop) :
  Forall Q (dict_keys d) -> Q k -> Forall Q (dict_keys (dict_set d k v)).
Proof.
  intros Hd Hk. rewrite dict_keys_set.
  destruct (existsb (key_eqb k) (dict_keys d)); [exact Hd|].
  apply Forall_app. split; [exact Hd | constructor; [exact Hk | constructor]].
Qed.

Lemma dict_zip_keys (fieldnames : list string) (r : record) :
  Forall (header_key fieldnames) (dict_keys (dict_zip fieldnames r)).
Proof.
  unfold dict_zip.
  assert (Hgen : forall (l : list (string * string)) acc,
             (forall kv, In kv l -> In (fst kv) fieldnames) ->
             Forall (header_key fieldnames) (dict_keys acc) ->
             Forall (header_key fieldnames)
               (dict_keys (fold_left (fun d kv => dict_set d (Some (fst kv)) (VStr (snd kv)))
                             l acc))).
  { induction l as [|kv l IH]; intros acc Hl Hacc; [exact Hacc|].
    cbn [fold_left]. apply IH; [intros kv' Hin; apply Hl; right; exact Hin|].
    apply dict_keys_set_in; [exact Hacc|].
    exists (fst kv). split; [reflexivity | apply Hl; left; reflexivity]. }
  apply Hgen; [|constructor].
  intros [a b] Hin. exact (in_combine_l _ _ _ _ Hin).
Qed.

Lemma existsb_none (l : list key) (fieldnames : list string) :
  Forall (header_key fieldnames) l -> existsb (key_eqb None) l = false.
Proof.
  induction 1 as [|k l (n & -> & _) _ IH]; [reflexivity|]. exact IH.
Qed.

Lemma surplus_keys (fieldnames : list string) (r : record) (v : value) :
  (List.length fieldnames < List.length r)%nat ->
  exists ks ks',
    dict_keys (dict_set (DictReader_row fieldnames r) (Some "bbb_score") v)
    = ks ++ None :: ks' /\
    Forall (header_key (fieldnames ++ ["bbb_score"])) ks /\
    Forall (header_key (fieldnames ++ ["bbb_score"])) ks'.
Proof.
  intros Hlen. unfold DictReader_row.
  rewrite (proj2 (Nat.ltb_lt _ _) Hlen).
  pose proof (dict_zip_keys fieldnames r) as Hz.
  assert (Hw : Forall (header_key (fieldnames ++ ["bbb_score"]))
                 (dict_keys (dict_zip fieldnames r))).
  { eapply Forall_impl; [|exact Hz]. intros k (n & -> & Hn).
    exists n. split; [reflexivity | apply in_or_app; left; exact Hn]. }
  rewrite (dict_keys_set _ (Some "bbb_score")).
  rewrite (dict_keys_set _ None), (existsb_none _ _ Hz).
  destruct (existsb _ _).
  - exists (dict_keys (dict_zip fieldnames r)), []. repeat split; [exact Hw | constructor].
  - exists (dict_keys (dict_zip fieldnames r)), [Some "bbb_score"].
    rewrite <- app_assoc. repeat split; [exact Hw|].
    constructor; [|constructor].
    exists "bbb_score". split; [reflexivity | apply in_or_app; right; left; reflexivity].
Qed.

Lemma filter_none {A} (p : A -> bool) (l : list A) :
  (forall x, In x l -> p x = false) -> filter p l = [].
Proof.
  induction l as [|a l IH]; intros H; cbn; [reflexivity|].
  rewrite (H a) by (left; reflexivity). apply IH. intros x Hx. apply H. right; exact Hx.
Qed.

Lemma filter_header_keys (fieldnames : list string) (ks : list key) :
  Forall (header_key fieldnames) ks ->
  filter (fun k => negb (existsb (fun n => key_eqb k (Some n)) fieldnames)) ks = [].
Proof.
  intros H. apply filter_none. intros k Hk.
  rewrite Forall_forall in H. destruct (H k Hk) as (n & -> & Hn).
  apply negb_false_iff, existsb_exists. exists n. split; [exact Hn|].
  cbn. apply String.eqb_refl.
Qed.

Lemma none_not_header (fieldnames : list string) :
  existsb (fun n => key_eqb None (Some n)) fieldnames = false.
Proof. induction fieldnames; [reflexivity | exact IHfieldnames]. Qed.


Section WithPlatform.
Context {P : Platform}.

(** *** The writer *)

Lemma dict_to_list_raises (fieldnames : list string) (d : dict) (e : exn) :
  dict_to_list fieldnames d = Raise e -> cls e = ValueError.
Proof.
  unfold dict_to_list, raise.
  destruct (filter _ (dict_keys d)); intros [= <-]. reflexivity.
Qed.

Lemma writerows_cases (fieldnames : list string) (rows : list dict) :
  forall written err,
  writerows fieldnames rows = (written, err) ->
  match err with
  | Some e => cls e = ValueError /\ (List.length written < List.length rows)%nat
  | None => List.length written = List.length rows
  end.
Proof.
  induction rows as [|d rows IH]; intros written err; cbn [writerows].
  - intros [= <- <-]. reflexivity.
  - destruct (dict_to_list fieldnames d) as [r|e] eqn:Hd.
    + destruct (writerows fieldnames rows) as [wr er].
      intros [= <- <-]. specialize (IH wr er eq_refl).
      destruct er; cbn [List.length]; [split; [tauto | lia] | lia].
    + intros [= <- <-]. split; [exact (dict_to_list_raises _ _ _ Hd) | cbn; lia].
Qed.


Lemma row_with_fields (ks : list string) (vs : list value) :
  NoDup ks -> List.length vs = List.length ks ->
  map (fun n => match dict_get (row_with ks vs) (Some n) with
                | Some v => field_text v
                | None => ""
                end) ks = map field_text vs.
Proof.
  revert vs. induction ks as [|k ks IH]; intros [|v vs] Hnd Hlen; try discriminate Hlen.
  - reflexivity.
  - inversion Hnd as [|? ? Hk Hnd']; subst.
    cbn. rewrite String.eqb_refl. cbn. f_equal.
    etransitivity; [|apply (IH vs Hnd'); now injection Hlen].
    apply map_ext_in. intros n Hn.
    rewrite (proj2 (String.eqb_neq k n)); [reflexivity|]. intros ->. contradiction.
Qed.

Lemma dict_to_list_row_with (fieldnames : list string) (vs : list value) :
  NoDup fieldnames -> List.length vs = List.length fieldnames ->
  dict_to_list fieldnames (row_with fieldnames vs) = Ok (map field_text vs).
Proof.
  intros Hnd Hlen. unfold dict_to_list.
  rewrite row_with_keys by exact Hlen.
  rewrite filter_none.
  - now rewrite row_with_fields.
  - intros k Hk. apply in_map_iff in Hk as (n & <- & Hn).
    apply negb_false_iff, existsb_exists. exists n. split; [exact Hn|].
    cbn. apply String.eqb_refl.
Qed.

Lemma values_text (fieldnames : list string) (r : record) :
  map field_text (values fieldnames r) = pad fieldnames r.
Proof.
  unfold values, pad. rewrite map_app, map_map, map_id. f_equal.
  induction (List.length fieldnames - List.length r)%nat as [|n IH]; cbn; congruence.
Qed.

Lemma values_length (fieldnames : list string) (r : record) :
  (List.length r <= List.length fieldnames)%nat ->
  List.length (values fieldnames r) = List.length fieldnames.
Proof.
  intros H. unfold values. rewrite length_app, length_map, repeat_length. lia.
Qed.

(** A scored row no longer than the header is written as its fields, the
    empty fields it lacks, and the score. *)
Lemma kept_row (fieldnames : list string) (r : record) (score : string) :
  NoDup fieldnames -> ~ In "bbb_score" fieldnames ->
  (List.length r <= List.length fieldnames)%nat ->
  dict_to_list (fieldnames ++ ["bbb_score"])
    (dict_set (DictReader_row fieldnames r) (Some "bbb_score") (VStr score))
  = Ok (pad fieldnames r ++ [score]).
Proof.
  intros Hnd Hbbb Hlen. rewrite DictReader_row_values by assumption.
  rewrite dict_set_fresh by now apply row_with_absent.
  change [(Some "bbb_score", VStr score)] with (row_with ["bbb_score"] [VStr score]).
  rewrite row_with_app by now apply values_length.
  rewrite dict_to_list_row_with.
  - now rewrite map_app, values_text.
  - apply NoDup_app; [exact Hnd | repeat constructor; intros [] | ].
    intros a Ha [<- | []]. contradiction.
  - rewrite !length_app, values_length by exact Hlen. reflexivity.
Qed.

(** A scored row longer than the header is refused. *)
Lemma surplus_row (fieldnames : list string) (r : record) (score : string) :
  (List.length fieldnames < List.length r)%nat ->
  dict_to_list (fieldnames ++ ["bbb_score"])
    (dict_set (DictReader_row fieldnames r) (Some "bbb_score") (VStr score))
  = raise ValueError "dict contains fields not in fieldnames: None".
Proof.
  intros Hlen.
  destruct (surplus_keys fieldnames r (VStr score) Hlen) as (ks & ks' & Hk & H1 & H2).
  unfold dict_to_list. rewrite Hk, filter_app. cbn [filter].
  rewrite none_not_header. cbn [negb].
  rewrite !filter_header_keys by assumption. reflexivity.
Qed.

(** *** What a row can raise *)

Lemma py_float_raises (v : value) (e : exn) :
  py_float v = Raise e -> cls e = ValueError \/ cls e = TypeError.
Proof.
  destruct v as [s| |l]; cbn; unfold raise.
  - destruct (str_to_float s); intros [= <-]; auto.
  - intros [= <-]; auto.
  - intros [= <-]; auto.
Qed.

Lemma float_field_raises (row : dict) (k : string) (e : exn) :
  float_field row k = Raise e ->
  cls e = KeyError \/ cls e = ValueError \/ cls e = TypeError.
Proof.
  unfold float_field, getitem, raise.
  destruct (dict_get row (Some k)) as [v|]; cbn [bind].
  - intros H. destruct (py_float_raises v e H); auto.
  - intros [= <-]; auto.
Qed.

Lemma int_field_raises (row : dict) (k : string) (e : exn) :
  int_field row k = Raise e ->
  cls e = KeyError \/ cls e = ValueError \/ cls e = TypeError \/ cls e = OverflowError.
Proof.
  unfold int_field.
  destruct (float_field row k) as [x|e0] eqn:Hf; cbn [bind].
  - unfold int_of_float, raise. destruct (Prim2SF x); intros [= <-]; auto.
  - intros [= <-]. destruct (float_field_raises row k e0 Hf) as [H|[H|H]]; auto.
Qed.

Lemma score_row_raises (row : dict) (e : exn) :
  score_row row = Raise e ->
  cls e = KeyError \/ cls e = ValueError \/ cls e = TypeError \/
  cls e = OverflowError \/ cls e = ZeroDivisionError.
Proof.
  unfold score_row.
  repeat match goal with
  | |- bind (int_field ?r ?k) _ = _ -> _ =>
      let H := fresh "H" in
      destruct (int_field r k) eqn:H; cbn [bind];
      [|intros [= <-]; apply int_field_raises in H; tauto]
  | |- bind (float_field ?r ?k) _ = _ -> _ =>
      let H := fresh "H" in
      destruct (float_field r k) eqn:H; cbn [bind];
      [|intros [= <-]; apply float_field_raises in H; tauto]
  end.
  intros Hs. apply ScorerMore.scorer_raises in Hs. tauto.
Qed.

Lemma five_classes (e : exn) :
  cls e = KeyError \/ cls e = ValueError \/ cls e = TypeError \/
  cls e = OverflowError \/ cls e = ZeroDivisionError ->
  caught_by [FileNotFoundError] e = false /\ caught_by [Exception] e = true /\
  caught_by row_handler e =
  match cls e with KeyError | ValueError => true | _ => false end.
Proof.
  unfold caught_by. intros [-> | [-> | [-> | [-> | ->]]]]; repeat split; reflexivity.
Qed.

Lemma failing_field_fails_row (row : dict) (k : string) (e0 : exn) :
  In k descriptor_columns -> float_field row k = Raise e0 ->
  exists e, score_row row = Raise e.
Proof.
  intros Hk H. unfold score_row, int_field.
  repeat match goal with
         | |- context [float_field row ?k'] =>
             let E := fresh "E" in
             destruct (float_field row k') eqn:E; cbn [bind];
             [|eexists; reflexivity]
         | |- context [bind (int_of_float ?x) _] =>
             destruct (int_of_float x); cbn [bind]; [|eexists; reflexivity]
         end.
  exfalso. cbn in Hk.
  repeat (destruct Hk as [<- | Hk]; [congruence|]). exact Hk.
Qed.

Lemma missing_column_row (fieldnames : list string) (k : string) (r : record) :
  In k descriptor_columns -> ~ In k fieldnames ->
  exists e, score_row (DictReader_row fieldnames r) = Raise e.
Proof.
  intros Hk Habs.
  apply (failing_field_fails_row _ k (mkExn KeyError (str_repr k)) Hk).
  unfold float_field, getitem. now rewrite DictReader_row_absent.
Qed.


(** A blank record could not be scored.  (The reader passes it over.) *)
Lemma blank_row_raises (fieldnames : list string) :
  exists e, score_row (DictReader_row fieldnames []) = Raise e.
Proof.
  assert (Hd : In "aro_r" descriptor_columns) by (left; reflexivity).
  destruct (in_dec string_dec "aro_r" fieldnames) as [Hin|Hout].
  - apply (failing_field_fails_row _ "aro_r"
             (mkExn TypeError
                "float() argument must be a string or a real number, not 'NoneType'") Hd).
    unfold float_field, getitem. rewrite short_row_get; [reflexivity | exact Hin].
  - exact (missing_column_row fieldnames "aro_r" [] Hd Hout).
Qed.

Lemma kept_blank (fieldnames : list string) : kept fieldnames [] = [].
Proof. unfold kept. now destruct (blank_row_raises fieldnames) as [e ->]. Qed.

Lemma scored_blank (fieldnames : list string) : scored fieldnames [] = [].
Proof. unfold scored. now destruct (blank_row_raises fieldnames) as [e ->]. Qed.

Lemma kept_none (fieldnames : list string) (rs : list record) :
  (forall r, In r rs -> exists e, score_row (DictReader_row fieldnames r) = Raise e) ->
  flat_map (kept fieldnames) rs = [].
Proof.
  induction rs as [|r rs IH]; intros Hall; [reflexivity|].
  cbn [flat_map]. unfold kept at 1.
  destruct (Hall r (or_introl eq_refl)) as [e ->].
  apply IH. intros r' Hin. apply Hall. right; exact Hin.
Qed.

Lemma writerows_kept (fieldnames : list string) (rs : list record) :
  NoDup fieldnames -> ~ In "bbb_score" fieldnames ->
  (forall r score, In r rs -> score_row (DictReader_row fieldnames r) = Ok score ->
                   (List.length r <= List.length fieldnames)%nat) ->
  writerows (fieldnames ++ ["bbb_score"]) (flat_map (kept fieldnames) rs)
  = (flat_map (scored fieldnames) rs, None).
Proof.
  intros Hnd Hbbb. induction rs as [|r rs IH]; intros Hlen; [reflexivity|].
  cbn [flat_map]. unfold kept at 1, scored at 1.
  destruct (score_row (DictReader_row fieldnames r)) as [score|e] eqn:Hs.
  - cbn [app writerows].
    rewrite (kept_row fieldnames r (format_6f score) Hnd Hbbb
               (Hlen r score (or_introl eq_refl) Hs)).
    rewrite IH by (intros r' sc Hin; apply Hlen; right; exact Hin). reflexivity.
  - cbn [app]. apply IH. intros r' sc Hin. apply Hlen. right; exact Hin.
Qed.

(** Conversely, when the writer takes every kept row, none was longer than
    the header and the rows written are the scored ones. *)
Lemma writerows_written (fieldnames : list string) (rs : list record)
    (written : list record) :
  NoDup fieldnames -> ~ In "bbb_score" fieldnames ->
  writerows (fieldnames ++ ["bbb_score"]) (flat_map (kept fieldnames) rs) = (written, None) ->
  written = flat_map (scored fieldnames) rs.
Proof.
  intros Hnd Hbbb. revert written. induction rs as [|r rs IH]; intros written.
  - cbn. now intros [= <-].
  - cbn [flat_map]. unfold kept at 1, scored at 1.
    destruct (score_row (DictReader_row fieldnames r)) as [score|e] eqn:Hs;
      [|cbn [app]; apply IH].
    cbn [app writerows].
    destruct (Nat.le_gt_cases (List.length r) (List.length fieldnames)) as [Hle|Hgt].
    + rewrite kept_row by assumption.
      destruct (writerows _ (flat_map (kept fieldnames) rs)) as [wr er] eqn:Hw.
      intros [= <- ->]. now rewrite (IH wr eq_refl).
    + rewrite surplus_row by exact Hgt. discriminate.
Qed.

End WithPlatform.

End RowFacts.

(** ** Printing and the loop over the rows *)

Module LoopFacts.

Local Open Scope string_scope.
Local Open Scope list_scope.

Section WithPlatform.
Context {P : Platform}.

(** *** [print] *)

Lemma print_ok (w : world) (line : string) :
  stdout_takes_all -> print w line = (Ok tt, writeln w line).
Proof. intros Hall. unfold print. now rewrite Hall. Qed.

Lemma print_inv (w : world) (line : string) (r : result unit) (w1 : world) :
  print w line = (r, w1) ->
  (r = Ok tt /\ w1 = writeln w line /\ stdout_error (stdout w) line = None) \/
  (exists e, r = Raise e /\ w1 = w /\ stdout_error (stdout w) line = Some e).
Proof.
  unfold print. destruct (stdout_error (stdout w) line) as [e|] eqn:He;
    intros [= <- <-]; [right; eauto | left; auto].
Qed.

Lemma print_world (s : list string) (line : string) :
  exists res lines,
    forall f, print (mkWorld f s) line = (res, mkWorld f (s ++ lines)).
Proof.
  unfold print, writeln. cbn [stdout fs].
  destruct (stdout_error s line) as [e|].
  - exists (Raise e), []. intros f. now rewrite app_nil_r.
  - exists (Ok tt), [line]. reflexivity.
Qed.

Lemma last_writeln (w : world) (line : string) : last (stdout (writeln w line)) "" = line.
Proof. unfold writeln. cbn [stdout]. apply last_last. Qed.

(** *** One row *)

Lemma process_row_takes_all (row : dict) (row_num : Z) (acc : list dict) (w : world) :
  stdout_takes_all ->
  process_row row row_num acc w =
  match score_row row with
  | Ok score =>
      (Ok (acc ++ [dict_set row (Some "bbb_score") (VStr (format_6f score))]),
       writeln w ("Row " ++ str_int row_num ++ ": BBB Score = " ++ format_6f score)%string)
  | Raise e =>
      if caught_by row_handler e
      then (Ok acc, writeln w ("Warning: Skipping row " ++ str_int row_num
                               ++ " due to error: " ++ msg e)%string)
      else (Raise e, w)
  end.
Proof.
  intros Hall. unfold process_row, try_row.
  destruct (score_row row) as [score|e].
  - now rewrite print_ok.
  - change (caught_by [ValueError; KeyError] e) with (caught_by row_handler e).
    destruct (caught_by row_handler e); [now rewrite print_ok | reflexivity].
Qed.

Lemma process_row_world (row : dict) (row_num : Z) (acc : list dict) (s : list string) :
  exists res lines,
    forall f, process_row row row_num acc (mkWorld f s) = (res, mkWorld f (s ++ lines)).
Proof.
  unfold process_row, try_row.
  destruct (score_row row) as [score|e].
  - destruct (print_world s ("Row " ++ str_int row_num ++ ": BBB Score = "
                             ++ format_6f score)%string) as (r1 & l1 & H1).
    destruct r1 as [[]|e1].
    + eexists _, l1. intros f. rewrite H1. reflexivity.
    + destruct (caught_by [ValueError; KeyError] e1) eqn:Hc.
      * destruct (print_world (s ++ l1)
                    ("Warning: Skipping row " ++ str_int row_num
                     ++ " due to error: " ++ msg e1)%string) as (r2 & l2 & H2).
        destruct r2 as [[]|e2]; eexists _, (l1 ++ l2); intros f;
          rewrite H1, Hc, H2, app_assoc; reflexivity.
      * eexists _, l1. intros f. rewrite H1, Hc. reflexivity.
  - destruct (caught_by [ValueError; KeyError] e).
    + destruct (print_world s ("Warning: Skipping row " ++ str_int row_num
                               ++ " due to error: " ++ msg e)%string) as (r2 & l2 & H2).
      destruct r2 as [[]|e2]; eexists _, l2; intros f; rewrite H2; reflexivity.
    + eexists _, []. intros f. rewrite app_nil_r. reflexivity.
Qed.

(** The rows a turn of the loop leaves: a scored row is kept whatever its
    [print] does. *)
Lemma process_row_ok (row : dict) (row_num : Z) (acc rows : list dict) (w w1 : world) :
  process_row row row_num acc w = (Ok rows, w1) ->
  match score_row row with
  | Ok score => rows = acc ++ [dict_set row (Some "bbb_score") (VStr (format_6f score))]
  | Raise e => rows = acc /\ caught_by row_handler e = true
  end.
Proof.
  unfold process_row, try_row.
  destruct (score_row row) as [score|e].
  - destruct (print w _) as [[[]|e1] w2]; [now intros [= <- <-]|].
    destruct (caught_by [ValueError; KeyError] e1); [|discriminate].
    destruct (print w2 _) as [[[]|e2] w3]; [now intros [= <- <-] | discriminate].
  - change (caught_by [ValueError; KeyError] e) with (caught_by row_handler e).
    destruct (caught_by row_handler e); [|discriminate].
    destruct (print w _) as [[[]|e2] w3]; [now intros [= <- <-] | discriminate].
Qed.

Lemma process_row_raises (row : dict) (row_num : Z) (acc : list dict) (w w1 : world)
    (e : exn) :
  process_row row row_num acc w = (Raise e, w1) ->
  (score_row row = Raise e /\ caught_by row_handler e = false) \/
  (exists printed line, stdout_error printed line = Some e).
Proof.
  unfold process_row, try_row.
  destruct (score_row row) as [score|e0].
  - destruct (print w _) as [[[]|e1] w2] eqn:H1; [discriminate|].
    apply print_inv in H1 as [(H & _) | (e' & [= <-] & -> & H1)]; [discriminate H|].
    destruct (caught_by [ValueError; KeyError] e1).
    + destruct (print w _) as [[[]|e2] w3] eqn:H2; [discriminate|].
      apply print_inv in H2 as [(H & _) | (e' & [= <-] & -> & H2)]; [discriminate H|].
      intros [= <- <-]. right; eauto.
    + intros [= <- <-]. right; eauto.
  - change (caught_by [ValueError; KeyError] e0) with (caught_by row_handler e0).
    destruct (caught_by row_handler e0) eqn:Hc.
    + destruct (print w _) as [[[]|e2] w3] eqn:H2; [discriminate|].
      apply print_inv in H2 as [(H & _) | (e' & [= <-] & -> & H2)]; [discriminate H|].
      intros [= <- <-]. right; eauto.
    + intros [= <- <-]. left. split; [reflexivity | exact Hc].
Qed.

(** *** The loop *)

(** The loop reads the world's stdout only, and leaves its files. *)
Lemma process_rows_world (fieldnames : list string) (records : list record)
    (broken : option exn) :
  forall row_num acc s,
  exists res lines,
    forall f, process_rows fieldnames records broken row_num acc (mkWorld f s)
              = (res, mkWorld f (s ++ lines)).
Proof.
  induction records as [|r rs IH]; intros row_num acc s.
  - exists (match broken with Some e => Raise e | None => Ok acc end), [].
    intros f. rewrite app_nil_r. cbn. destruct broken; reflexivity.
  - destruct r as [|x r]; [apply IH|].
    cbn [process_rows].
    destruct (process_row_world (DictReader_row fieldnames (x :: r)) row_num acc s)
      as (r1 & l1 & H1).
    destruct r1 as [rows|e].
    + destruct (IH (row_num + 1)%Z rows (s ++ l1)) as (res & l2 & H2).
      exists res, (l1 ++ l2). intros f. rewrite H1, H2, app_assoc. reflexivity.
    + exists (Raise e), l1. intros f. rewrite H1. reflexivity.
Qed.

Lemma process_rows_frame (fieldnames : list string) (records : list record)
    (broken : option exn) (row_num : Z) (acc : list dict) (w : world) :
  exists res lines,
    process_rows fieldnames records broken row_num acc w
    = (res, mkWorld (fs w) (stdout w ++ lines)).
Proof.
  destruct (process_rows_world fieldnames records broken row_num acc (stdout w))
    as (res & lines & H).
  exists res, lines. rewrite <- (H (fs w)). now destruct w.
Qed.

(** When the loop runs to its end, the rows it leaves are the scored ones,
    the input was read to its end, and every row that failed was caught. *)
Lemma process_rows_rows (fieldnames : list string) (records : list record)
    (broken : option exn) :
  forall row_num acc w rows w1,
  process_rows fieldnames records broken row_num acc w = (Ok rows, w1) ->
  rows = acc ++ flat_map (kept fieldnames) records /\
  broken = None /\
  forall r e, In r records -> nonblank r = true ->
              score_row (DictReader_row fieldnames r) = Raise e ->
              caught_by row_handler e = true.
Proof.
  induction records as [|r rs IH]; intros row_num acc w rows w1.
  - cbn. destruct broken; [discriminate|]. intros [= <- <-].
    rewrite app_nil_r. repeat split. intros r e [].
  - destruct r as [|x r].
    + cbn [process_rows flat_map]. rewrite RowFacts.kept_blank. cbn [app].
      intros H. destruct (IH _ _ _ _ _ H) as (Hr & Hb & Hc).
      repeat split; [exact Hr | exact Hb|].
      intros r e [<- | Hin] Hnb; [discriminate Hnb | now apply Hc].
    + cbn [process_rows flat_map].
      destruct (process_row _ row_num acc w) as [[rows1|e1] w2] eqn:H1; [|discriminate].
      apply process_row_ok in H1.
      intros H. destruct (IH _ _ _ _ _ H) as (Hr & Hb & Hc).
      unfold kept at 1.
      destruct (score_row (DictReader_row fieldnames (x :: r))) as [score|e] eqn:Hs.
      * subst rows1. repeat split; [now rewrite Hr, <- app_assoc | exact Hb|].
        intros r' e' [<- | Hin] Hnb; [congruence | now apply Hc].
      * destruct H1 as [-> Hcaught]. repeat split; [exact Hr | exact Hb|].
        intros r' e' [<- | Hin] Hnb; [|now apply Hc].
        intros He'. rewrite Hs in He'. now injection He' as <-.
Qed.

Lemma process_rows_raises (fieldnames : list string) (records : list record)
    (broken : option exn) (e : exn) :
  forall row_num acc w w1,
  process_rows fieldnames records broken row_num acc w = (Raise e, w1) ->
  broken = Some e \/
  (exists r, In r records /\ nonblank r = true /\
             score_row (DictReader_row fieldnames r) = Raise e /\
             caught_by row_handler e = false) \/
  (exists printed line, stdout_error printed line = Some e).
Proof.
  induction records as [|r rs IH]; intros row_num acc w w1.
  - cbn. destruct broken; intros [= <- <-]; auto.
  - assert (Hrest : forall row_num acc w w1,
              process_rows fieldnames rs broken row_num acc w = (Raise e, w1) ->
              broken = Some e \/
              (exists r', In r' (r :: rs) /\ nonblank r' = true /\
                          score_row (DictReader_row fieldnames r') = Raise e /\
                          caught_by row_handler e = false) \/
              (exists printed line, stdout_error printed line = Some e)).
    { intros n a w' w1' H.
      destruct (IH _ _ _ _ H) as [Hb | [(r' & Hin & Hr') | Hp]]; auto.
      right; left. exists r'. split; [right; exact Hin | exact Hr']. }
    destruct r as [|x r]; cbn [process_rows]; [apply Hrest|].
    destruct (process_row _ row_num acc w) as [[rows1|e1] w2] eqn:H1; [apply Hrest|].
    intros [= <- <-].
    destruct (process_row_raises _ _ _ _ _ _ H1) as [[Hs Hc] | Hp]; [|auto].
    right; left. exists (x :: r). repeat split; [left; reflexivity | exact Hs | exact Hc].
Qed.

(** On a stdout that takes every line, the loop over rows that are scored
    or skipped runs to the end of the input. *)
Lemma process_rows_runs (fieldnames : list string) (records : list record)
    (broken : option exn) :
  stdout_takes_all ->
  (forall r e, In r records -> nonblank r = true ->
               score_row (DictReader_row fieldnames r) = Raise e ->
               caught_by row_handler e = true) ->
  forall row_num acc w,
  exists lines,
    process_rows fieldnames records broken row_num acc w =
    (match broken with
     | Some e => Raise e
     | None => Ok (acc ++ flat_map (kept fieldnames) records)
     end, mkWorld (fs w) (stdout w ++ lines)).
Proof.
  intros Hall. induction records as [|r rs IH]; intros Hcaught row_num acc w.
  - exists []. cbn. rewrite !app_nil_r. destruct broken, w; reflexivity.
  - assert (Hcaught' : forall r' e, In r' rs -> nonblank r' = true ->
              score_row (DictReader_row fieldnames r') = Raise e ->
              caught_by row_handler e = true)
      by (intros r' e Hin; apply Hcaught; right; exact Hin).
    specialize (IH Hcaught').
    destruct r as [|x r].
    + cbn [process_rows flat_map]. rewrite RowFacts.kept_blank. apply IH.
    + cbn [process_rows flat_map]. rewrite process_row_takes_all by exact Hall.
      unfold kept at 1.
      destruct (score_row (DictReader_row fieldnames (x :: r))) as [score|e] eqn:Hs.
      * match goal with
        | |- context [process_rows _ _ _ ?n ?a (writeln w ?l)] =>
            destruct (IH n a (writeln w l)) as [lines Hl]; exists (l :: lines)
        end.
        rewrite Hl. cbn [writeln fs stdout]. rewrite <- !app_assoc. reflexivity.
      * rewrite (Hcaught (x :: r) e (or_introl eq_refl) eq_refl Hs).
        match goal with
        | |- context [process_rows _ _ _ ?n ?a (writeln w ?l)] =>
            destruct (IH n a (writeln w l)) as [lines Hl]; exists (l :: lines)
        end.
        rewrite Hl. cbn [writeln fs stdout app]. rewrite <- !app_assoc. reflexivity.
Qed.

(** And it stops at the first row whose error is not caught. *)
Lemma process_rows_stops (fieldnames : list string) (pre : list record) (r : record)
    (post : list record) (broken : option exn) (e : exn) :
  stdout_takes_all ->
  nonblank r = true ->
  (forall r' e', In r' pre -> nonblank r' = true ->
                 score_row (DictReader_row fieldnames r') = Raise e' ->
                 caught_by row_handler e' = true) ->
  score_row (DictReader_row fieldnames r) = Raise e ->
  caught_by row_handler e = false ->
  forall row_num acc w,
  exists lines,
    process_rows fieldnames (pre ++ r :: post) broken row_num acc w
    = (Raise e, mkWorld (fs w) (stdout w ++ lines)).
Proof.
  intros Hall Hr Hpre He Hc.
  induction pre as [|r0 pre IH]; intros row_num acc w.
  - exists []. rewrite app_nil_r. cbn [app].
    destruct r as [|x r]; [discriminate Hr|].
    cbn [process_rows]. rewrite process_row_takes_all by exact Hall.
    rewrite He, Hc. now destruct w.
  - assert (Hpre' : forall r' e', In r' pre -> nonblank r' = true ->
              score_row (DictReader_row fieldnames r') = Raise e' ->
              caught_by row_handler e' = true)
      by (intros r' e' Hin; apply Hpre; right; exact Hin).
    specialize (IH Hpre').
    destruct r0 as [|x r0]; [apply IH|].
    cbn [app process_rows]. rewrite process_row_takes_all by exact Hall.
    destruct (score_row (DictReader_row fieldnames (x :: r0))) as [score|e0] eqn:Hs.
    + match goal with
      | |- context [process_rows _ _ _ ?n ?a (writeln w ?l)] =>
          destruct (IH n a (writeln w l)) as [lines Hl]; exists (l :: lines)
      end.
      rewrite Hl. cbn [writeln fs stdout]. now rewrite <- app_assoc.
    + rewrite (Hpre (x :: r0) e0 (or_introl eq_refl) eq_refl Hs).
      match goal with
      | |- context [process_rows _ _ _ ?n ?a (writeln w ?l)] =>
          destruct (IH n a (writeln w l)) as [lines Hl]; exists (l :: lines)
      end.
      rewrite Hl. cbn [writeln fs stdout]. now rewrite <- app_assoc.
Qed.

Lemma process_rows_blank (fieldnames : list string) (records : list record)
    (broken : option exn) :
  forall row_num acc w,
  process_rows fieldnames (filter nonblank records) broken row_num acc w
  = process_rows fieldnames records broken row_num acc w.
Proof.
  induction records as [|r rs IH]; intros row_num acc w; [reflexivity|].
  destruct r as [|x r]; cbn [filter nonblank]; [cbn [process_rows]; apply IH|].
  cbn [process_rows].
  destruct (process_row _ row_num acc w) as [[rows1|e1] w2]; [apply IH | reflexivity].
Qed.

End WithPlatform.

Lemma terminal_takes_all : stdout_takes_all (P := Sample.platform).
Proof. intros printed line. reflexivity. Qed.

End LoopFacts.

(** ** A run of [process_csv] *)

Module RunFacts.

Local Open Scope string_scope.
Local Open Scope list_scope.

Lemma handler_order (e : exn) :
  caught_by [FileNotFoundError] e = true -> caught_by [Exception] e = true.
Proof. unfold caught_by. destruct (cls e); cbn; congruence. Qed.

Lemma caught_exception (e : exn) :
  caught_by [Exception] e = issubclass (cls e) Exception.
Proof. unfold caught_by. cbn [existsb]. apply orb_false_r. Qed.

Section WithPlatform.
Context {P : Platform}.

(** The two [except] clauses print one line, [diagnostic], for what they
    catch. *)
Lemma process_csv_cases (input_file output_file : string) (w : world) :
  match process_csv_try input_file output_file w with
  | (Ok _, w1) => process_csv input_file output_file w = (Ok tt, w1)
  | (Raise e, w1) =>
      process_csv input_file output_file w =
      if caught_by [Exception] e then print w1 (diagnostic input_file e)
      else (Raise e, w1)
  end.
Proof.
  unfold process_csv, diagnostic.
  destruct (process_csv_try input_file output_file w) as [[[]|e] w1]; [reflexivity|].
  destruct (caught_by [FileNotFoundError] e) eqn:Hf; [|reflexivity].
  now rewrite (handler_order e Hf).
Qed.

(** *** The block that writes the output *)

Lemma write_results_takes_all (output_file : string) (fieldnames : list string)
    (rows : list dict) (w : world) :
  stdout_takes_all ->
  write_results output_file fieldnames rows w =
  match open_write w output_file with
  | Raise e => (Raise e, w)
  | Ok _ =>
      let '(written, err) := writerows fieldnames rows in
      let w1 := store w output_file (Csv (fieldnames :: written) None) in
      match err with
      | Some e => (Raise e, w1)
      | None =>
          (Ok tt,
           writeln (writeln w1 (newline ++ "Successfully processed "
                                ++ str_int (Z.of_nat (List.length rows)) ++ " rows")%string)
             ("Results saved to: " ++ output_file)%string)
      end
  end.
Proof.
  intros Hall. unfold write_results.
  destruct (open_write w output_file); [|reflexivity].
  destruct (writerows fieldnames rows) as [written [e|]]; [reflexivity|].
  now rewrite !LoopFacts.print_ok.
Qed.

Lemma write_results_state (output_file : string) (fieldnames : list string)
    (rows : list dict) (w : world) :
  exists lines,
    stdout (snd (write_results output_file fieldnames rows w)) = stdout w ++ lines /\
    forall p, p <> output_file ->
              fs (snd (write_results output_file fieldnames rows w)) p = fs w p.
Proof.
  unfold write_results.
  destruct (open_write w output_file);
    [|exists []; rewrite app_nil_r; split; reflexivity].
  destruct (writerows fieldnames rows) as [written err].
  assert (Hfs : forall p, p <> output_file ->
            (if String.eqb p output_file
             then Csv (fieldnames :: written) None else fs w p) = fs w p)
    by (intros p Hp; now rewrite (proj2 (String.eqb_neq p output_file) Hp)).
  destruct err as [e|]; [exists []; rewrite app_nil_r; split; [reflexivity | exact Hfs]|].
  unfold print, store, writeln. cbn [stdout fs].
  destruct (stdout_error (stdout w) _);
    [exists []; rewrite app_nil_r; split; [reflexivity | exact Hfs]|].
  cbn [stdout fs].
  destruct (stdout_error _ _); cbn [snd stdout fs];
    (eexists; split; [rewrite <- ?app_assoc; reflexivity | exact Hfs]).
Qed.

Lemma write_results_ok (output_file : string) (fieldnames : list string)
    (rows : list dict) (w w' : world) :
  write_results output_file fieldnames rows w = (Ok tt, w') ->
  exists written,
    open_write w output_file = Ok tt /\
    writerows fieldnames rows = (written, None) /\
    w' = writeln (writeln (store w output_file (Csv (fieldnames :: written) None))
                    (newline ++ "Successfully processed "
                     ++ str_int (Z.of_nat (List.length rows)) ++ " rows")%string)
           ("Results saved to: " ++ output_file)%string.
Proof.
  unfold write_results.
  destruct (open_write w output_file) as [[]|e]; [|discriminate].
  destruct (writerows fieldnames rows) as [written [e|]]; [discriminate|].
  destruct (print _ _) as [[[]|e1] w2] eqn:H1; [|discriminate].
  apply LoopFacts.print_inv in H1 as [(_ & -> & _) | (e & H & _)]; [|discriminate H].
  intros H2. apply LoopFacts.print_inv in H2 as [(_ & -> & _) | (e & H & _)];
    [|discriminate H].
  exists written. repeat split.
Qed.

Lemma write_results_raises (output_file : string) (fieldnames : list string)
    (rows : list dict) (w w' : world) (e : exn) :
  write_results output_file fieldnames rows w = (Raise e, w') ->
  fs w output_file = Unopenable e \/ cls e = ValueError \/
  exists printed line, stdout_error printed line = Some e.
Proof.
  unfold write_results, open_write.
  destruct (fs w output_file) as [|eo|rs b] eqn:Hout;
    try (intros [= <- <-]; left; reflexivity);
    (destruct (writerows fieldnames rows) as [written [ew|]] eqn:Hw;
     [intros [= <- <-]; apply RowFacts.writerows_cases in Hw; tauto|]);
    (destruct (print _ _) as [[[]|e1] w2] eqn:H1;
     [intros H2; apply LoopFacts.print_inv in H2 as [(H & _) | (e' & [= <-] & _ & H2)];
      [discriminate H | right; right; eauto]
     |intros [= <- <-];
      apply LoopFacts.print_inv in H1 as [(H & _) | (e' & [= <-] & _ & H1)];
      [discriminate H | right; right; eauto]]).
Qed.

(** *** The body of the [try] *)

Lemma process_csv_try_state (input_file output_file : string) (w : world) :
  exists lines,
    stdout (snd (process_csv_try input_file output_file w)) = stdout w ++ lines /\
    forall p, p <> output_file ->
              fs (snd (process_csv_try input_file output_file w)) p = fs w p.
Proof.
  unfold process_csv_try.
  destruct (open_read w input_file) as [[[|fieldnames records] broken]|e].
  - destruct broken.
    + exists []. cbn. rewrite app_nil_r. split; reflexivity.
    + unfold print. destruct (stdout_error _ _); cbn [snd writeln stdout fs].
      * exists []. rewrite app_nil_r. split; reflexivity.
      * eexists. split; reflexivity.
  - destruct (LoopFacts.process_rows_frame fieldnames records broken 2%Z [] w)
      as (res & lines & Hl).
    rewrite Hl. destruct res as [rows|e]; [|exists lines; split; reflexivity].
    destruct (write_results_state output_file (fieldnames ++ ["bbb_score"]) rows
                (mkWorld (fs w) (stdout w ++ lines))) as (lines' & Hout & Hfs).
    exists (lines ++ lines'). rewrite Hout, app_assoc. split; [reflexivity | exact Hfs].
  - exists []. cbn. rewrite app_nil_r. split; reflexivity.
Qed.

Lemma process_csv_state (input_file output_file : string) (w : world) :
  exists lines,
    stdout (snd (process_csv input_file output_file w)) = stdout w ++ lines /\
    forall p, p <> output_file ->
              fs (snd (process_csv input_file output_file w)) p = fs w p.
Proof.
  destruct (process_csv_try_state input_file output_file w) as (lines & Hout & Hfs).
  pose proof (process_csv_cases input_file output_file w) as Hc.
  destruct (process_csv_try input_file output_file w) as [[[]|e] w1];
    cbn [snd] in Hout, Hfs; rewrite Hc.
  - exists lines. split; assumption.
  - destruct (caught_by [Exception] e); [|exists lines; split; assumption].
    unfold print. destruct (stdout_error _ _); cbn [snd writeln fs stdout].
    + exists lines. split; assumption.
    + eexists. rewrite Hout, <- app_assoc. split; [reflexivity | exact Hfs].
Qed.

(** What leaves the body of the [try]: an exception of opening or reading
    a file, of a row, of the writer, or of a [print]. *)
Lemma process_csv_try_raises (input_file output_file : string) (w w1 : world) (e : exn) :
  process_csv_try input_file output_file w = (Raise e, w1) ->
  (fs w input_file = NoSuchFile /\ cls e = FileNotFoundError) \/
  fs w input_file = Unopenable e \/
  (exists records, fs w input_file = Csv records (Some e)) \/
  fs w output_file = Unopenable e \/
  (cls e = KeyError \/ cls e = ValueError \/ cls e = TypeError \/
   cls e = OverflowError \/ cls e = ZeroDivisionError) \/
  (exists printed line, stdout_error printed line = Some e).
Proof.
  unfold process_csv_try, open_read, raise.
  destruct (fs w input_file) as [|e0|[|fieldnames records] broken] eqn:Hin.
  - intros [= <- <-]. left. split; reflexivity.
  - intros [= <- <-]. auto.
  - destruct broken; [intros [= <- <-]; right; right; left; eauto|].
    intros H. apply LoopFacts.print_inv in H as [(H & _) | (e' & [= <-] & _ & H)];
      [discriminate H | do 5 right; eauto].
  - destruct (LoopFacts.process_rows_frame fieldnames records broken 2%Z [] w)
      as (res & lines & Hl).
    rewrite Hl. destruct res as [rows|e0].
    + intros H. apply write_results_raises in H as [H | [H | H]]; auto 10.
    + intros [= <- <-].
      destruct (LoopFacts.process_rows_raises fieldnames records broken e0 2%Z [] w _ Hl)
        as [-> | [(r & _ & _ & Hr & _) | Hp]].
      * right; right; left. eauto.
      * do 4 right. left. exact (RowFacts.score_row_raises _ _ Hr).
      * do 5 right. exact Hp.
Qed.

(** How the body of the [try] ends normally: at the early [return], or
    after the output is written and the two summary lines are printed. *)
Lemma process_csv_try_ok (input_file output_file : string) (w w' : world) :
  process_csv_try input_file output_file w = (Ok tt, w') ->
  (fs w input_file = Csv [] None /\
   w' = writeln w "Error: CSV file appears to be empty or malformed") \/
  exists fieldnames records rows w1 written,
    fs w input_file = Csv (fieldnames :: records) None /\
    process_rows fieldnames records None 2 [] w = (Ok rows, w1) /\
    open_write w output_file = Ok tt /\
    writerows (fieldnames ++ ["bbb_score"]) rows = (written, None) /\
    w' = writeln (writeln (store w1 output_file
                             (Csv ((fieldnames ++ ["bbb_score"]) :: written) None))
                    (newline ++ "Successfully processed "
                     ++ str_int (Z.of_nat (List.length rows)) ++ " rows")%string)
           ("Results saved to: " ++ output_file)%string.
Proof.
  unfold process_csv_try, open_read, raise.
  destruct (fs w input_file) as [|e0|[|fieldnames records] broken] eqn:Hin;
    try discriminate.
  - destruct broken; [discriminate|].
    intros H. apply LoopFacts.print_inv in H as [(_ & -> & _) | (e' & H & _)];
      [left; split; reflexivity | discriminate H].
  - destruct (process_rows fieldnames records broken 2%Z [] w) as [[rows|e0] w1] eqn:Hl;
      [|discriminate].
    destruct (LoopFacts.process_rows_rows _ _ _ _ _ _ _ _ Hl) as (_ & -> & _).
    intros H. apply write_results_ok in H as (written & Hopen & Hw & ->).
    right. exists fieldnames, records, rows, w1, written.
    repeat split; try assumption.
    destruct (LoopFacts.process_rows_frame fieldnames records None 2%Z [] w)
      as (res & lines & Hl').
    rewrite Hl' in Hl. injection Hl as _ <-. exact Hopen.
Qed.

(** The last line of a run that returns tells how it ended. *)
Lemma process_csv_saved (input_file output_file : string) (w : world) :
  fst (process_csv input_file output_file w) = Ok tt ->
  last (stdout (snd (process_csv input_file output_file w))) ""
  = ("Results saved to: " ++ output_file)%string ->
  exists w', process_csv input_file output_file w = (Ok tt, w') /\
             process_csv_try input_file output_file w = (Ok tt, w') /\
             fs w input_file <> Csv [] None.
Proof.
  pose proof (process_csv_cases input_file output_file w) as Hc.
  destruct (process_csv_try input_file output_file w) as [[[]|e] w1] eqn:Htry;
    rewrite Hc.
  - cbn [fst snd]. intros _ Hlast. exists w1. repeat split.
    apply process_csv_try_ok in Htry as [[_ ->] | (f & r & rows & w2 & wr & Hin & _)].
    + rewrite LoopFacts.last_writeln in Hlast. discriminate Hlast.
    + rewrite Hin. discriminate.
  - destruct (caught_by [Exception] e); [|discriminate].
    destruct (print w1 _) as [r w2] eqn:Hp. cbn [fst snd].
    intros -> Hlast.
    apply LoopFacts.print_inv in Hp as [(_ & -> & _) | (e' & H & _)]; [|discriminate H].
    rewrite LoopFacts.last_writeln in Hlast. unfold diagnostic in Hlast.
    destruct (caught_by [FileNotFoundError] e); discriminate Hlast.
Qed.

(** On a stdout that takes every line, with rows that are scored or
    skipped, the run reaches the end of the input. *)
Lemma process_csv_try_runs (input_file output_file : string) (w : world)
    (fieldnames : list string) (records : list record) (broken : option exn) :
  stdout_takes_all ->
  fs w input_file = Csv (fieldnames :: records) broken ->
  (forall r e, In r records -> nonblank r = true ->
               score_row (DictReader_row fieldnames r) = Raise e ->
               caught_by row_handler e = true) ->
  exists lines,
    process_csv_try input_file output_file w =
    match broken with
    | Some e => (Raise e, mkWorld (fs w) (stdout w ++ lines))
    | None =>
        write_results output_file (fieldnames ++ ["bbb_score"])
          (flat_map (kept fieldnames) records) (mkWorld (fs w) (stdout w ++ lines))
    end.
Proof.
  intros Hall Hin Hcaught.
  destruct (LoopFacts.process_rows_runs fieldnames records broken Hall Hcaught 2%Z [] w)
    as [lines Hl].
  exists lines. unfold process_csv_try, open_read. rewrite Hin, Hl.
  destruct broken; reflexivity.
Qed.

(** A row whose error is not caught leaves every file as it was, whatever
    stdout does. *)
Lemma uncaught_row_no_output (input_file output_file : string) (w : world)
    (fieldnames : list string) (records : list record) (broken : option exn)
    (r : record) (e : exn) :
  fs w input_file = Csv (fieldnames :: records) broken ->
  In r records -> nonblank r = true ->
  score_row (DictReader_row fieldnames r) = Raise e ->
  caught_by row_handler e = false ->
  forall p, fs (snd (process_csv input_file output_file w)) p = fs w p.
Proof.
  intros Hin Hr Hnb He Hc p.
  pose proof (process_csv_cases input_file output_file w) as Hcases.
  unfold process_csv_try, open_read in Hcases. rewrite Hin in Hcases.
  destruct (LoopFacts.process_rows_frame fieldnames records broken 2%Z [] w)
    as (res & lines & Hl).
  rewrite Hl in Hcases. destruct res as [rows|e0].
  - destruct (LoopFacts.process_rows_rows _ _ _ _ _ _ _ _ Hl) as (_ & _ & Hall).
    rewrite (Hall r e Hr Hnb He) in Hc. discriminate Hc.
  - rewrite Hcases. destruct (caught_by [Exception] e0); [|reflexivity].
    unfold print. destruct (stdout_error _ _); reflexivity.
Qed.

(** The handlers change no file. *)
Lemma process_csv_fs (input_file output_file : string) (w : world) :
  fs (snd (process_csv input_file output_file w))
  = fs (snd (process_csv_try input_file output_file w)).
Proof.
  pose proof (process_csv_cases input_file output_file w) as Hc.
  destruct (process_csv_try input_file output_file w) as [[[]|e] w1]; rewrite Hc;
    [reflexivity|].
  destruct (caught_by [Exception] e); [|reflexivity].
  unfold print. destruct (stdout_error _ _); reflexivity.
Qed.

(** The files after the writing block: the output file is replaced as
    soon as it is opened. *)
Lemma write_results_fs (output_file : string) (fieldnames : list string)
    (rows : list dict) (w : world) :
  fs (snd (write_results output_file fieldnames rows w)) =
  match open_write w output_file with
  | Raise _ => fs w
  | Ok _ => fs (store w output_file
                  (Csv (fieldnames :: fst (writerows fieldnames rows)) None))
  end.
Proof.
  unfold write_results.
  destruct (open_write w output_file); [|reflexivity].
  destruct (writerows fieldnames rows) as [written [e|]]; [reflexivity|].
  unfold print. destruct (stdout_error _ _); [reflexivity|].
  destruct (stdout_error _ _); reflexivity.
Qed.

End WithPlatform.

End RunFacts.

(** ** The batch pipeline *)

Module PipelineFacts.

Local Open Scope string_scope.
Local Open Scope list_scope.

(** *** Exceptions and the outer handlers *)

Section WithPlatform.
Context {P : Platform}.

(** C10, as the code has it.  What leaves [process_csv] is an exception
    outside the [Exception] hierarchy, or what the [print] of one of its
    two handlers raised.  Every [Exception] raised in the body of the [try]
    is answered by that [print]; and on a stdout that takes every line each
    file-level failure (a missing or unopenable input, a reading error at
    or after the header, an unopenable output) ends in a normal return with
    the diagnostic as the last line printed, no file changed. *)
Theorem process_csv_never_propagates (input_file output_file : string) (w : world) :
  (forall e, fst (process_csv input_file output_file w) = Raise e ->
     issubclass (cls e) Exception = false \/
     exists printed e0, stdout_error printed (diagnostic input_file e0) = Some e) /\
  (forall e w1,
     process_csv_try input_file output_file w = (Raise e, w1) ->
     issubclass (cls e) Exception = true ->
     process_csv input_file output_file w = print w1 (diagnostic input_file e)) /\
  (stdout_takes_all ->
   (fs w input_file = NoSuchFile ->
    process_csv input_file output_file w =
    (Ok tt, writeln w ("Error: Input file '" ++ input_file ++ "' not found")%string)) /\
   (forall e, fs w input_file = Unopenable e -> issubclass (cls e) Exception = true ->
      process_csv input_file output_file w =
      (Ok tt, writeln w (diagnostic input_file e))) /\
   (forall e, fs w input_file = Csv [] (Some e) -> issubclass (cls e) Exception = true ->
      process_csv input_file output_file w =
      (Ok tt, writeln w (diagnostic input_file e))) /\
   (forall fieldnames records e,
      fs w input_file = Csv (fieldnames :: records) (Some e) ->
      (forall r e', In r records -> nonblank r = true ->
                    score_row (DictReader_row fieldnames r) = Raise e' ->
                    caught_by row_handler e' = true) ->
      issubclass (cls e) Exception = true ->
      exists lines,
        process_csv input_file output_file w =
        (Ok tt, mkWorld (fs w) (stdout w ++ lines ++ [diagnostic input_file e]))) /\
   (forall fieldnames records e,
      fs w input_file = Csv (fieldnames :: records) None ->
      (forall r e', In r records -> nonblank r = true ->
                    score_row (DictReader_row fieldnames r) = Raise e' ->
                    caught_by row_handler e' = true) ->
      fs w output_file = Unopenable e ->
      issubclass (cls e) Exception = true ->
      exists lines,
        process_csv input_file output_file w =
        (Ok tt, mkWorld (fs w) (stdout w ++ lines ++ [diagnostic input_file e])))).
Proof.
  pose proof (RunFacts.process_csv_cases input_file output_file w) as Hc.
  split; [|split].
  - intros e He.
    destruct (process_csv_try input_file output_file w) as [[[]|e'] w1];
      rewrite Hc in He; [discriminate He|].
    rewrite RunFacts.caught_exception in He.
    destruct (issubclass (cls e') Exception) eqn:Hex.
    + destruct (print w1 _) as [r w2] eqn:Hp. cbn [fst] in He. subst r.
      apply LoopFacts.print_inv in Hp as [(H & _) | (e'' & [= <-] & _ & Hp)];
        [discriminate H|].
      right. eauto.
    + cbn in He. injection He as <-. left; exact Hex.
  - intros e w1 Htry Hex. rewrite Htry in Hc.
    now rewrite Hc, RunFacts.caught_exception, Hex.
  - intros Hall.
    assert (Hraise : forall e w1,
              process_csv_try input_file output_file w = (Raise e, w1) ->
              issubclass (cls e) Exception = true ->
              process_csv input_file output_file w
              = (Ok tt, writeln w1 (diagnostic input_file e))).
    { intros e w1 Htry Hex. rewrite Htry in Hc.
      now rewrite Hc, RunFacts.caught_exception, Hex, LoopFacts.print_ok. }
    split; [|split; [|split; [|split]]].
    + intros Hin.
      apply (Hraise (mkExn FileNotFoundError
                       ("[Errno 2] No such file or directory: " ++ str_repr input_file))).
      * unfold process_csv_try, open_read. now rewrite Hin.
      * reflexivity.
    + intros e Hin Hex. apply Hraise; [|exact Hex].
      unfold process_csv_try, open_read. now rewrite Hin.
    + intros e Hin Hex. apply Hraise; [|exact Hex].
      unfold process_csv_try, open_read. now rewrite Hin.
    + intros fieldnames records e Hin Hcaught Hex.
      destruct (RunFacts.process_csv_try_runs input_file output_file w fieldnames records
                  (Some e) Hall Hin Hcaught) as [lines Htry].
      exists lines. rewrite (Hraise _ _ Htry Hex).
      unfold writeln. cbn [fs stdout]. now rewrite <- app_assoc.
    + intros fieldnames records e Hin Hcaught Hout Hex.
      destruct (RunFacts.process_csv_try_runs input_file output_file w fieldnames records
                  None Hall Hin Hcaught) as [lines Htry].
      exists lines.
      unfold write_results, open_write in Htry. cbn [fs] in Htry. rewrite Hout in Htry.
      rewrite (Hraise _ _ Htry Hex).
      unfold writeln. cbn [fs stdout]. now rewrite <- app_assoc.
Qed.

End WithPlatform.

Lemma process_csv_never_propagates_witness :
  let denied := mkExn PermissionError "denied" in
  let w := mkWorld no_files [] in
  let locked := mkWorld (fun p => if String.eqb p "acd.csv"
                                  then Csv (descriptor_header :: mixed_batch) None
                                  else Unopenable denied) [] in
  let interrupted := mkWorld (fun _ => Unopenable (mkExn KeyboardInterrupt "")) [] in
  (fst (process_csv (P := Sample.platform) "acd.csv" "out.csv" interrupted)
   = Raise (mkExn KeyboardInterrupt "") /\
   (issubclass KeyboardInterrupt Exception = false \/
    exists printed e0,
      stdout_error (Platform := Sample.platform) printed (diagnostic "acd.csv" e0)
      = Some (mkExn KeyboardInterrupt ""))) /\
  stdout_takes_all (P := Sample.platform) /\
  fs w "acd.csv" = NoSuchFile /\
  process_csv (P := Sample.platform) "acd.csv" "out.csv" w =
  (Ok tt, writeln w "Error: Input file 'acd.csv' not found") /\
  fs locked "acd.csv" = Csv (descriptor_header :: mixed_batch) None /\
  (forall r e', In r mixed_batch -> nonblank r = true ->
     score_row (P := Sample.platform) (DictReader_row descriptor_header r) = Raise e' ->
     caught_by row_handler e' = true) /\
  fs locked "out.csv" = Unopenable denied /\
  issubclass (cls denied) Exception = true /\
  exists lines,
    process_csv (P := Sample.platform) "acd.csv" "out.csv" locked =
    (Ok tt, mkWorld (fs locked) (stdout locked ++ lines ++ ["Error processing CSV: denied"])).
Proof.
  intros denied w locked interrupted.
  assert (Hcaught : forall r e', In r mixed_batch -> nonblank r = true ->
            score_row (P := Sample.platform) (DictReader_row descriptor_header r) = Raise e' ->
            caught_by row_handler e' = true).
  { intros r e' [<- | [<- | []]] _ H; vm_compute in H; [discriminate H|].
    injection H as <-. reflexivity. }
  split; [split; [reflexivity|]|].
  { apply (proj1 (process_csv_never_propagates
                    (P := Sample.platform) "acd.csv" "out.csv" interrupted)
             (mkExn KeyboardInterrupt "")).
    reflexivity. }
  split; [exact LoopFacts.terminal_takes_all|]. split; [reflexivity|]. split.
  { apply (proj1 (proj2 (proj2 (process_csv_never_propagates
                                  (P := Sample.platform) "acd.csv" "out.csv" w))
                    LoopFacts.terminal_takes_all)).
    reflexivity. }
  split; [reflexivity|]. split; [exact Hcaught|]. split; [reflexivity|].
  split; [reflexivity|].
  exact (proj2 (proj2 (proj2 (proj2 (proj2 (proj2
           (process_csv_never_propagates (P := Sample.platform) "acd.csv" "out.csv" locked))
           LoopFacts.terminal_takes_all))))
           descriptor_header mixed_batch denied eq_refl Hcaught eq_refl eq_refl).
Defined.

(** C10 as the claim states it fails when the handler's own [print]
    raises: with a stdout in the [ascii] encoding and a missing input file
    whose name has a character above 127, the [UnicodeEncodeError] of
    printing the not-found line leaves [process_csv], although it is an
    [Exception]; nothing has been printed. *)
Lemma unprintable_path_escapes_handler :
  let input_file := ("donn" ++ String "233"%char "es.csv")%string in
  let w := mkWorld no_files [] in
  fs w input_file = NoSuchFile /\
  process_csv (P := Sample.ascii_platform) input_file "out.csv" w =
  (Raise (mkExn UnicodeEncodeError
            "'ascii' codec can't encode character: ordinal not in range(128)"), w) /\
  issubclass UnicodeEncodeError Exception = true.
Proof. repeat split; vm_compute; reflexivity. Qed.

(** *** One row that the inner [except] does not cover *)

(** C2 fails on this batch.  The [ZeroDivisionError] of the second row is
    not among [(ValueError, KeyError)]: it leaves the loop, the outer
    handler prints it, and the output file is never opened, although the
    first row had been scored.  The C library's [pow] and [repr] play no
    part, and whatever stdout does no output file appears. *)
Theorem zero_weight_row_aborts_batch (pw : float -> float -> float)
    (rp : string -> string) :
  (forall se,
     let P := Build_Platform pw Sample.decimal rp se in
     fs (snd (process_csv (P := P) "acd.csv" "scores.csv" (one_input zero_weight_batch)))
        "scores.csv" = NoSuchFile) /\
  let P := Build_Platform pw Sample.decimal rp Sample.terminal in
  let w := snd (process_csv (P := P) "acd.csv" "scores.csv" (one_input zero_weight_batch)) in
  stdout w = ["Row 2: BBB Score = 3.161955";
              "Error processing CSV: 0.0 cannot be raised to a negative power"] /\
  fs w "scores.csv" = NoSuchFile.
Proof.
  split; [|split; vm_compute; reflexivity].
  intros se P.
  rewrite (RunFacts.uncaught_row_no_output (P := P) "acd.csv" "scores.csv"
             (one_input zero_weight_batch) descriptor_header
             [["2"; "20"; "1"; "0"; "0"; "60"; "0"]; ["2"; "20"; "0"; "0"; "0"; "60"; "0"]]
             None ["2"; "20"; "0"; "0"; "0"; "60"; "0"]
             (mkExn ZeroDivisionError "0.0 cannot be raised to a negative power"));
    try reflexivity.
  right; left; reflexivity.
Qed.

(** The same batch with a non-numeric weight instead: that row is skipped
    and the file is written. *)
Lemma bad_text_row_is_skipped (pw : float -> float -> float) :
  let P := Build_Platform pw Sample.decimal Sample.quote Sample.terminal in
  let batch := Csv [descriptor_header;
                    ["2"; "20"; "1"; "0"; "0"; "60"; "0"];
                    ["2"; "20"; "n/a"; "0"; "0"; "60"; "0"]] None in
  let w := snd (process_csv (P := P) "acd.csv" "scores.csv" (one_input batch)) in
  stdout w = ["Row 2: BBB Score = 3.161955";
              "Warning: Skipping row 3 due to error: could not convert string to float: 'n/a'";
              (newline ++ "Successfully processed 1 rows")%string;
              "Results saved to: scores.csv"] /\
  fs w "scores.csv" =
  Csv [descriptor_header ++ ["bbb_score"];
       ["2"; "20"; "1"; "0"; "0"; "60"; "0"; "3.161955"]] None.
Proof. split; vm_compute; reflexivity. Qed.

(** *** The rows of the output *)

Section Rows.
Context {P : Platform}.

(** C9, as the code has it.  For a header of distinct names, none of them
    [bbb_score]: whenever a run ends with the line [Results saved to: ...],
    the output file is the header with [bbb_score] appended, followed, for
    each scored row in input order, by its fields unchanged, an empty field
    for each column a short row lacks, and the formatted score last.  The
    run does end so when stdout takes every line, the input is read to its
    end, every row is scored or skipped, no scored row is longer than the
    header, and the output file can be opened. *)
Theorem output_preserves_columns (input_file output_file : string) (w : world)
    (fieldnames : list string) (records : list record) (broken : option exn) :
  fs w input_file = Csv (fieldnames :: records) broken ->
  NoDup fieldnames ->
  ~ In "bbb_score" fieldnames ->
  let run := process_csv input_file output_file w in
  let output :=
    Csv ((fieldnames ++ ["bbb_score"]) :: flat_map (scored fieldnames) records) None in
  (fst run = Ok tt ->
   last (stdout (snd run)) "" = ("Results saved to: " ++ output_file)%string ->
   fs (snd run) output_file = output) /\
  (stdout_takes_all ->
   broken = None ->
   (forall r e, In r records -> nonblank r = true ->
                score_row (DictReader_row fieldnames r) = Raise e ->
                caught_by row_handler e = true) ->
   (forall r score, In r records ->
                    score_row (DictReader_row fieldnames r) = Ok score ->
                    (List.length r <= List.length fieldnames)%nat) ->
   open_write w output_file = Ok tt ->
   fst run = Ok tt /\
   last (stdout (snd run)) "" = ("Results saved to: " ++ output_file)%string /\
   fs (snd run) output_file = output).
Proof.
  intros Hin Hnd Hbbb run output. subst run output. split.
  - intros Hok Hlast.
    destruct (RunFacts.process_csv_saved input_file output_file w Hok Hlast)
      as (w' & -> & Htry & Hne).
    apply RunFacts.process_csv_try_ok in Htry
      as [[Hempty _] | (f & rs & rows & w1 & written & Hin' & Hrows & _ & Hw & ->)];
      [contradiction|].
    rewrite Hin in Hin'. injection Hin' as <- <- ->.
    apply LoopFacts.process_rows_rows in Hrows as (-> & _ & _). cbn [app] in Hw.
    apply RowFacts.writerows_written in Hw; [subst written | assumption..].
    cbn. now rewrite String.eqb_refl.
  - intros Hall -> Hcaught Hlen Hopen.
    destruct (RunFacts.process_csv_try_runs input_file output_file w fieldnames records
                None Hall Hin Hcaught) as [lines Htry].
    rewrite RunFacts.write_results_takes_all in Htry by exact Hall.
    change (open_write {| fs := fs w; stdout := stdout w ++ lines |} output_file)
      with (open_write w output_file) in Htry.
    rewrite Hopen, (RowFacts.writerows_kept fieldnames records Hnd Hbbb Hlen) in Htry.
    pose proof (RunFacts.process_csv_cases input_file output_file w) as Hc.
    rewrite Htry in Hc. rewrite Hc.
    split; [reflexivity|]. split; [apply LoopFacts.last_writeln|].
    cbn. now rewrite String.eqb_refl.
Qed.

End Rows.

Lemma output_preserves_columns_witness :
  let header := descriptor_header ++ ["note"] in
  let records := [["2"; "20"; "1"; "0"; "0"; "60"; "0"; "first"];
                  [];
                  ["2"; "20"; "1"; "0"; "0"; "60"; "0"];
                  ["2"; "20"; "n/a"; "0"; "0"; "60"; "0"; "last"]] in
  let w := one_input (Csv (header :: records) None) in
  let run := process_csv (P := Sample.platform) "acd.csv" "scores.csv" w in
  fs w "acd.csv" = Csv (header :: records) None /\
  NoDup header /\
  ~ In "bbb_score" header /\
  stdout_takes_all (P := Sample.platform) /\
  (forall r e, In r records -> nonblank r = true ->
     score_row (P := Sample.platform) (DictReader_row header r) = Raise e ->
     caught_by row_handler e = true) /\
  (forall r score, In r records ->
     score_row (P := Sample.platform) (DictReader_row header r) = Ok score ->
     (List.length r <= List.length header)%nat) /\
  open_write w "scores.csv" = Ok tt /\
  flat_map (scored (P := Sample.platform) header) records =
  [["2"; "20"; "1"; "0"; "0"; "60"; "0"; "first"; "3.161955"];
   ["2"; "20"; "1"; "0"; "0"; "60"; "0"; ""; "3.161955"]] /\
  (fst run = Ok tt /\
   last (stdout (snd run)) "" = "Results saved to: scores.csv" /\
   fs (snd run) "scores.csv" =
   Csv ((header ++ ["bbb_score"])
        :: flat_map (scored (P := Sample.platform) header) records) None) /\
  (fst run = Ok tt ->
   last (stdout (snd run)) "" = "Results saved to: scores.csv" ->
   fs (snd run) "scores.csv" =
   Csv ((header ++ ["bbb_score"])
        :: flat_map (scored (P := Sample.platform) header) records) None).
Proof.
  intros header records w run.
  assert (Hnd : NoDup header).
  { repeat constructor; cbn; intuition discriminate. }
  assert (Hbbb : ~ In "bbb_score" header).
  { cbn; intuition discriminate. }
  assert (Hcaught : forall r e, In r records -> nonblank r = true ->
            score_row (P := Sample.platform) (DictReader_row header r) = Raise e ->
            caught_by row_handler e = true).
  { intros r e [<- | [<- | [<- | [<- | []]]]] Hnb H;
      try discriminate Hnb; vm_compute in H; try discriminate H.
    injection H as <-. reflexivity. }
  assert (Hlen : forall r score, In r records ->
            score_row (P := Sample.platform) (DictReader_row header r) = Ok score ->
            (List.length r <= List.length header)%nat).
  { intros r score [<- | [<- | [<- | [<- | []]]]] _; cbn; lia. }
  pose proof (output_preserves_columns (P := Sample.platform) "acd.csv" "scores.csv" w
                header records None eq_refl Hnd Hbbb) as [Hsaved Hruns].
  split; [reflexivity|]. do 2 (split; [assumption|]).
  split; [exact LoopFacts.terminal_takes_all|]. do 2 (split; [assumption|]).
  split; [reflexivity|]. split; [vm_compute; reflexivity|].
  split; [exact (Hruns LoopFacts.terminal_takes_all eq_refl Hcaught Hlen eq_refl) | exact Hsaved].
Defined.

(** C9 as the spec states it fails when the input already has a column
    [bbb_score]: the row is scored, and its original value in that column
    ([0.5] here) is replaced by the new score in the output. *)
Lemma existing_score_column_is_overwritten :
  let header := descriptor_header ++ ["bbb_score"] in
  let r := ["2"; "20"; "1"; "0"; "0"; "60"; "0"; "0.5"] in
  let w := snd (process_csv (P := Sample.platform) "acd.csv" "scores.csv"
                  (one_input (Csv [header; r] None))) in
  score_row (P := Sample.platform) (DictReader_row header r)
  = Ok (NFloat 3.1619554291598719) /\
  format_6f (NFloat 3.1619554291598719) = "3.161955" /\
  fs w "scores.csv" =
  Csv [header ++ ["bbb_score"];
       ["2"; "20"; "1"; "0"; "0"; "60"; "0"; "3.161955"; "3.161955"]] None /\
  ["2"; "20"; "1"; "0"; "0"; "60"; "0"; "3.161955"; "3.161955"] <> r ++ ["3.161955"].
Proof.
  repeat split; try (vm_compute; reflexivity). discriminate.
Qed.

(** So it does when two columns share a name: the row keeps one value per
    name, the last, and the output carries it in both columns. *)
Lemma duplicate_column_is_overwritten :
  let header := descriptor_header ++ ["note"; "note"] in
  let r := ["2"; "20"; "1"; "0"; "0"; "60"; "0"; "first"; "second"] in
  let w := snd (process_csv (P := Sample.platform) "acd.csv" "scores.csv"
                  (one_input (Csv [header; r] None))) in
  fs w "scores.csv" =
  Csv [header ++ ["bbb_score"];
       ["2"; "20"; "1"; "0"; "0"; "60"; "0"; "second"; "second"; "3.161955"]] None.
Proof. vm_compute. reflexivity. Qed.

End PipelineFacts.

(** ** More about the batch pipeline *)

Module PipelineMore.

Local Open Scope string_scope.
Local Open Scope list_scope.

Section WithPlatform.
Context {P : Platform}.

(** X5.  What the seven coercions and the call of the scorer raise for a
    row is a [KeyError], a [ValueError], a [TypeError], an [OverflowError] or a
    [ZeroDivisionError].  The inner [except] catches the first two and
    none of the other three; the outer [except Exception] catches all
    five, and none is a [FileNotFoundError]. *)
Theorem row_error_classes (row : dict) (e : exn) :
  score_row row = Raise e ->
  (cls e = KeyError \/ cls e = ValueError \/ cls e = TypeError \/
   cls e = OverflowError \/ cls e = ZeroDivisionError) /\
  caught_by row_handler e =
  match cls e with KeyError | ValueError => true | _ => false end /\
  caught_by [Exception] e = true /\
  caught_by [FileNotFoundError] e = false.
Proof.
  intros H. pose proof (RowFacts.score_row_raises row e H) as Hc.
  destruct (RowFacts.five_classes e Hc) as (Hf & Hx & Hr). repeat split; assumption.
Qed.

(** X6.  A run of [process_csv] changes no file but the output file, and
    only adds lines to what has been printed. *)
Theorem process_csv_touches_only_output (input_file output_file : string) (w : world) :
  (forall p, p <> output_file ->
             fs (snd (process_csv input_file output_file w)) p = fs w p) /\
  (exists lines,
     stdout (snd (process_csv input_file output_file w)) = stdout w ++ lines).
Proof.
  destruct (RunFacts.process_csv_state input_file output_file w) as (lines & Hout & Hfs).
  split; [exact Hfs | exists lines; exact Hout].
Qed.

(** X7.  No content of the input file makes [process_csv] raise.  When
    the exceptions of opening the two files and of reading the input are
    [Exception]s, the only exception that can leave the call is one that
    a [print] raised; on a stdout that takes every line the call returns
    normally, whatever the rows hold. *)
Theorem process_csv_returns (input_file output_file : string) (w : world) :
  (forall e, fs w input_file = Unopenable e -> issubclass (cls e) Exception = true) ->
  (forall records e, fs w input_file = Csv records (Some e) ->
                     issubclass (cls e) Exception = true) ->
  (forall e, fs w output_file = Unopenable e -> issubclass (cls e) Exception = true) ->
  (forall e, fst (process_csv input_file output_file w) = Raise e ->
             exists printed line, stdout_error printed line = Some e) /\
  (stdout_takes_all -> fst (process_csv input_file output_file w) = Ok tt).
Proof.
  intros Hin Hbroken Hout.
  assert (Hraise : forall e, fst (process_csv input_file output_file w) = Raise e ->
                             exists printed line, stdout_error printed line = Some e).
  { intros e He.
    pose proof (RunFacts.process_csv_cases input_file output_file w) as Hc.
    destruct (process_csv_try input_file output_file w) as [[[]|e'] w1] eqn:Htry;
      rewrite Hc in He; [discriminate He|].
    rewrite RunFacts.caught_exception in He.
    destruct (issubclass (cls e') Exception) eqn:Hex.
    - destruct (print w1 _) as [r w2] eqn:Hp. cbn [fst] in He. subst r.
      apply LoopFacts.print_inv in Hp as [(H & _) | (e'' & [= <-] & _ & Hp)];
        [discriminate H | eauto].
    - cbn in He. injection He as <-.
      destruct (RunFacts.process_csv_try_raises _ _ _ _ _ Htry)
        as [[_ Hc'] | [H | [[records H] | [H | [H | H]]]]].
      + rewrite Hc' in Hex. discriminate Hex.
      + rewrite (Hin _ H) in Hex. discriminate Hex.
      + rewrite (Hbroken _ _ H) in Hex. discriminate Hex.
      + rewrite (Hout _ H) in Hex. discriminate Hex.
      + destruct (RowFacts.five_classes e' H) as (_ & H' & _).
        rewrite RunFacts.caught_exception, Hex in H'. discriminate H'.
      + exact H. }
  split; [exact Hraise|].
  intros Hall.
  destruct (fst (process_csv input_file output_file w)) as [[]|e] eqn:He; [reflexivity|].
  destruct (Hraise e eq_refl) as (printed & line & H).
  rewrite Hall in H. discriminate H.
Qed.

(** X8.  A row whose error the inner [except] does not catch ends the
    run with no file written or changed, so that the rows scored before it
    are lost; when the rows before it are scored or skipped and stdout
    takes every line, the outer handler prints [Error processing CSV: ...]
    with its message and the call returns. *)
Theorem uncaught_row_error_discards_batch (input_file output_file : string) (w : world)
    (fieldnames : list string) (pre : list record) (r : record) (post : list record)
    (broken : option exn) (e : exn) :
  fs w input_file = Csv (fieldnames :: pre ++ r :: post) broken ->
  nonblank r = true ->
  (forall r' e', In r' pre -> nonblank r' = true ->
                 score_row (DictReader_row fieldnames r') = Raise e' ->
                 caught_by row_handler e' = true) ->
  score_row (DictReader_row fieldnames r) = Raise e ->
  caught_by row_handler e = false ->
  (forall p, fs (snd (process_csv input_file output_file w)) p = fs w p) /\
  (stdout_takes_all ->
   exists lines,
     process_csv input_file output_file w =
     (Ok tt,
      mkWorld (fs w) (stdout w ++ lines ++ ["Error processing CSV: " ++ msg e]%string))).
Proof.
  intros Hin Hr Hpre He Hc. split.
  - apply (RunFacts.uncaught_row_no_output input_file output_file w fieldnames
             (pre ++ r :: post) broken r e Hin); try assumption.
    apply in_or_app. right; left; reflexivity.
  - intros Hall.
    destruct (LoopFacts.process_rows_stops fieldnames pre r post broken e
                Hall Hr Hpre He Hc 2%Z [] w) as [lines Hl].
    exists lines.
    destruct (RowFacts.five_classes e (RowFacts.score_row_raises _ _ He)) as (Hnf & Hex & _).
    unfold process_csv, process_csv_try, open_read. rewrite Hin, Hl, Hnf, Hex.
    rewrite LoopFacts.print_ok by exact Hall.
    unfold writeln. cbn [fs stdout]. now rewrite <- app_assoc.
Qed.

(** X9.  Blank records of the input are passed over without a trace:
    the run on the file without them returns the same, prints the same
    lines (row numbers included) and leaves the same files. *)
Theorem blank_records_are_ignored (input_file output_file : string) (w : world)
    (fieldnames : list string) (records : list record) (broken : option exn) :
  fs w input_file = Csv (fieldnames :: records) broken ->
  let w' := store w input_file (Csv (fieldnames :: filter nonblank records) broken) in
  let run := process_csv input_file output_file w in
  let run' := process_csv input_file output_file w' in
  fst run' = fst run /\
  stdout (snd run') = stdout (snd run) /\
  forall p, p <> input_file -> fs (snd run') p = fs (snd run) p.
Proof.
  destruct w as [f s]. intros Hin w' run run'. subst run run'. cbn [fs] in Hin.
  set (f' := fun p => if String.eqb p input_file
                      then Csv (fieldnames :: filter nonblank records) broken else f p).
  change w' with (mkWorld f' s). clear w'.
  (* two outcomes that agree but for the input file *)
  set (agree := fun a b : result unit * world =>
         fst a = fst b /\ stdout (snd a) = stdout (snd b) /\
         forall p, p <> input_file -> fs (snd a) p = fs (snd b) p).
  change (agree (process_csv input_file output_file (mkWorld f' s))
                (process_csv input_file output_file (mkWorld f s))).
  assert (Hin' : f' input_file = Csv (fieldnames :: filter nonblank records) broken).
  { unfold f'. now rewrite String.eqb_refl. }
  assert (Hout : forall t t',
            open_write (mkWorld f' t) output_file = open_write (mkWorld f t') output_file).
  { intros t t'. unfold open_write, f'. cbn [fs].
    destruct (String.eqb_spec output_file input_file) as [->|_]; [|reflexivity].
    now rewrite Hin. }
  assert (Hfs : forall p, p <> input_file -> f' p = f p).
  { intros p Hp. unfold f'. now rewrite (proj2 (String.eqb_neq p input_file) Hp). }
  assert (Hprint : forall (w1 w1' : world) line,
            stdout w1' = stdout w1 ->
            (forall p, p <> input_file -> fs w1' p = fs w1 p) ->
            agree (print w1' line) (print w1 line)).
  { intros w1 w1' line Hs Hff. unfold agree, print. rewrite Hs.
    destruct (stdout_error (stdout w1) line); cbn; rewrite ?Hs; auto. }
  assert (Hhandler : forall e (w1 w1' : world),
            stdout w1' = stdout w1 ->
            (forall p, p <> input_file -> fs w1' p = fs w1 p) ->
            agree (if caught_by [FileNotFoundError] e
                   then print w1' ("Error: Input file '" ++ input_file
                                   ++ "' not found")%string
                   else if caught_by [Exception] e
                        then print w1' ("Error processing CSV: " ++ msg e)%string
                        else (Raise e, w1'))
                  (if caught_by [FileNotFoundError] e
                   then print w1 ("Error: Input file '" ++ input_file
                                  ++ "' not found")%string
                   else if caught_by [Exception] e
                        then print w1 ("Error processing CSV: " ++ msg e)%string
                        else (Raise e, w1))).
  { intros e w1 w1' Hs Hff.
    destruct (caught_by [FileNotFoundError] e); [now apply Hprint|].
    destruct (caught_by [Exception] e); [now apply Hprint|].
    unfold agree. cbn. auto. }
  unfold process_csv, process_csv_try, open_read. cbn [fs]. rewrite Hin, Hin'.
  rewrite LoopFacts.process_rows_blank.
  destruct (LoopFacts.process_rows_world fieldnames records broken 2%Z [] s)
    as (res & lines & Hl).
  rewrite !Hl.
  destruct res as [rows|e]; [|apply Hhandler; [reflexivity | exact Hfs]].
  unfold write_results. rewrite (Hout (s ++ lines) (s ++ lines)).
  destruct (open_write _ output_file) as [[]|e];
    [|apply Hhandler; [reflexivity | exact Hfs]].
  destruct (writerows (fieldnames ++ ["bbb_score"]) rows) as [written err].
  assert (Hstore : forall p, p <> input_file ->
            (if String.eqb p output_file
             then Csv ((fieldnames ++ ["bbb_score"]) :: written) None else f' p)
            = (if String.eqb p output_file
               then Csv ((fieldnames ++ ["bbb_score"]) :: written) None else f p)).
  { intros p Hp. destruct (String.eqb p output_file); [reflexivity | exact (Hfs p Hp)]. }
  unfold store. cbn [fs stdout].
  destruct err as [e|]; [apply Hhandler; [reflexivity | exact Hstore]|].
  destruct (LoopFacts.print_world (s ++ lines)
              (newline ++ "Successfully processed "
               ++ str_int (Z.of_nat (List.length rows)) ++ " rows")%string)
    as (r1 & l1 & H1).
  rewrite !H1.
  destruct r1 as [[]|e]; [|apply Hhandler; [reflexivity | exact Hstore]].
  destruct (LoopFacts.print_world ((s ++ lines) ++ l1)
              ("Results saved to: " ++ output_file)%string) as (r2 & l2 & H2).
  rewrite !H2.
  destruct r2 as [[]|e]; [|apply Hhandler; [reflexivity | exact Hstore]].
  unfold agree. cbn. auto.
Qed.

(** X10.  When the header lacks one of the seven descriptor columns, no
    row is ever scored: the output file is left as it was or holds the
    header line alone. *)
Theorem missing_column_scores_nothing (input_file output_file : string) (w : world)
    (fieldnames : list string) (records : list record) (broken : option exn) (k : string) :
  In k descriptor_columns -> ~ In k fieldnames ->
  fs w input_file = Csv (fieldnames :: records) broken ->
  (forall r, exists e, score_row (DictReader_row fieldnames r) = Raise e) /\
  let out := fs (snd (process_csv input_file output_file w)) output_file in
  out = fs w output_file \/ out = Csv [fieldnames ++ ["bbb_score"]] None.
Proof.
  intros Hk Habs Hin.
  assert (Hall : forall r, exists e, score_row (DictReader_row fieldnames r) = Raise e)
    by (intros r; exact (RowFacts.missing_column_row fieldnames k r Hk Habs)).
  split; [exact Hall|].
  cbv zeta. rewrite RunFacts.process_csv_fs.
  unfold process_csv_try, open_read. rewrite Hin.
  destruct (LoopFacts.process_rows_frame fieldnames records broken 2%Z [] w)
    as (res & lines & Hl).
  pose proof Hl as Hw. rewrite Hl.
  destruct res as [rows|e]; [|left; reflexivity].
  apply LoopFacts.process_rows_rows in Hw as (-> & _ & _).
  rewrite RunFacts.write_results_fs.
  change (open_write {| fs := fs w; stdout := stdout w ++ lines |} output_file)
    with (open_write w output_file).
  destruct (open_write w output_file); [|left; reflexivity].
  right. cbn [app].
  rewrite RowFacts.kept_none by (intros r _; apply Hall).
  cbn. now rewrite String.eqb_refl.
Qed.

(** X11.  When the header lacks [aro_r], every row is skipped with the
    [KeyError] of that name, and on a stdout that takes every line the
    run still reports success: it writes the header alone and prints that
    0 rows were processed. *)
Theorem missing_first_column_skips_every_row (input_file output_file : string)
    (w : world) (fieldnames : list string) (records : list record) :
  ~ In "aro_r" fieldnames ->
  fs w input_file = Csv (fieldnames :: records) None ->
  open_write w output_file = Ok tt ->
  (forall r, score_row (DictReader_row fieldnames r) = raise KeyError (str_repr "aro_r")) /\
  (stdout_takes_all ->
   exists lines,
     process_csv input_file output_file w =
     (Ok tt,
      mkWorld (fun p => if String.eqb p output_file
                        then Csv [fieldnames ++ ["bbb_score"]] None else fs w p)
              (stdout w ++ lines ++
               [(newline ++ "Successfully processed 0 rows")%string;
                ("Results saved to: " ++ output_file)%string]))).
Proof.
  intros Habs Hin Hopen.
  assert (Hrow : forall r, score_row (DictReader_row fieldnames r)
                           = raise KeyError (str_repr "aro_r")).
  { intros r. unfold score_row, int_field, float_field, getitem.
    now rewrite RowFacts.DictReader_row_absent. }
  split; [exact Hrow|]. intros Hall.
  assert (Hcaught : forall r e', In r records -> nonblank r = true ->
            score_row (DictReader_row fieldnames r) = Raise e' ->
            caught_by row_handler e' = true).
  { intros r e' _ _ H. rewrite Hrow in H. injection H as <-. reflexivity. }
  destruct (RunFacts.process_csv_try_runs input_file output_file w fieldnames records
              None Hall Hin Hcaught) as [lines Htry].
  exists lines.
  rewrite RowFacts.kept_none in Htry
    by (intros r _; rewrite Hrow; eexists; reflexivity).
  rewrite RunFacts.write_results_takes_all in Htry by exact Hall.
  change (open_write {| fs := fs w; stdout := stdout w ++ lines |} output_file)
    with (open_write w output_file) in Htry.
  rewrite Hopen in Htry. cbn [writerows] in Htry.
  pose proof (RunFacts.process_csv_cases input_file output_file w) as Hc.
  rewrite Htry in Hc. rewrite Hc.
  unfold writeln, store. cbn [fs stdout List.length].
  f_equal. f_equal. now rewrite <- !app_assoc.
Qed.

(** X12.  A row with more fields than the header cannot be written once
    it is scored: its surplus fields sit under the key [None], which the
    [DictWriter] rejects with a [ValueError]. *)
Theorem surplus_fields_cannot_be_written (fieldnames : list string) (r : record)
    (score : string) :
  (List.length fieldnames < List.length r)%nat ->
  dict_to_list (fieldnames ++ ["bbb_score"])
    (dict_set (DictReader_row fieldnames r) (Some "bbb_score") (VStr score))
  = raise ValueError "dict contains fields not in fieldnames: None".
Proof. apply RowFacts.surplus_row. Qed.

(** X13.  In a row with fewer fields than the header, a column [k]
    beyond its last field reads as [None]; [float(row[k])] is then a
    [TypeError], which the inner [except] does not catch, and when [k] is
    a descriptor column the row is not scored. *)
Theorem short_row_field_is_none (fieldnames : list string) (r : record) (k : string) :
  In k (skipn (List.length r) fieldnames) ->
  let e := mkExn TypeError
             "float() argument must be a string or a real number, not 'NoneType'" in
  getitem (DictReader_row fieldnames r) k = Ok VNone /\
  float_field (DictReader_row fieldnames r) k = Raise e /\
  caught_by row_handler e = false /\
  (In k descriptor_columns ->
   exists e', score_row (DictReader_row fieldnames r) = Raise e').
Proof.
  intros Hk e. pose proof (RowFacts.short_row_get fieldnames r k Hk) as Hg.
  assert (Hf : float_field (DictReader_row fieldnames r) k = Raise e).
  { unfold float_field, getitem. rewrite Hg. reflexivity. }
  split; [unfold getitem; now rewrite Hg|].
  split; [exact Hf|]. split; [reflexivity|].
  intros Hd. exact (RowFacts.failing_field_fails_row _ k e Hd Hf).
Qed.

(** X14.  When stdout takes every line, every row is scored or skipped
    and opening the output file raises a [FileNotFoundError], the run
    prints that the input file was not found, and changes no file. *)
Theorem unopenable_output_blames_input (input_file output_file : string) (w : world)
    (fieldnames : list string) (records : list record) (e : exn) :
  stdout_takes_all ->
  fs w input_file = Csv (fieldnames :: records) None ->
  (forall r e', In r records -> nonblank r = true ->
                score_row (DictReader_row fieldnames r) = Raise e' ->
                caught_by row_handler e' = true) ->
  fs w output_file = Unopenable e ->
  caught_by [FileNotFoundError] e = true ->
  exists lines,
    process_csv input_file output_file w =
    (Ok tt, mkWorld (fs w)
              (stdout w ++ lines ++
               ["Error: Input file '" ++ input_file ++ "' not found"]%string)).
Proof.
  intros Hall Hin Hcaught Hout Hfnf.
  destruct (RunFacts.process_csv_try_runs input_file output_file w fieldnames records
              None Hall Hin Hcaught) as [lines Htry].
  exists lines.
  unfold write_results, open_write in Htry. cbn [fs] in Htry. rewrite Hout in Htry.
  unfold process_csv. rewrite Htry, Hfnf, LoopFacts.print_ok by exact Hall.
  unfold writeln. cbn [fs stdout]. now rewrite <- app_assoc.
Qed.

(** X15.  The line [Results saved to: ...] is the last one printed only
    after a complete run: the input was read to its end, the output file
    holds the header with [bbb_score] appended and the written rows, and
    the count printed before it is the number of those rows. *)
Theorem results_saved_means_complete (input_file output_file : string) (w : world) :
  fst (process_csv input_file output_file w) = Ok tt ->
  last (stdout (snd (process_csv input_file output_file w))) ""
  = ("Results saved to: " ++ output_file)%string ->
  exists fieldnames records written lines,
    fs w input_file = Csv (fieldnames :: records) None /\
    snd (process_csv input_file output_file w) =
    mkWorld (fun p => if String.eqb p output_file
                      then Csv ((fieldnames ++ ["bbb_score"]) :: written) None
                      else fs w p)
            (stdout w ++ lines ++
             [(newline ++ "Successfully processed "
               ++ str_int (Z.of_nat (List.length written)) ++ " rows")%string;
              ("Results saved to: " ++ output_file)%string]).
Proof.
  intros Hok Hlast.
  destruct (RunFacts.process_csv_saved input_file output_file w Hok Hlast)
    as (w' & -> & Htry & Hne).
  apply RunFacts.process_csv_try_ok in Htry
    as [[Hempty _] | (f & rs & rows & w1 & written & Hin & Hrows & _ & Hw & ->)];
    [contradiction|].
  destruct (LoopFacts.process_rows_frame f rs None 2%Z [] w) as (res & lines & Hl).
  rewrite Hl in Hrows. injection Hrows as -> <-.
  apply RowFacts.writerows_cases in Hw.
  exists f, rs, written, lines. split; [exact Hin|].
  rewrite <- Hw. unfold writeln, store. cbn [snd fs stdout]. f_equal.
  now rewrite <- !app_assoc.
Qed.

End WithPlatform.

Lemma row_error_classes_witness :
  let row := DictReader_row descriptor_header ["2"; "20"; "n/a"; "0"; "0"; "60"; "0"] in
  let e := mkExn ValueError "could not convert string to float: 'n/a'" in
  score_row (P := Sample.platform) row = Raise e /\
  (cls e = KeyError \/ cls e = ValueError \/ cls e = TypeError \/
   cls e = OverflowError \/ cls e = ZeroDivisionError) /\
  caught_by row_handler e = true /\
  caught_by [Exception] e = true /\
  caught_by [FileNotFoundError] e = false.
Proof.
  intros row e. split; [vm_compute; reflexivity|].
  apply (row_error_classes (P := Sample.platform) row e). vm_compute. reflexivity.
Defined.

Lemma process_csv_touches_only_output_witness :
  let w := one_input zero_weight_batch in
  "acd.csv" <> "scores.csv" /\
  fs (snd (process_csv (P := Sample.platform) "acd.csv" "scores.csv" w)) "acd.csv"
  = fs w "acd.csv".
Proof.
  intros w. split; [discriminate|].
  apply (proj1 (process_csv_touches_only_output (P := Sample.platform)
                  "acd.csv" "scores.csv" w)).
  discriminate.
Defined.

Lemma process_csv_returns_witness :
  let w := one_input zero_weight_batch in
  (forall e, fs w "acd.csv" = Unopenable e -> issubclass (cls e) Exception = true) /\
  (forall records e, fs w "acd.csv" = Csv records (Some e) ->
                     issubclass (cls e) Exception = true) /\
  (forall e, fs w "scores.csv" = Unopenable e -> issubclass (cls e) Exception = true) /\
  stdout_takes_all (P := Sample.platform) /\
  fst (process_csv (P := Sample.platform) "acd.csv" "scores.csv" w) = Ok tt.
Proof.
  intros w.
  assert (H1 : forall e, fs w "acd.csv" = Unopenable e ->
                         issubclass (cls e) Exception = true)
    by (intros e H; cbv in H; discriminate H).
  assert (H2 : forall records e, fs w "acd.csv" = Csv records (Some e) ->
                                 issubclass (cls e) Exception = true)
    by (intros records e H; cbv in H; discriminate H).
  assert (H3 : forall e, fs w "scores.csv" = Unopenable e ->
                         issubclass (cls e) Exception = true)
    by (intros e H; cbv in H; discriminate H).
  split; [exact H1|]. split; [exact H2|]. split; [exact H3|].
  split; [exact LoopFacts.terminal_takes_all|].
  exact (proj2 (process_csv_returns (P := Sample.platform) "acd.csv" "scores.csv" w
                  H1 H2 H3) LoopFacts.terminal_takes_all).
Defined.

Lemma uncaught_row_error_discards_batch_witness :
  let w := one_input zero_weight_batch in
  let good := ["2"; "20"; "1"; "0"; "0"; "60"; "0"] in
  let bad := ["2"; "20"; "0"; "0"; "0"; "60"; "0"] in
  let e := mkExn ZeroDivisionError "0.0 cannot be raised to a negative power" in
  fs w "acd.csv" = Csv (descriptor_header :: [good] ++ bad :: []) None /\
  nonblank bad = true /\
  (forall r' e', In r' [good] -> nonblank r' = true ->
     score_row (P := Sample.platform) (DictReader_row descriptor_header r') = Raise e' ->
     caught_by row_handler e' = true) /\
  score_row (P := Sample.platform) (DictReader_row descriptor_header bad) = Raise e /\
  caught_by row_handler e = false /\
  stdout_takes_all (P := Sample.platform) /\
  (forall p, fs (snd (process_csv (P := Sample.platform) "acd.csv" "scores.csv" w)) p
             = fs w p) /\
  exists lines,
    process_csv (P := Sample.platform) "acd.csv" "scores.csv" w =
    (Ok tt, mkWorld (fs w) (stdout w ++ lines ++ ["Error processing CSV: " ++ msg e]%string)).
Proof.
  intros w good bad e.
  assert (Hpre : forall r' e', In r' [good] -> nonblank r' = true ->
            score_row (P := Sample.platform) (DictReader_row descriptor_header r') = Raise e' ->
            caught_by row_handler e' = true).
  { intros r' e' [<- | []] _ H. vm_compute in H. discriminate H. }
  assert (Hbad : score_row (P := Sample.platform) (DictReader_row descriptor_header bad)
                 = Raise e) by (vm_compute; reflexivity).
  pose proof (uncaught_row_error_discards_batch (P := Sample.platform)
                "acd.csv" "scores.csv" w descriptor_header [good] bad [] None e
                eq_refl eq_refl Hpre Hbad eq_refl) as [Hfs Hrun].
  split; [reflexivity|]. split; [reflexivity|]. split; [exact Hpre|].
  split; [exact Hbad|]. split; [reflexivity|].
  split; [exact LoopFacts.terminal_takes_all|].
  split; [exact Hfs | exact (Hrun LoopFacts.terminal_takes_all)].
Defined.

Lemma blank_records_are_ignored_witness :
  let records := [[]; ["2"; "20"; "1"; "0"; "0"; "60"; "0"]; []] in
  let w := one_input (Csv (descriptor_header :: records) None) in
  let w' := store w "acd.csv" (Csv (descriptor_header :: filter nonblank records) None) in
  fs w "acd.csv" = Csv (descriptor_header :: records) None /\
  stdout (snd (process_csv (P := Sample.platform) "acd.csv" "scores.csv" w'))
  = stdout (snd (process_csv (P := Sample.platform) "acd.csv" "scores.csv" w)).
Proof.
  intros records w w'. split; [reflexivity|].
  exact (proj1 (proj2 (blank_records_are_ignored (P := Sample.platform)
                         "acd.csv" "scores.csv" w descriptor_header records None eq_refl))).
Defined.

Lemma missing_column_scores_nothing_witness :
  let header := ["aro_r"; "ha"; "mw"; "hba"; "hbd"; "tpsa"] in
  let records := [["2"; "20"; "1"; "0"; "0"; "60"]] in
  let w := one_input (Csv (header :: records) None) in
  let out := fs (snd (process_csv (P := Sample.platform) "acd.csv" "scores.csv" w))
               "scores.csv" in
  In "pka" descriptor_columns /\ ~ In "pka" header /\
  fs w "acd.csv" = Csv (header :: records) None /\
  (forall r, exists e,
     score_row (P := Sample.platform) (DictReader_row header r) = Raise e) /\
  (out = fs w "scores.csv" \/ out = Csv [header ++ ["bbb_score"]] None).
Proof.
  intros header records w out.
  assert (Hin : In "pka" descriptor_columns) by (cbn; do 6 right; left; reflexivity).
  assert (Habs : ~ In "pka" header) by (cbn; intuition discriminate).
  split; [exact Hin|]. split; [exact Habs|]. split; [reflexivity|].
  exact (missing_column_scores_nothing (P := Sample.platform) "acd.csv" "scores.csv" w
           header records None "pka" Hin Habs eq_refl).
Defined.

Lemma missing_first_column_skips_every_row_witness :
  let header := ["rings"; "ha"; "mw"; "hba"; "hbd"; "tpsa"; "pka"] in
  let records := [["2"; "20"; "1"; "0"; "0"; "60"; "0"]] in
  let w := one_input (Csv (header :: records) None) in
  ~ In "aro_r" header /\
  fs w "acd.csv" = Csv (header :: records) None /\
  open_write w "scores.csv" = Ok tt /\
  stdout_takes_all (P := Sample.platform) /\
  exists lines,
    process_csv (P := Sample.platform) "acd.csv" "scores.csv" w =
    (Ok tt,
     mkWorld (fun p => if String.eqb p "scores.csv"
                       then Csv [header ++ ["bbb_score"]] None else fs w p)
             (stdout w ++ lines ++
              [(newline ++ "Successfully processed 0 rows")%string;
               ("Results saved to: " ++ "scores.csv")%string])).
Proof.
  intros header records w.
  assert (Habs : ~ In "aro_r" header) by (cbn; intuition discriminate).
  split; [exact Habs|]. split; [reflexivity|]. split; [reflexivity|].
  split; [exact LoopFacts.terminal_takes_all|].
  exact (proj2 (missing_first_column_skips_every_row (P := Sample.platform)
                  "acd.csv" "scores.csv" w header records Habs eq_refl eq_refl)
           LoopFacts.terminal_takes_all).
Defined.

Lemma surplus_fields_cannot_be_written_witness :
  let r := ["2"; "20"; "1"; "0"; "0"; "60"; "0"; "extra"] in
  (List.length descriptor_header < List.length r)%nat /\
  dict_to_list (P := Sample.platform) (descriptor_header ++ ["bbb_score"])
    (dict_set (DictReader_row descriptor_header r) (Some "bbb_score") (VStr "3.161955"))
  = raise ValueError "dict contains fields not in fieldnames: None".
Proof.
  intros r.
  assert (Hlen : (List.length descriptor_header < List.length r)%nat) by (cbn; lia).
  split; [exact Hlen|].
  exact (surplus_fields_cannot_be_written (P := Sample.platform) descriptor_header r
           "3.161955" Hlen).
Defined.

Lemma short_row_field_is_none_witness :
  let r := ["2"; "20"] in
  let e := mkExn TypeError
             "float() argument must be a string or a real number, not 'NoneType'" in
  In "mw" (skipn (List.length r) descriptor_header) /\
  float_field (P := Sample.platform) (DictReader_row descriptor_header r) "mw" = Raise e /\
  caught_by row_handler e = false.
Proof.
  intros r e.
  assert (Hk : In "mw" (skipn (List.length r) descriptor_header))
    by (cbn; left; reflexivity).
  split; [exact Hk|].
  pose proof (short_row_field_is_none (P := Sample.platform) descriptor_header r "mw" Hk)
    as (_ & Hf & Hc & _).
  split; [exact Hf | exact Hc].
Defined.

Lemma unopenable_output_blames_input_witness :
  let e := mkExn FileNotFoundError
             "[Errno 2] No such file or directory: 'out/scores.csv'" in
  let w := mkWorld (fun p => if String.eqb p "acd.csv"
                             then Csv (descriptor_header :: mixed_batch) None
                             else if String.eqb p "out/scores.csv" then Unopenable e
                                  else NoSuchFile) [] in
  stdout_takes_all (P := Sample.platform) /\
  fs w "acd.csv" = Csv (descriptor_header :: mixed_batch) None /\
  (forall r e', In r mixed_batch -> nonblank r = true ->
     score_row (P := Sample.platform) (DictReader_row descriptor_header r) = Raise e' ->
     caught_by row_handler e' = true) /\
  fs w "out/scores.csv" = Unopenable e /\
  caught_by [FileNotFoundError] e = true /\
  exists lines,
    process_csv (P := Sample.platform) "acd.csv" "out/scores.csv" w =
    (Ok tt, mkWorld (fs w)
              (stdout w ++ lines ++ ["Error: Input file 'acd.csv' not found"])).
Proof.
  intros e w.
  assert (Hcaught : forall r e', In r mixed_batch -> nonblank r = true ->
            score_row (P := Sample.platform) (DictReader_row descriptor_header r) = Raise e' ->
            caught_by row_handler e' = true).
  { intros r e' [<- | [<- | []]] _ H; vm_compute in H; [discriminate H|].
    injection H as <-. reflexivity. }
  split; [exact LoopFacts.terminal_takes_all|].
  split; [reflexivity|]. split; [exact Hcaught|]. split; [reflexivity|].
  split; [reflexivity|].
  exact (unopenable_output_blames_input (P := Sample.platform) "acd.csv" "out/scores.csv" w
           descriptor_header mixed_batch e LoopFacts.terminal_takes_all
           eq_refl Hcaught eq_refl eq_refl).
Defined.

Lemma results_saved_means_complete_witness :
  let w := one_input (Csv (descriptor_header :: mixed_batch) None) in
  let run := process_csv (P := Sample.platform) "acd.csv" "scores.csv" w in
  fst run = Ok tt /\
  last (stdout (snd run)) "" = "Results saved to: scores.csv" /\
  exists fieldnames records written lines,
    fs w "acd.csv" = Csv (fieldnames :: records) None /\
    snd run =
    mkWorld (fun p => if String.eqb p "scores.csv"
                      then Csv ((fieldnames ++ ["bbb_score"]) :: written) None
                      else fs w p)
            (stdout w ++ lines ++
             [(newline ++ "Successfully processed "
               ++ str_int (Z.of_nat (List.length written)) ++ " rows")%string;
              ("Results saved to: " ++ "scores.csv")%string]).
Proof.
  intros w run.
  assert (H1 : fst run = Ok tt) by (vm_compute; reflexivity).
  assert (H2 : last (stdout (snd run)) "" = ("Results saved to: " ++ "scores.csv")%string)
    by (vm_compute; reflexivity).
  split; [exact H1|]. split; [exact H2|].
  exact (results_saved_means_complete (P := Sample.platform) "acd.csv" "scores.csv" w H1 H2).
Defined.

End PipelineMore.

(** ** The [__main__] block *)

Module MainFacts.

Local Open Scope string_scope.
Local Open Scope list_scope.

Section WithPlatform.
Context {P : Platform}.

(** X16.  The [__main__] block changes no file but the output path it
    names, and what leaves it is an exception outside the [Exception]
    hierarchy or what a [print] raised.  On a stdout that takes every line
    it prints its two banner lines before anything else, and when its
    input path does not exist it prints only the banner and the not-found
    line. *)
Theorem main_prints_banner_first (w : world) :
  (stdout_takes_all ->
   exists lines,
     stdout (snd (main w)) =
     stdout w ++ ["BBB Score Calculator - CSV Processor"; str_times "=" 50] ++ lines) /\
  (forall p, p <> output_csv -> fs (snd (main w)) p = fs w p) /\
  (forall e, fst (main w) = Raise e ->
     issubclass (cls e) Exception = false \/
     exists printed line, stdout_error printed line = Some e) /\
  (stdout_takes_all ->
   fs w input_csv = NoSuchFile ->
   main w =
   (Ok tt, mkWorld (fs w)
             (stdout w ++ ["BBB Score Calculator - CSV Processor"; str_times "=" 50;
                           "Error: Input file '\folder_names\acd.csv' not found"]))).
Proof.
  set (w2 := writeln (writeln w "BBB Score Calculator - CSV Processor") (str_times "=" 50)).
  assert (Hmain : stdout_takes_all -> main w = process_csv input_csv output_csv w2).
  { intros Hall. unfold main. now rewrite !LoopFacts.print_ok. }
  split; [|split; [|split]].
  - intros Hall. rewrite (Hmain Hall).
    destruct (RunFacts.process_csv_state input_csv output_csv w2) as (lines & Hout & _).
    exists lines. rewrite Hout. unfold w2, writeln. cbn [stdout].
    now rewrite <- !app_assoc.
  - intros p Hp. unfold main.
    destruct (print w _) as [[[]|e1] w1] eqn:H1.
    + apply LoopFacts.print_inv in H1 as [(_ & -> & _) | (e & H & _)]; [|discriminate H].
      destruct (print _ (str_times "=" 50)) as [[[]|e2] w3] eqn:H2.
      * apply LoopFacts.print_inv in H2 as [(_ & -> & _) | (e & H & _)]; [|discriminate H].
        destruct (RunFacts.process_csv_state input_csv output_csv w2) as (lines & _ & Hfs).
        exact (Hfs p Hp).
      * apply LoopFacts.print_inv in H2 as [(H & _) | (e & _ & -> & _)];
          [discriminate H | reflexivity].
    + apply LoopFacts.print_inv in H1 as [(H & _) | (e & _ & -> & _)];
        [discriminate H | reflexivity].
  - intros e. unfold main.
    destruct (print w _) as [[[]|e1] w1] eqn:H1.
    + destruct (print w1 (str_times "=" 50)) as [[[]|e2] w3] eqn:H2.
      * intros He.
        pose proof (RunFacts.process_csv_cases input_csv output_csv w3) as Hc.
        destruct (process_csv_try input_csv output_csv w3) as [[[]|e'] w4];
          rewrite Hc in He; [discriminate He|].
        rewrite RunFacts.caught_exception in He.
        destruct (issubclass (cls e') Exception) eqn:Hex.
        -- destruct (print w4 _) as [r w5] eqn:Hp. cbn [fst] in He. subst r.
           apply LoopFacts.print_inv in Hp as [(H & _) | (e'' & [= <-] & _ & Hp)];
             [discriminate H | right; eauto].
        -- cbn in He. injection He as <-. left; exact Hex.
      * intros [= <-].
        apply LoopFacts.print_inv in H2 as [(H & _) | (e' & [= <-] & _ & H2)];
          [discriminate H | right; eauto].
    + intros [= <-].
      apply LoopFacts.print_inv in H1 as [(H & _) | (e' & [= <-] & _ & H1)];
        [discriminate H | right; eauto].
  - intros Hall Hmissing. rewrite (Hmain Hall).
    unfold process_csv, process_csv_try, open_read.
    change (fs w2 input_csv) with (fs w input_csv). rewrite Hmissing.
    unfold raise, caught_by. cbn [cls existsb]. cbn [orb issubclass].
    rewrite LoopFacts.print_ok by exact Hall.
    unfold w2, writeln. cbn. now rewrite <- !app_assoc.
Qed.

End WithPlatform.

Lemma main_prints_banner_first_witness :
  let w := mkWorld no_files [] in
  stdout_takes_all (P := Sample.platform) /\
  fs w input_csv = NoSuchFile /\
  main (P := Sample.platform) w =
  (Ok tt, mkWorld (fs w)
            (stdout w ++ ["BBB Score Calculator - CSV Processor"; str_times "=" 50;
                          "Error: Input file '\folder_names\acd.csv' not found"])).
Proof.
  intros w. split; [exact LoopFacts.terminal_takes_all|]. split; [reflexivity|].
  apply (proj2 (proj2 (proj2 (main_prints_banner_first (P := Sample.platform) w)))
           LoopFacts.terminal_takes_all).
  reflexivity.
Defined.

End MainFacts.
